(** * FB2 ingestion in [reader/views.py]: a shallow embedding

    The development follows [BookViewSet._parse_fb2_content] and the four
    helpers it calls ([_validate_fb2_structure], [_extract_fb2_metadata],
    [_extract_fb2_chapters], [_process_fb2_section]).  Python values are
    modelled as follows.

    - a [str] is a list of Unicode code points ([N]);
    - an [xml.etree.ElementTree.Element] is a record with its [tag], [text],
      [tail] and the list of its children (attributes are never read by the
      module and are left out);
    - the [namespace] dictionary is either empty or holds the single key
      ["fb"], so it is an [option] of the namespace URI;
    - a raised exception is the left injection of a sum. *)

From Stdlib Require Import List NArith ZArith Arith Lia Bool Sorted.
From Stdlib Require Ascii String.
Import ListNotations String.StringSyntax.

Delimit Scope string_scope with string.

(* ================================================================== *)
(** ** Python strings *)
(* ================================================================== *)

Module Py.

Definition char := N.
Definition str := list char.

(** ASCII literals of the source are written as Rocq strings. *)
Fixpoint lit (s : String.string) : str :=
  match s with
  | String.EmptyString => []
  | String.String a s' => Ascii.N_of_ascii a :: lit s'
  end.
Arguments lit s%_string.

Definition char_eqb (a b : char) : bool := N.eqb a b.

Fixpoint eqb (s t : str) : bool :=
  match s, t with
  | [], [] => true
  | a :: s', b :: t' => char_eqb a b && eqb s' t'
  | _, _ => false
  end.

(** Truth value of a string: [bool(s)] is [len(s) != 0]. *)
Definition truthy (s : str) : bool :=
  match s with [] => false | _ :: _ => true end.

(** [str.isspace] on one code point, as CPython's
    [_PyUnicode_IsWhitespace] lists them. *)
Definition isspace (c : char) : bool :=
  (((9 <=? c) && (c <=? 13)) || ((28 <=? c) && (c <=? 32))
   || (c =? 133) || (c =? 160) || (c =? 5760)
   || ((8192 <=? c) && (c <=? 8202))
   || (c =? 8232) || (c =? 8233) || (c =? 8239) || (c =? 8287)
   || (c =? 12288))%N.

Fixpoint lstrip (s : str) : str :=
  match s with
  | [] => []
  | c :: s' => if isspace c then lstrip s' else s
  end.

Definition rstrip (s : str) : str := rev (lstrip (rev s)).

(** [s.strip()] *)
Definition strip (s : str) : str := lstrip (rstrip s).

(** [sep.join(parts)] *)
Fixpoint join (sep : str) (parts : list str) : str :=
  match parts with
  | [] => []
  | [p] => p
  | p :: rest => p ++ sep ++ join sep rest
  end.

(** [s.startswith(prefix)] *)
Fixpoint startswith (s prefix : str) {struct prefix} : bool :=
  match prefix, s with
  | [], _ => true
  | b :: prefix', a :: s' => char_eqb a b && startswith s' prefix'
  | _ :: _, [] => false
  end.

(** [s.endswith(suffix)] *)
Definition endswith (s suffix : str) : bool :=
  startswith (rev s) (rev suffix).

(** [s.find(c)] for a one-character needle: the first index, or [None]
    where Python answers [-1]. *)
Fixpoint find_char (c : char) (s : str) : option nat :=
  match s with
  | [] => None
  | a :: s' =>
      if char_eqb a c then Some 0
      else option_map S (find_char c s')
  end.

(** [s[lo:hi]] for non-negative bounds. *)
Definition slice (s : str) (lo hi : nat) : str :=
  firstn (hi - lo) (skipn lo s).

(** [s.replace(old, new)] for a non-empty [old]: occurrences are replaced
    from the left and do not overlap.  [skip] counts the characters of a
    match that are still to be dropped. *)
Fixpoint replace_from (old new : str) (skip : nat) (s : str) : str :=
  match s with
  | [] => []
  | c :: s' =>
      match skip with
      | S k => replace_from old new k s'
      | O =>
          if startswith s old
          then new ++ replace_from old new (length old - 1) s'
          else c :: replace_from old new 0 s'
      end
  end.

Definition replace (s old new : str) : str := replace_from old new 0 s.

(** Decimal digits, for [f"{order}"]. *)
Fixpoint digits (u : Decimal.uint) : str :=
  match u with
  | Decimal.Nil => []
  | Decimal.D0 u' => 48 :: digits u'
  | Decimal.D1 u' => 49 :: digits u'
  | Decimal.D2 u' => 50 :: digits u'
  | Decimal.D3 u' => 51 :: digits u'
  | Decimal.D4 u' => 52 :: digits u'
  | Decimal.D5 u' => 53 :: digits u'
  | Decimal.D6 u' => 54 :: digits u'
  | Decimal.D7 u' => 55 :: digits u'
  | Decimal.D8 u' => 56 :: digits u'
  | Decimal.D9 u' => 57 :: digits u'
  end%N.

(** [str(n)] for a non-negative integer. *)
Definition of_nat (n : nat) : str := digits (Nat.to_uint n).

End Py.

Abbreviation str := Py.str.
Abbreviation lit := Py.lit.


(* ================================================================== *)
(** ** [xml.etree.ElementTree] *)
(* ================================================================== *)

(** An element as [ET.fromstring] builds it.  Comments and processing
    instructions are dropped by the default tree builder, so every node
    has a string tag. *)
Unset Elimination Schemes.
Inductive Element : Type :=
  mkElement {
    tag : str;
    text : option str;
    tail : option str;
    children : list Element
  }.
Set Elimination Schemes.

Section Element_induction.
Variable P : Element -> Prop.
Hypothesis step :
  forall t x tl cs, Forall P cs -> P (mkElement t x tl cs).

Fixpoint Element_ind (e : Element) : P e :=
  match e with
  | mkElement t x tl cs =>
      step t x tl cs
        ((fix all (l : list Element) : Forall P l :=
            match l with
            | [] => Forall_nil P
            | c :: l' => Forall_cons c (Element_ind c) (all l')
            end) cs)
  end.
End Element_induction.

(** A position inside a tree: the child indices from the context element
    down to the node.  Python compares elements by identity; positions
    play that role here. *)
Definition path := list nat.

Section Indexed.
Variables (A B : Type) (f : nat -> A -> list B).

(** [f i x] for every [x] of the list, [i] its index counted from [k]. *)
Fixpoint flat_mapi (k : nat) (l : list A) : list B :=
  match l with
  | [] => []
  | x :: l' => f k x ++ flat_mapi (S k) l'
  end.
End Indexed.
Arguments flat_mapi {A B} f k l.

Definition under (i : nat) (pe : path * Element) : path * Element :=
  (i :: fst pe, snd pe).

(** [Element.iter()]: the element, then its descendants, in document
    order. *)
Fixpoint iter (e : Element) : list Element :=
  match e with
  | mkElement _ _ _ cs => e :: flat_map iter cs
  end.

(** [iter] with the position of every element it yields. *)
Fixpoint iter_at (e : Element) : list (path * Element) :=
  match e with
  | mkElement _ _ _ cs =>
      ([], e) :: flat_mapi (fun i c => map (under i) (iter_at c)) 0 cs
  end.

Definition children_at (e : Element) : list (path * Element) :=
  flat_mapi (fun i c => [([i], c)]) 0 (children e).

(** What a generator yields for an optional string under [if t: yield t]. *)
Definition yield_text (t : option str) : list str :=
  match t with
  | Some (c :: r) => [c :: r]
  | _ => []
  end.

(** [Element.itertext()]: the element's text, then for each child its
    inner text followed by its tail. *)
Fixpoint itertext (e : Element) : list str :=
  match e with
  | mkElement _ x _ cs =>
      yield_text x
      ++ flat_map (fun c => itertext c ++ yield_text (tail c)) cs
  end.

(** ["".join(e.itertext())] *)
Definition full_text (e : Element) : str := Py.join [] (itertext e).

(** *** ElementPath, for the one-step paths of the module

    Every path the module passes to [find] or [findall] is a single step:
    [".//name"] (descendants of the context element, itself excluded),
    ["./name"] or ["name"] (its children).  A name written ["fb:local"] is
    resolved against the prefix map to ["{uri}local"]; the step then keeps
    the elements its tag test selects.  That test is equality of tags
    except for the wildcard forms of [xml.etree.ElementPath]:
    ["{*}name"] selects [name] in any namespace or in none, ["{uri}*"]
    every name of one namespace, ["{}*"] every name outside a namespace,
    ["{*}*"] and ["*"] every element, and ["{}name"] is read as [name]. *)

Inductive axis := Child | Descendant.

(** The [namespace] dictionary: [None] is [{}], [Some uri] is
    [{"fb": uri}]. *)
Definition prefix_map := option str.

(** Truth value of the dictionary. *)
Definition nonempty (namespace : prefix_map) : bool :=
  match namespace with Some _ => true | None => false end.

Definition split_step (p : str) : axis * str :=
  if Py.startswith p (lit ".//") then (Descendant, skipn 3 p)
  else if Py.startswith p (lit "./") then (Child, skipn 2 p)
  else (Child, p).

(** Resolution of a prefixed name by the tokenizer.  The module writes
    the prefix ["fb:"] only when the dictionary is non-empty; an
    unprefixed name is kept as it is.  The URI is pasted between the
    braces as it stands, so a document whose root is in the namespace
    ["*"] (the XML parser accepts [xmlns="*"] and answers the root tag
    ["{*}FictionBook"]) turns every prefixed name into the wildcard
    ["{*}local"]. *)
Definition clark (namespace : prefix_map) (name : str) : str :=
  match namespace with
  | Some uri =>
      if Py.startswith name (lit "fb:")
      then lit "{" ++ uri ++ lit "}" ++ skipn 3 name
      else name
  | None => name
  end.

(** [_is_wildcard_tag]: [tag[:3] == '{*}' or tag[-2:] == '}*']. *)
Definition is_wildcard_tag (t : str) : bool :=
  Py.startswith t (lit "{*}") || Py.endswith t (lit "}*").

(** The tag test of one step, on the tag of a candidate element:
    [_prepare_tag] for a wildcard, and otherwise equality with the name,
    a leading ["{}"] removed.  The name ["*"] alone selects everything
    ([prepare_star] for children, [iter("*")] for descendants).  The
    slices [el_tag[-len(suffix):] == suffix] and [el_tag[:len(ns)] == ns]
    of the source are [endswith] and [startswith]. *)
Definition tag_selects (t el_tag : str) : bool :=
  if Py.eqb t (lit "*") then true
  else if is_wildcard_tag t then
    if Py.eqb t (lit "{*}*") then true
    else if Py.eqb t (lit "{}*") then negb (Py.startswith el_tag (lit "{"))
    else if Py.startswith t (lit "{*}") then
      Py.eqb el_tag (skipn 3 t) || Py.endswith el_tag (skipn 2 t)
    else Py.startswith el_tag (removelast t)
  else
    let t := if Py.startswith t (lit "{}") then skipn 2 t else t in
    Py.eqb el_tag t.

Definition has_tag (t : str) (e : Element) : bool := tag_selects t (tag e).

Definition select (ax : axis) (e : Element) : list Element :=
  match ax with
  | Child => children e
  | Descendant => flat_map iter (children e)
  end.

Definition select_at (ax : axis) (e : Element) : list (path * Element) :=
  match ax with
  | Child => children_at e
  | Descendant => tl (iter_at e)
  end.

(** [e.findall(p, namespace)] *)
Definition findall (e : Element) (p : str) (namespace : prefix_map)
  : list Element :=
  let (ax, name) := split_step p in
  filter (has_tag (clark namespace name)) (select ax e).

(** [e.find(p, namespace)]: the first match, or [None]. *)
Definition find (e : Element) (p : str) (namespace : prefix_map)
  : option Element :=
  hd_error (findall e p namespace).

(** [findall] with the position of every match, relative to [e]. *)
Definition findall_at (e : Element) (p : str) (namespace : prefix_map)
  : list (path * Element) :=
  let (ax, name) := split_step p in
  filter (fun pe => has_tag (clark namespace name) (snd pe)) (select_at ax e).

Definition find_at (e : Element) (p : str) (namespace : prefix_map)
  : option (path * Element) :=
  hd_error (findall_at e p namespace).

(** The element at a position. *)
Fixpoint subtree (e : Element) (p : path) : option Element :=
  match p with
  | [] => Some e
  | i :: p' =>
      match nth_error (children e) i with
      | Some c => subtree c p'
      | None => None
      end
  end.

(* ================================================================== *)
(** ** Exceptions *)
(* ================================================================== *)

(** The exception classes the module distinguishes: [ValueError], which it
    raises itself, [ET.ParseError], which it catches by name, and any other
    [Exception].  Each carries the text [str(e)] gives. *)
Inductive exn :=
  | ValueError (msg : str)
  | ParseError (msg : str)
  | OtherError (msg : str).

(** [str(e)] *)
Definition exn_str (e : exn) : str :=
  match e with
  | ValueError m | ParseError m | OtherError m => m
  end.

Definition result (A : Type) : Type := (exn + A)%type.

Definition ret {A : Type} (x : A) : result A := inr x.
Definition raise {A : Type} (e : exn) : result A := inl e.

Definition bind {A B : Type} (m : result A) (k : A -> result B) : result B :=
  match m with
  | inl e => inl e
  | inr x => k x
  end.

Notation "x <- m ;; k" := (bind m (fun x => k))
  (at level 61, m at next level, right associativity).

(** [try: body except Exception as e: raise h(e)] *)
Definition try_except {A : Type} (body : result A) (h : exn -> exn)
  : result A :=
  match body with
  | inl e => inl (h e)
  | inr x => inr x
  end.

(* ================================================================== *)
(** ** The records the parser returns *)
(* ================================================================== *)

(** [{"title": ..., "content": ..., "order": ...}] *)
Record chapter_data := mkChapter {
  ch_title : str;
  ch_content : str;
  ch_order : nat
}.

(** [book_data["additional_fields"]] *)
Record additional_fields := mkAdditional {
  authors : str;
  genres : str;
  language : str
}.

(** [book_data]; the key ["chapters"] is absent until
    [_parse_fb2_content] stores it. *)
Record book_data := mkBook {
  title : str;
  description : str;
  additional : additional_fields;
  chapters : option (list chapter_data)
}.

(* ================================================================== *)
(** ** String constants of the module *)
(* ================================================================== *)

(** The Russian word for "Chapter" and a space
    (U+0413 U+043B U+0430 U+0432 U+0430 U+0020). *)
Definition CHAPTER_PREFIX : str :=
  [1043; 1083; 1072; 1074; 1072; 32]%N.

(** The default book title, Russian for "Untitled". *)
Definition UNTITLED : str :=
  [1041; 1077; 1079; 32; 1085; 1072; 1079; 1074; 1072; 1085; 1080; 1103]%N.

(** Russian for "FB2 file is damaged: missing element " (the element name
    follows). *)
Definition MSG_MISSING : str :=
  [70; 66; 50; 32; 1092; 1072; 1081; 1083; 32; 1087; 1086; 1074; 1088; 1077;
   1078; 1076; 1077; 1085; 58; 32; 1086; 1090; 1089; 1091; 1090; 1089; 1090;
   1074; 1091; 1077; 1090; 32; 1101; 1083; 1077; 1084; 1077; 1085; 1090;
   32]%N.

(** Russian for "Error while parsing FB2: ". *)
Definition MSG_PARSING : str :=
  [1054; 1096; 1080; 1073; 1082; 1072; 32; 1087; 1088; 1080; 32; 1087; 1072;
   1088; 1089; 1080; 1085; 1075; 1077; 32; 70; 66; 50; 58; 32]%N.

(** Russian for "Malformed XML: ". *)
Definition MSG_XML : str :=
  [1053; 1077; 1082; 1086; 1088; 1088; 1077; 1082; 1090; 1085; 1099; 1081;
   32; 88; 77; 76; 32; 1092; 1086; 1088; 1084; 1072; 1090; 58; 32]%N.

(** Russian for "Section title-info not found in the FB2 file". *)
Definition MSG_NO_TITLE_INFO : str :=
  [1053; 1077; 32; 1085; 1072; 1081; 1076; 1077; 1085; 1072; 32; 1089; 1077;
   1082; 1094; 1080; 1103; 32; 116; 105; 116; 108; 101; 45; 105; 110; 102;
   111; 32; 1074; 32; 70; 66; 50; 32; 1092; 1072; 1081; 1083; 1077]%N.

(** ["\n"] *)
Definition NL : str := [10%N].

(* ================================================================== *)
(** ** [BookViewSet]: the FB2 parser *)
(* ================================================================== *)

(** [a if namespace else b] *)
Definition if_ns {A : Type} (namespace : prefix_map) (a b : A) : A :=
  if nonempty namespace then a else b.

(** The comprehension [[p.text.strip() for p in elements if p.text]]. *)
Definition stripped_texts (elements : list Element) : list str :=
  flat_map
    (fun p =>
       match text p with
       | Some t => if Py.truthy t then [Py.strip t] else []
       | None => []
       end)
    elements.

(** *** [_validate_fb2_structure] *)

Definition required_elements (namespace : prefix_map) : list (str * str) :=
  [ (if_ns namespace (lit ".//fb:title-info") (lit ".//title-info"),
     lit "title-info");
    (if_ns namespace (lit ".//fb:body") (lit ".//body"), lit "body") ].

Fixpoint check_required (root : Element) (namespace : prefix_map)
    (required : list (str * str)) : result unit :=
  match required with
  | [] => ret tt
  | (xpath, element_name) :: rest =>
      match find root xpath namespace with
      | None => raise (ValueError (MSG_MISSING ++ element_name))
      | Some _ => check_required root namespace rest
      end
  end.

Definition _validate_fb2_structure (root : Element) (namespace : prefix_map)
  : result unit :=
  check_required root namespace (required_elements namespace).

(** *** [_extract_fb2_metadata] *)

(** The rewriting both inner helpers apply to their path argument. *)
Definition fb_path (namespace : prefix_map) (path : str) : str :=
  if nonempty namespace then
    let path :=
      Py.replace (Py.replace path (lit "/") (lit "/fb:"))
        (lit "fb:fb:") (lit "fb:") in
    if negb (Py.startswith path (lit "fb:")) then lit "fb:" ++ path else path
  else path.

Definition find_text (namespace : prefix_map) (element : Element)
    (path default : str) : str :=
  let path := fb_path namespace path in
  match find element path namespace with
  | Some found =>
      match text found with
      | Some t => if Py.truthy t then Py.strip t else default
      | None => default
      end
  | None => default
  end.

Definition find_all_text (namespace : prefix_map) (element : Element)
    (path : str) : str :=
  let path := fb_path namespace path in
  let elements := findall element path namespace in
  Py.join (lit " ") (stripped_texts elements).

Definition author_name (namespace : prefix_map) (author : Element) : str :=
  let first_name := find_text namespace author (lit "first-name") [] in
  let last_name := find_text namespace author (lit "last-name") [] in
  let middle_name := find_text namespace author (lit "middle-name") [] in
  Py.join (lit " ") (filter Py.truthy [first_name; middle_name; last_name]).

Definition annotation_text (namespace : prefix_map) (title_info : Element)
  : str :=
  match
    find title_info
      (if_ns namespace (lit ".//fb:annotation") (lit ".//annotation"))
      namespace
  with
  | Some annotation_elem =>
      let paragraphs :=
        findall annotation_elem
          (if_ns namespace (lit ".//fb:p") (lit ".//p")) namespace in
      match paragraphs with
      | _ :: _ => Py.join NL (stripped_texts paragraphs)
      | [] => Py.strip (full_text annotation_elem)
      end
  | None => []
  end.

Definition _extract_fb2_metadata (root : Element) (namespace : prefix_map)
  : result book_data :=
  match
    find root (if_ns namespace (lit ".//fb:title-info") (lit ".//title-info"))
      namespace
  with
  | None => raise (ValueError MSG_NO_TITLE_INFO)
  | Some title_info =>
      let title := find_text namespace title_info (lit "book-title") UNTITLED in
      let author_elements :=
        findall title_info
          (if_ns namespace (lit ".//fb:author") (lit ".//author")) namespace in
      let authors :=
        filter Py.truthy (map (author_name namespace) author_elements) in
      let description := annotation_text namespace title_info in
      let genres := find_all_text namespace title_info (lit "genre") in
      let language := find_text namespace title_info (lit "lang") (lit "ru") in
      ret {| title := title;
             description := description;
             additional :=
               {| authors :=
                    match authors with
                    | _ :: _ => Py.join (lit ", ") authors
                    | [] => []
                    end;
                  genres := genres;
                  language := language |};
             chapters := None |}
  end.

(** *** [_process_fb2_section] *)

(** The text the section's [title] child yields. *)
Definition title_text (namespace : prefix_map) (title_elem : Element) : str :=
  let title_paragraphs :=
    findall title_elem (if_ns namespace (lit ".//fb:p") (lit ".//p"))
      namespace in
  match title_paragraphs with
  | _ :: _ => Py.join (lit " ") (stripped_texts title_paragraphs)
  | [] => Py.strip (full_text title_elem)
  end.

(** The test of the loop over the section's children. *)
Definition is_paragraph (namespace : prefix_map) (child : Element) : bool :=
  Py.endswith (tag child) (lit "p")
  || match namespace with
     | Some uri => Py.eqb (tag child) (lit "{" ++ uri ++ lit "}p")
     | None => false
     end.

Definition section_content (namespace : prefix_map) (section : Element)
  : str :=
  let content_paragraphs := filter (is_paragraph namespace) (children section) in
  Py.join (NL ++ NL)
    (filter Py.truthy
       (map (fun p => Py.strip (full_text p)) content_paragraphs)).

Definition _process_fb2_section (section : Element) (namespace : prefix_map)
    (order : nat) : option chapter_data :=
  let chapter_title :=
    match
      find section (if_ns namespace (lit "./fb:title") (lit "./title"))
        namespace
    with
    | Some title_elem => title_text namespace title_elem
    | None => []
    end in
  let chapter_title :=
    if negb (Py.truthy chapter_title)
    then CHAPTER_PREFIX ++ Py.of_nat order
    else chapter_title in
  let chapter_content := section_content namespace section in
  if Py.truthy (Py.strip chapter_content)
  then Some {| ch_title := chapter_title;
               ch_content := chapter_content;
               ch_order := order |}
  else None.

(** *** [_extract_fb2_chapters] *)

(** The two-tier search for the sections of [body]. *)
Definition candidate_sections (namespace : prefix_map) (body : Element)
  : list Element :=
  let sections :=
    findall body (if_ns namespace (lit "./fb:section") (lit "./section"))
      namespace in
  match sections with
  | [] =>
      findall body (if_ns namespace (lit ".//fb:section") (lit ".//section"))
        namespace
  | _ :: _ => sections
  end.

(** The loop [for idx, section in enumerate(sections, idx)]. *)
Fixpoint process_sections (namespace : prefix_map) (idx : nat)
    (sections : list Element) : list chapter_data :=
  match sections with
  | [] => []
  | section :: rest =>
      match _process_fb2_section section namespace idx with
      | Some chapter => chapter :: process_sections namespace (S idx) rest
      | None => process_sections namespace (S idx) rest
      end
  end.

Definition _extract_fb2_chapters (root : Element) (namespace : prefix_map)
  : list chapter_data :=
  match
    find root (if_ns namespace (lit ".//fb:body") (lit ".//body")) namespace
  with
  | None => []
  | Some body => process_sections namespace 1 (candidate_sections namespace body)
  end.

(** *** [_parse_fb2_content] *)

(** The namespace the root tag carries: [root.tag[1 : root.tag.find("}")]]
    when the tag starts with a brace.  Where [find] answers [-1] the slice
    is [root.tag[1:-1]]. *)
Definition root_namespace (root : Element) : prefix_map :=
  if Py.startswith (tag root) (lit "{") then
    Some
      match Py.find_char 125%N (tag root) with
      | Some k => Py.slice (tag root) 1 k
      | None => Py.slice (tag root) 1 (length (tag root) - 1)
      end
  else None.

(** The two [except] clauses. *)
Definition reraise (e : exn) : exn :=
  match e with
  | ParseError m => ValueError (MSG_XML ++ m)
  | _ => ValueError (MSG_PARSING ++ exn_str e)
  end.

(** Everything the [try] block does once the tree is built. *)
Definition parse_tree (root : Element) : result book_data :=
  let namespace := root_namespace root in
  _ <- _validate_fb2_structure root namespace ;;
  book_data <- _extract_fb2_metadata root namespace ;;
  ret {| title := title book_data;
         description := description book_data;
         additional := additional book_data;
         chapters := Some (_extract_fb2_chapters root namespace) |}.

Section Parser.

(** [ET.fromstring]: the XML parser, from bytes to a tree or an
    exception. *)
Variable fromstring : list Byte.byte -> result Element.

Definition _parse_fb2_content (file_content : list Byte.byte)
  : result book_data :=
  try_except (root <- fromstring file_content ;; parse_tree root) reraise.

End Parser.

(* ================================================================== *)
(** ** Notions used by the statements *)
(* ================================================================== *)

(** A string made of whitespace only (the empty string included). *)
Definition all_space (s : str) : bool := forallb Py.isspace s.

(** The tag of an element named [local] in the namespace of the
    document (its Clark name). *)
Definition qname (namespace : prefix_map) (local : str) : str :=
  match namespace with
  | Some uri => lit "{" ++ uri ++ lit "}" ++ local
  | None => local
  end.

(** An element named [local], as the specification speaks of "a
    title-info element" or "a p child" of a document: without a
    namespace its tag is the name; in a namespace its tag is the Clark
    name.  Two degenerate URIs are read as the lookups of the module read
    them: the URI ["*"] stands for any namespace, so that the element may
    carry the name in whichever namespace, or in none; the empty URI is no
    namespace. *)
Definition named (namespace : prefix_map) (local : str) (e : Element) : bool :=
  match namespace with
  | None => Py.eqb (tag e) local
  | Some uri =>
      if Py.eqb uri (lit "*")
      then Py.eqb (tag e) local || Py.endswith (tag e) (lit "}" ++ local)
      else if Py.truthy uri then Py.eqb (tag e) (qname namespace local)
      else Py.eqb (tag e) local
  end.

(** A name without brace or star, as all the element names of the module
    are. *)
Definition plain (local : str) : bool :=
  forallb (fun c => negb ((c =? 123) || (c =? 125) || (c =? 42))%N) local.

(** A dictionary whose URI holds no closing brace. *)
Definition brace_free (namespace : prefix_map) : Prop :=
  match namespace with
  | Some uri => ~ In 125%N uri
  | None => True
  end.

(** The content of a section in the words of the specification: the full
    text of its direct paragraph children, the [p] elements, joined by a
    blank line, then trimmed. *)
Definition spec_content (namespace : prefix_map) (section : Element) : str :=
  Py.strip
    (Py.join (NL ++ NL)
       (map full_text
          (filter (named namespace (lit "p")) (children section)))).

(** Document order on positions: an element comes before everything below
    it, and a child before its later siblings. *)
Fixpoint doc_ltb (p q : path) : bool :=
  match p, q with
  | [], [] => false
  | [], _ :: _ => true
  | _ :: _, [] => false
  | i :: p', j :: q' => (i <? j) || ((i =? j) && doc_ltb p' q')
  end.

Definition doc_lt (p q : path) : Prop := doc_ltb p q = true.

Definition pos_lt (a b : path * Element) : Prop := doc_lt (fst a) (fst b).

(** [q] is the position [p] or a position below it. *)
Definition within (p q : path) : Prop := exists r, q = p ++ r.

(** [q] is a position strictly below [p]. *)
Definition below (p q : path) : Prop := exists i r, q = p ++ i :: r.

(** The two-tier search of [_extract_fb2_chapters] with the position of
    every section it returns, relative to [body]. *)
Definition candidate_sections_at (namespace : prefix_map) (body : Element)
  : list (path * Element) :=
  let sections :=
    findall_at body (if_ns namespace (lit "./fb:section") (lit "./section"))
      namespace in
  match sections with
  | [] =>
      findall_at body
        (if_ns namespace (lit ".//fb:section") (lit ".//section")) namespace
  | _ :: _ => sections
  end.

(** The sections [_extract_fb2_chapters] loops over. *)
Definition candidates (namespace : prefix_map) (root : Element)
  : list Element :=
  match
    find root (if_ns namespace (lit ".//fb:body") (lit ".//body")) namespace
  with
  | None => []
  | Some body => candidate_sections namespace body
  end.

(** The same sections with their positions in the document. *)
Definition candidates_at (namespace : prefix_map) (root : Element)
  : list (path * Element) :=
  match
    find_at root (if_ns namespace (lit ".//fb:body") (lit ".//body"))
      namespace
  with
  | None => []
  | Some (pb, body) =>
      map (fun rs => (pb ++ fst rs, snd rs))
        (candidate_sections_at namespace body)
  end.

(** The first [title-info] and the first [body] below the root, as the
    validator and both extractors look them up. *)
Definition title_info_of (namespace : prefix_map) (root : Element)
  : option Element :=
  find root (if_ns namespace (lit ".//fb:title-info") (lit ".//title-info"))
    namespace.

Definition body_of (namespace : prefix_map) (root : Element)
  : option Element :=
  find root (if_ns namespace (lit ".//fb:body") (lit ".//body")) namespace.

(** No element below the root is named [local]. *)
Definition lacks (namespace : prefix_map) (root : Element) (local : str)
  : Prop :=
  forall p x,
    p <> [] -> subtree root p = Some x -> named namespace local x = false.

(** [e.find(local, namespace)] for a child name, the prefix added when
    the dictionary is not empty: the first child the tag test selects. *)
Definition first_child (namespace : prefix_map) (e : Element) (local : str)
  : option Element :=
  hd_error (filter (has_tag (qname namespace local)) (children e)).

(** [found] is the first child of [e] named [local]. *)
Definition first_named (namespace : prefix_map) (e : Element) (local : str)
    (found : Element) : Prop :=
  exists before after,
    children e = before ++ found :: after
    /\ Forall (fun x => named namespace local x = false) before
    /\ named namespace local found = true.

(** No child of [e] is named [local]. *)
Definition no_child_named (namespace : prefix_map) (e : Element)
    (local : str) : Prop :=
  Forall (fun x => named namespace local x = false) (children e).

(** The genres in the words of the specification: the trimmed text of
    every [genre] element anywhere below [title-info], joined by spaces. *)
Definition spec_genres (namespace : prefix_map) (title_info : Element) : str :=
  Py.join (lit " ")
    (stripped_texts
       (filter (named namespace (lit "genre"))
          (flat_map iter (children title_info)))).

(* ================================================================== *)
(** ** Sample documents *)
(* ================================================================== *)

Definition node (t : str) (cs : list Element) : Element :=
  mkElement t None None cs.

Definition leaf (t x : str) : Element := mkElement t (Some x) None [].

(** A parser that answers one given tree: [ET.fromstring] on the bytes
    of that document. *)
Definition parser_of (root : Element) : list Byte.byte -> result Element :=
  fun _ => inr root.

Definition FB2_NS : str := lit "http://www.gribuser.ru/xml/fictionbook/2.0".

Definition fb (local : str) : str := qname (Some FB2_NS) local.

(** A namespaced book: one section with a title and one paragraph. *)
Definition sample_book : Element :=
  node (fb (lit "FictionBook"))
    [ node (fb (lit "description"))
        [ node (fb (lit "title-info"))
            [ leaf (fb (lit "genre")) (lit "sf");
              leaf (fb (lit "genre")) (lit " sf ");
              leaf (fb (lit "book-title")) (lit " Sample ");
              leaf (fb (lit "lang")) (lit "en ") ] ];
      node (fb (lit "body"))
        [ node (fb (lit "section"))
            [ node (fb (lit "title")) [ leaf (fb (lit "p")) (lit "Intro") ];
              leaf (fb (lit "p")) (lit "Hello world.") ] ] ].

(** A book without namespace and without [lang]; its first section holds
    a blank paragraph only. *)
Definition gap_book : Element :=
  node (lit "FictionBook")
    [ node (lit "description")
        [ node (lit "title-info") [ leaf (lit "book-title") (lit "Sample") ] ];
      node (lit "body")
        [ node (lit "section") [ leaf (lit "p") (lit "  ") ];
          node (lit "section") [ leaf (lit "p") (lit "Hello") ] ] ].

(** A section whose title holds two blank paragraphs. *)
Definition blank_title_section : Element :=
  node (lit "section")
    [ node (lit "title") [ leaf (lit "p") (lit " "); leaf (lit "p") (lit " ") ];
      leaf (lit "p") (lit "Hello") ].

Definition blank_title_book : Element :=
  node (lit "FictionBook")
    [ node (lit "description")
        [ node (lit "title-info") [ leaf (lit "book-title") (lit "Sample") ] ];
      node (lit "body") [ blank_title_section ] ].

(** A book whose [book-title] holds spaces only. *)
Definition blank_book_title : Element :=
  node (lit "FictionBook")
    [ node (lit "description")
        [ node (lit "title-info") [ leaf (lit "book-title") (lit "  ") ] ];
      node (lit "body") [ node (lit "section") [ leaf (lit "p") (lit "Hello") ] ] ].

(** A [genre] one level below a child of [title-info]. *)
Definition nested_genre_title_info : Element :=
  node (lit "title-info")
    [ leaf (lit "genre") (lit "sf");
      node (lit "sequence") [ leaf (lit "genre") (lit "deep") ] ].

Definition nested_genre_book : Element :=
  node (lit "FictionBook")
    [ node (lit "description") [ nested_genre_title_info ];
      node (lit "body") [ node (lit "section") [ leaf (lit "p") (lit "Hello") ] ] ].

(** A second [body] inside the first one, which has no child section. *)
Definition nested_body_book : Element :=
  node (lit "FictionBook")
    [ node (lit "description") [ node (lit "title-info") [] ];
      node (lit "body")
        [ node (lit "body")
            [ node (lit "section") [ leaf (lit "p") (lit "Notes") ] ] ] ].

(** Two bodies side by side, the second one for the notes. *)
Definition two_body_book : Element :=
  node (lit "FictionBook")
    [ node (lit "description") [ node (lit "title-info") [] ];
      node (lit "body") [ node (lit "section") [ leaf (lit "p") (lit "Text") ] ];
      node (lit "body") [ node (lit "section") [ leaf (lit "p") (lit "Notes") ] ] ].

(** No [title-info]; no [body]. *)
Definition no_title_info_book : Element :=
  node (lit "FictionBook")
    [ node (lit "body") [ node (lit "section") [ leaf (lit "p") (lit "Hello") ] ] ].

Definition no_body_book : Element :=
  node (lit "FictionBook")
    [ node (lit "description") [ node (lit "title-info") [] ] ].

(** A body whose sections sit two levels down. *)
Definition deep_body : Element :=
  node (lit "body")
    [ node (lit "part")
        [ node (lit "section") [ leaf (lit "p") (lit "One") ];
          node (lit "section") [ leaf (lit "p") (lit "Two") ] ] ].

Definition deep_book : Element :=
  node (lit "FictionBook")
    [ node (lit "description") [ node (lit "title-info") [] ]; deep_body ].

(** An annotation with three paragraphs, and one with bare text. *)
Definition annotated_book (annotation : Element) : Element :=
  node (lit "FictionBook")
    [ node (lit "description")
        [ node (lit "title-info")
            [ leaf (lit "book-title") (lit "Sample"); annotation ] ];
      node (lit "body") [ node (lit "section") [ leaf (lit "p") (lit "Hello") ] ] ].

Definition annotation_paragraphs : Element :=
  node (lit "annotation")
    [ leaf (lit "p") (lit "A"); leaf (lit "p") (lit "B");
      leaf (lit "p") (lit "C") ].

Definition annotation_bare : Element :=
  leaf (lit "annotation") (lit "Summary text").

(** A section whose only child is a [sup] element. *)
Definition sup_section : Element :=
  node (lit "section") [ leaf (lit "sup") (lit "x") ].

Definition sup_book : Element :=
  node (lit "FictionBook")
    [ node (lit "description")
        [ node (lit "title-info") [ leaf (lit "book-title") (lit "Sample") ] ];
      node (lit "body") [ sup_section ] ].

(** A [title-info] with an empty [lang] before one that holds a text. *)
Definition two_lang_title_info : Element :=
  node (lit "title-info")
    [ leaf (lit "book-title") (lit "Sample");
      node (lit "lang") [];
      leaf (lit "lang") (lit "en") ].

Definition two_lang_book : Element :=
  node (lit "FictionBook")
    [ node (lit "description") [ two_lang_title_info ];
      node (lit "body") [ node (lit "section") [ leaf (lit "p") (lit "Hello") ] ] ].

(** A book whose root declares the namespace [*]: the title-info stands
    in another namespace, the body in none. *)
Definition star_book : Element :=
  node (lit "{*}FictionBook")
    [ node (lit "{*}description")
        [ node (lit "{urn:x}title-info")
            [ leaf (lit "book-title") (lit "Sample");
              leaf (lit "{urn:y}lang") (lit "de") ] ];
      node (lit "body")
        [ node (lit "{urn:z}section") [ leaf (lit "p") (lit "Hello") ] ] ].

(* ================================================================== *)
(** ** Further notions *)
(* ================================================================== *)

(** The string is not empty and its first character is not whitespace. *)
Definition starts_clean (s : str) : Prop :=
  match s with
  | [] => False
  | c :: _ => Py.isspace c = false
  end.

(** The string is not empty and neither its first nor its last character
    is whitespace. *)
Definition clean_edges (s : str) : Prop :=
  starts_clean s /\ starts_clean (rev s).

(** [s] is [t] trimmed: [t] without the whitespace at its two ends, and
    no more of it could be taken away. *)
Definition trimmed_of (t s : str) : Prop :=
  exists before after,
    t = before ++ s ++ after
    /\ all_space before = true
    /\ all_space after = true
    /\ (s = [] \/ clean_edges s).

(** The same document with every element put in the namespace [uri]. *)
Fixpoint qualify (uri : str) (e : Element) : Element :=
  match e with
  | mkElement t x tl cs =>
      mkElement (qname (Some uri) t) x tl (map (qualify uri) cs)
  end.

(* ================================================================== *)
(** ** [BookViewSet.upload_fb2] *)
(* ================================================================== *)

(** Russian for "File not found". *)
Definition MSG_NO_FILE : str :=
  [1060; 1072; 1081; 1083; 32; 1085; 1077; 32; 1085; 1072; 1081; 1076;
   1077; 1085]%N.

(** Russian for "Only the FB2 format is supported". *)
Definition MSG_ONLY_FB2 : str :=
  [1055; 1086; 1076; 1076; 1077; 1088; 1078; 1080; 1074; 1072; 1077; 1090;
   1089; 1103; 32; 1090; 1086; 1083; 1100; 1082; 1086; 32; 1092; 1086;
   1088; 1084; 1072; 1090; 32; 70; 66; 50]%N.

(** Russian for "File format error: ". *)
Definition MSG_FORMAT : str :=
  [1054; 1096; 1080; 1073; 1082; 1072; 32; 1092; 1086; 1088; 1084; 1072;
   1090; 1072; 32; 1092; 1072; 1081; 1083; 1072; 58; 32]%N.

(** Russian for "Error while processing the file: ". *)
Definition MSG_PROCESSING : str :=
  [1054; 1096; 1080; 1073; 1082; 1072; 32; 1087; 1088; 1080; 32; 1086;
   1073; 1088; 1072; 1073; 1086; 1090; 1082; 1077; 32; 1092; 1072; 1081;
   1083; 1072; 58; 32]%N.

(** Russian for "FB2 file parsing error: ", for the log. *)
Definition LOG_PARSING : str :=
  [1054; 1096; 1080; 1073; 1082; 1072; 32; 1087; 1072; 1088; 1089; 1080;
   1085; 1075; 1072; 32; 70; 66; 50; 32; 1092; 1072; 1081; 1083; 1072; 58;
   32]%N.

(** Russian for "Error while uploading the FB2 file: ", for the log. *)
Definition LOG_UPLOAD : str :=
  [1054; 1096; 1080; 1073; 1082; 1072; 32; 1087; 1088; 1080; 32; 1079;
   1072; 1075; 1088; 1091; 1079; 1082; 1077; 32; 70; 66; 50; 32; 1092;
   1072; 1081; 1083; 1072; 58; 32]%N.

(** An entry of [request.FILES]: its name and what [read()] returns or
    raises. *)
Record uploaded_file := mkUpload {
  upload_name : str;
  upload_read : result (list Byte.byte)
}.

(** What a view hands back: the status code, the ["error"] text of the
    body if it has one, and the lines written with [logger.error]. *)
Record response := mkResponse {
  status : nat;
  error : option str;
  logged : list str
}.

(** The two [except] clauses of the view: a [ValueError] is answered
    with 400, any other exception with 500. *)
Definition answer_exception (e : exn) : response :=
  match e with
  | ValueError m =>
      {| status := 400;
         error := Some (MSG_FORMAT ++ m);
         logged := [LOG_PARSING ++ m] |}
  | _ =>
      {| status := 500;
         error := Some (MSG_PROCESSING ++ exn_str e);
         logged := [LOG_UPLOAD ++ exn_str e] |}
  end.

Definition is_value_error (e : exn) : bool :=
  match e with ValueError _ => true | _ => false end.

Section Upload.

Variable fromstring : list Byte.byte -> result Element.

(** [str.lower] *)
Variable lower : str -> str.

(** The database. *)
Variable DB : Type.

(** The rest of the [try] block once the file is parsed, from
    [Book.objects.create] to the response, with both [except] clauses
    applied to what it raises. *)
Variable store :
  uploaded_file -> list Byte.byte -> book_data -> DB -> response * DB.

(** [files] is what reading [request.FILES] gives inside the [try]
    block: the entry ["file"], or [None] without one, or the exception
    the request parser raises on a body it cannot read. *)
Definition upload_fb2 (files : result (option uploaded_file)) (db : DB)
  : response * DB :=
  match files with
  | inl e => (answer_exception e, db)
  | inr None =>
      ({| status := 400; error := Some MSG_NO_FILE; logged := [] |}, db)
  | inr (Some uploaded_file) =>
      if negb (Py.endswith (lower (upload_name uploaded_file)) (lit ".fb2"))
      then
        ({| status := 400; error := Some MSG_ONLY_FB2; logged := [] |}, db)
      else
        match upload_read uploaded_file with
        | inl e => (answer_exception e, db)
        | inr file_content =>
            match _parse_fb2_content fromstring file_content with
            | inr book_data => store uploaded_file file_content book_data db
            | inl e => (answer_exception e, db)
            end
        end
  end.

End Upload.
Arguments upload_fb2 fromstring lower {DB} store files db.

(** A storing part that counts the books it is given, for the examples. *)
Definition count_stored (uploaded : uploaded_file)
    (file_content : list Byte.byte) (bd : book_data) (db : nat)
  : response * nat :=
  ({| status := 201; error := None; logged := [] |}, S db).

(** [sample_book] without its namespace. *)
Definition bare_sample_book : Element :=
  node (lit "FictionBook")
    [ node (lit "description")
        [ node (lit "title-info")
            [ leaf (lit "genre") (lit "sf");
              leaf (lit "genre") (lit " sf ");
              leaf (lit "book-title") (lit " Sample ");
              leaf (lit "lang") (lit "en ") ] ];
      node (lit "body")
        [ node (lit "section")
            [ node (lit "title") [ leaf (lit "p") (lit "Intro") ];
              leaf (lit "p") (lit "Hello world.") ] ] ].

(** The element has a name part: its first child named [first-name],
    [middle-name] or [last-name] has a text that is not all whitespace. *)
Definition has_name_part (namespace : prefix_map) (author : Element) : Prop :=
  exists local found t,
    In local [lit "first-name"; lit "middle-name"; lit "last-name"]
    /\ first_named namespace author local found
    /\ text found = Some t
    /\ all_space t = false.

(** A book with two authors, the second one without any name. *)
Definition authors_book : Element :=
  node (lit "FictionBook")
    [ node (lit "description")
        [ node (lit "title-info")
            [ node (lit "author")
                [ leaf (lit "last-name") (lit " Tolstoy ");
                  leaf (lit "first-name") (lit "Leo") ];
              node (lit "author") [ leaf (lit "nickname") (lit "anon") ] ] ];
      node (lit "body") [ node (lit "section") [ leaf (lit "p") (lit "Hello") ] ] ].

(** A section whose only child is a [stamp] element. *)
Definition stamp_section : Element :=
  node (lit "section") [ leaf (lit "stamp") (lit "Received") ].

(** A book with two sections and no titles. *)
Definition two_section_book : Element :=
  node (lit "FictionBook")
    [ node (lit "description") [ node (lit "title-info") [] ];
      node (lit "body")
        [ node (lit "section") [ leaf (lit "p") (lit "One") ];
          node (lit "section") [ leaf (lit "p") (lit "Two") ] ] ].

Definition chapter_one : chapter_data :=
  {| ch_title := CHAPTER_PREFIX ++ lit "1";
     ch_content := lit "One";
     ch_order := 1 |}.

Definition chapter_two : chapter_data :=
  {| ch_title := CHAPTER_PREFIX ++ lit "2";
     ch_content := lit "Two";
     ch_order := 2 |}.

(* ================================================================== *)
(** ** [FlashCard.update_review_data] and
       [FlashCardViewSet.submit_answer] *)
(* ================================================================== *)

Module FlashCard.

(** [STATUS_CHOICES] *)
Inductive status_choice :=
  | STATUS_TO_LEARN
  | STATUS_KNOWN
  | STATUS_LEARNED.

Section Review.

(** Python's [float] and Django's aware [datetime]; their arithmetic is
    kept abstract. *)
Variables (float time : Type).

(** [int(interval * ease_factor)]; [int] raises on a product that is
    not finite. *)
Variable scaled : Z -> float -> result Z.

(** [max(1.3, ease_factor
         + (0.1 - (5 - quality) * (0.08 + (5 - quality) * 0.02)))] *)
Variable eased : float -> Z -> float.

(** [ease_factor > 2.0] *)
Variable above_two : float -> bool.

(** [now + timedelta(days=interval)], which raises out of range. *)
Variable after_days : time -> Z -> result time.

(** The fields of a card the review reads and writes. *)
Record card := mkCard {
  status : status_choice;
  ease_factor : float;
  interval : Z;
  repetitions : Z;
  next_review : time;
  last_reviewed : option time
}.

(** [self.save()] *)
Variable save : card -> result unit.

(** [now1] and [now2] are what the two calls of [timezone.now()]
    return. *)
Definition update_review_data (now1 now2 : time) (self : card) (quality : Z)
  : result card :=
  if (quality <? 3)%Z then
    next <- after_days now2 1 ;;
    let self' :=
      {| status := STATUS_TO_LEARN;
         ease_factor := ease_factor self;
         interval := 1;
         repetitions := 0;
         next_review := next;
         last_reviewed := Some now1 |} in
    _ <- save self' ;;
    ret self'
  else
    let repetitions' := (repetitions self + 1)%Z in
    interval' <-
      (if (repetitions' =? 1)%Z then ret 1%Z
       else if (repetitions' =? 2)%Z then ret 6%Z
       else scaled (interval self) (ease_factor self)) ;;
    let ease_factor' := eased (ease_factor self) quality in
    let status' :=
      if (5 <=? repetitions')%Z && above_two ease_factor'
      then STATUS_LEARNED
      else if (2 <=? repetitions')%Z then STATUS_KNOWN
      else status self in
    next <- after_days now2 interval' ;;
    let self' :=
      {| status := status';
         ease_factor := ease_factor';
         interval := interval';
         repetitions := repetitions';
         next_review := next;
         last_reviewed := Some now1 |} in
    _ <- save self' ;;
    ret self'.

(** The view, once [quality] has been read with [int(...)]: the status
    code of the response and the card as stored. *)
Definition submit_answer (now1 now2 : time) (card0 : card) (quality : Z)
  : result (nat * card) :=
  if (quality =? 0)%Z || negb (existsb (Z.eqb quality) [1; 2; 3; 4]%Z)
  then ret (400, card0)
  else
    card1 <- update_review_data now1 now2 card0 quality ;;
    ret (200, card1).

(** One answer after the other, each with its two clock readings. *)
Fixpoint submit_all (answers : list (time * time * Z)) (card0 : card)
  : result card :=
  match answers with
  | [] => ret card0
  | (now1, now2, quality) :: rest =>
      r <- submit_answer now1 now2 card0 quality ;;
      submit_all rest (snd r)
  end.

(** What the counters of a stored card say about its status. *)
Definition counted (c : card) : Prop :=
  (0 <= repetitions c)%Z
  /\ (status c = STATUS_LEARNED -> 5 <= repetitions c)%Z
  /\ (status c = STATUS_KNOWN -> 2 <= repetitions c)%Z.

(** The answers [submit_answer] lets through, and those among them
    rated good or easy. *)
Definition accepted (a : time * time * Z) : bool :=
  (1 <=? snd a)%Z && (snd a <=? 4)%Z.

Definition good (a : time * time * Z) : bool := (3 <=? snd a)%Z.

(** The longest prefix whose elements all pass the test. *)
Fixpoint leading {A : Type} (f : A -> bool) (l : list A) : list A :=
  match l with
  | [] => []
  | x :: rest => if f x then x :: leading f rest else []
  end.

(** The good answers at the end of the list, after the last one that
    was not. *)
Definition streak (answers : list (time * time * Z)) : Z :=
  Z.of_nat (length (leading good (rev (filter accepted answers)))).

End Review.

Arguments mkCard {float time}.
Arguments status {float time} c.
Arguments ease_factor {float time} c.
Arguments interval {float time} c.
Arguments repetitions {float time} c.
Arguments next_review {float time} c.
Arguments last_reviewed {float time} c.
Arguments counted {float time} c.
Arguments accepted {time} a.
Arguments good {time} a.
Arguments streak {time} answers.

End FlashCard.

(** A card as the model's defaults create it, with the float and clock
    operations replaced by stand-ins for the examples: the ease factor is
    left out, time is counted in days. *)
Definition fresh_card : FlashCard.card unit Z :=
  FlashCard.mkCard FlashCard.STATUS_TO_LEARN tt 1%Z 0%Z 0%Z None.

Definition review (answers : list (Z * Z * Z)) (c : FlashCard.card unit Z)
  : result (FlashCard.card unit Z) :=
  FlashCard.submit_all unit Z
    (fun i _ => inr (2 * i)%Z) (fun f _ => f) (fun _ => true)
    (fun t d => inr (t + d)%Z) (fun _ => inr tt) answers c.

(** Good, easy, again, then 7 (rejected), good. *)
Definition sample_answers : list (Z * Z * Z) :=
  [(0, 0, 3); (1, 1, 4); (2, 2, 1); (3, 3, 7); (4, 4, 3)]%Z.


(** The section has a direct child whose tag ends with the letter p and
    whose full text is not all whitespace. *)
Definition has_content (section : Element) : bool :=
  existsb
    (fun c => Py.endswith (tag c) (lit "p") && negb (all_space (full_text c)))
    (children section).

(** Every direct child of the section whose tag ends with the letter p
    is a [p] element. *)
Definition regular (namespace : prefix_map) (section : Element) : Prop :=
  forall c,
    In c (children section) ->
    Py.endswith (tag c) (lit "p") = true -> named namespace (lit "p") c = true.
(* ================================================================== *)
(** ** Facts about strings *)
(* ================================================================== *)

Lemma char_eqb_eq (a b : Py.char) : Py.char_eqb a b = true <-> a = b.
Proof. unfold Py.char_eqb. apply N.eqb_eq. Qed.

Lemma eqb_eq (s t : str) : Py.eqb s t = true <-> s = t.
Proof.
  revert t. induction s as [|a s IH]; intros [|b t]; simpl;
    try (split; [discriminate | discriminate]); try tauto.
  rewrite andb_true_iff, char_eqb_eq, IH.
  split; [intros [-> ->]; reflexivity | intros H; inversion H; auto].
Qed.

Lemma eqb_refl (s : str) : Py.eqb s s = true.
Proof. apply eqb_eq. reflexivity. Qed.

Lemma truthy_true_iff (s : str) : Py.truthy s = true <-> s <> [].
Proof. destruct s; simpl; split; congruence. Qed.

Lemma truthy_false_iff (s : str) : Py.truthy s = false <-> s = [].
Proof. destruct s; simpl; split; congruence. Qed.

Lemma all_space_app (s t : str) :
  all_space (s ++ t) = all_space s && all_space t.
Proof. apply forallb_app. Qed.

Lemma all_space_rev (s : str) : all_space (rev s) = all_space s.
Proof.
  induction s as [|c s IH]; simpl; [reflexivity|].
  rewrite all_space_app, IH. simpl. rewrite andb_true_r. apply andb_comm.
Qed.

Lemma lstrip_shape (s : str) :
  Py.lstrip s = [] \/
  exists c r, Py.lstrip s = c :: r /\ Py.isspace c = false.
Proof.
  induction s as [|c s IH]; simpl; [left; reflexivity|].
  destruct (Py.isspace c) eqn:E; [exact IH|].
  right. exists c, s. auto.
Qed.

Lemma lstrip_nil_iff (s : str) : Py.lstrip s = [] <-> all_space s = true.
Proof.
  induction s as [|c s IH]; simpl; [tauto|].
  destruct (Py.isspace c); simpl; [exact IH|].
  split; discriminate.
Qed.

Lemma lstrip_all_space (s : str) :
  all_space (Py.lstrip s) = true -> Py.lstrip s = [].
Proof.
  intros H. destruct (lstrip_shape s) as [E | (c & r & E & Hc)]; [exact E|].
  rewrite E in H. simpl in H. rewrite Hc in H. discriminate.
Qed.

Lemma rstrip_nil_iff (s : str) : Py.rstrip s = [] <-> all_space s = true.
Proof.
  unfold Py.rstrip. rewrite <- (all_space_rev s), <- lstrip_nil_iff.
  split; intros H.
  - apply (f_equal (@rev Py.char)) in H. rewrite rev_involutive in H.
    exact H.
  - rewrite H. reflexivity.
Qed.

(** [s.strip()] is empty exactly when [s] holds whitespace only. *)
Lemma strip_nil_iff (s : str) : Py.strip s = [] <-> all_space s = true.
Proof.
  unfold Py.strip. split; intros H.
  - apply rstrip_nil_iff.
    apply lstrip_nil_iff in H.
    unfold Py.rstrip in *. rewrite all_space_rev in H.
    apply lstrip_all_space in H. rewrite H. reflexivity.
  - apply rstrip_nil_iff in H. rewrite H. reflexivity.
Qed.

Lemma all_space_join (sep : str) (parts : list str) :
  all_space sep = true ->
  all_space (Py.join sep parts) = forallb all_space parts.
Proof.
  intros Hsep. induction parts as [|p rest IH]; [reflexivity|].
  destruct rest as [|q rest].
  - simpl. rewrite andb_true_r. reflexivity.
  - change (Py.join sep (p :: q :: rest))
      with (p ++ sep ++ Py.join sep (q :: rest)).
    rewrite !all_space_app, Hsep, IH. reflexivity.
Qed.

Lemma strip_not_all_space (s : str) :
  Py.strip s <> [] -> all_space (Py.strip s) = false.
Proof.
  unfold Py.strip. intros H.
  destruct (lstrip_shape (Py.rstrip s)) as [E | (c & r & E & Hc)];
    [contradiction|].
  rewrite E. simpl. rewrite Hc. reflexivity.
Qed.

(** Dropping the blank pieces and trimming the others does not change
    whether anything but whitespace is left. *)
Lemma all_space_kept_pieces (texts : list str) :
  forallb all_space (filter Py.truthy (map Py.strip texts))
  = forallb all_space texts.
Proof.
  induction texts as [|t rest IH]; [reflexivity|].
  simpl. destruct (Py.truthy (Py.strip t)) eqn:E.
  - apply truthy_true_iff in E. simpl.
    rewrite (strip_not_all_space t E).
    destruct (all_space t) eqn:Et; [|reflexivity].
    apply strip_nil_iff in Et. contradiction.
  - apply truthy_false_iff in E. apply strip_nil_iff in E.
    rewrite E, IH. reflexivity.
Qed.

Lemma process_some_iff (section : Element) (namespace : prefix_map)
    (order : nat) :
  (exists ch, _process_fb2_section section namespace order = Some ch)
  <-> Py.strip (section_content namespace section) <> [].
Proof.
  unfold _process_fb2_section. rewrite <- truthy_true_iff.
  destruct (Py.truthy (Py.strip (section_content namespace section)));
    split; intros H; try discriminate; eauto.
  destruct H as [ch H]. discriminate.
Qed.

(** The content is blank exactly when every child the loop keeps has a
    blank text. *)
Lemma section_content_blank_iff (namespace : prefix_map) (section : Element) :
  Py.strip (section_content namespace section) = []
  <-> forallb all_space
        (map full_text (filter (is_paragraph namespace) (children section)))
      = true.
Proof.
  unfold section_content.
  rewrite strip_nil_iff, all_space_join by reflexivity.
  rewrite <- (map_map full_text Py.strip), all_space_kept_pieces.
  tauto.
Qed.

(* ================================================================== *)
(** ** Facts about paths *)
(* ================================================================== *)

Lemma plain_in (local : str) (c : Py.char) :
  plain local = true -> In c local ->
  c <> 123%N /\ c <> 125%N /\ c <> 42%N.
Proof.
  unfold plain. rewrite forallb_forall. intros H Hin. specialize (H c Hin).
  rewrite negb_true_iff, !orb_false_iff, !N.eqb_neq in H. tauto.
Qed.

Lemma char_eqb_neq (a b : Py.char) : a <> b -> Py.char_eqb a b = false.
Proof. intros H. apply N.eqb_neq. exact H. Qed.

Ltac path_literals :=
  change (lit "*") with [42%N] in *;
  change (lit "{") with [123%N] in *;
  change (lit "}") with [125%N] in *;
  change (lit "}*") with [125%N; 42%N] in *;
  change (lit "{}") with [123%N; 125%N] in *;
  change (lit "{*}") with [123%N; 42%N; 125%N] in *;
  change (lit "{}*") with [123%N; 125%N; 42%N] in *;
  change (lit "{*}*") with [123%N; 42%N; 125%N; 42%N] in *.

Lemma endswith_star_last (s : str) :
  Py.endswith s (lit "}*") = true -> hd_error (rev s) = Some 42%N.
Proof.
  unfold Py.endswith. path_literals. cbn [rev app].
  destruct (rev s) as [|c r]; [discriminate|].
  cbn [Py.startswith]. intros H. apply andb_true_iff in H.
  destruct H as [H _]. apply char_eqb_eq in H. subst c. reflexivity.
Qed.

Lemma plain_not_endswith_star (local : str) :
  plain local = true -> Py.endswith local (lit "}*") = false.
Proof.
  intros Hp. destruct (Py.endswith local (lit "}*")) eqn:E; [|reflexivity].
  apply endswith_star_last in E.
  assert (Hin : In 42%N (rev local))
    by (destruct (rev local); [discriminate|]; injection E as ->; left;
        reflexivity).
  apply in_rev in Hin. destruct (plain_in _ _ Hp Hin) as (_ & _ & H).
  congruence.
Qed.

Lemma clark_not_endswith_star (uri local : str) :
  plain local = true ->
  Py.endswith (123%N :: uri ++ 125%N :: local) (lit "}*") = false.
Proof.
  intros Hp.
  destruct (Py.endswith (123%N :: uri ++ 125%N :: local) (lit "}*")) eqn:E;
    [|reflexivity].
  apply endswith_star_last in E.
  change (123%N :: uri ++ 125%N :: local)
    with ((123%N :: uri) ++ 125%N :: local) in E.
  rewrite rev_app_distr in E. cbn [rev] in E. rewrite <- app_assoc in E.
  revert E. destruct (@rev N local) as [|c r] eqn:El; simpl; intros E.
  - discriminate.
  - injection E as ->.
    assert (Hin : In 42%N (@rev N local)) by (rewrite El; left; reflexivity).
    apply in_rev in Hin. destruct (plain_in _ _ Hp Hin) as (_ & _ & H).
    congruence.
Qed.

Lemma plain_not_star (local : str) :
  plain local = true -> Py.eqb local [42%N] = false.
Proof.
  intros Hp. destruct local as [|c l]; [reflexivity|].
  destruct (plain_in _ c Hp (or_introl eq_refl)) as (_ & _ & H).
  cbn [Py.eqb]. rewrite (char_eqb_neq c 42%N H). reflexivity.
Qed.

(** On a name without brace or star the tag test is equality. *)
Lemma tag_selects_plain (t el : str) :
  plain t = true -> tag_selects t el = Py.eqb el t.
Proof.
  intros Hp. unfold tag_selects, is_wildcard_tag.
  rewrite (plain_not_endswith_star t Hp). path_literals.
  rewrite (plain_not_star t Hp).
  destruct t as [|a t']; [reflexivity|].
  destruct (plain_in _ a Hp (or_introl eq_refl)) as (H1 & H2 & H3).
  cbn [Py.startswith].
  rewrite (char_eqb_neq a 123%N H1).
  reflexivity.
Qed.

(** On a resolved name the tag test is the one that defines [named]. *)
Lemma tag_selects_clark (uri local el : str) :
  ~ In 125%N uri -> plain local = true ->
  tag_selects (lit "{" ++ uri ++ lit "}" ++ local) el
  = if Py.eqb uri (lit "*")
    then Py.eqb el local || Py.endswith el (lit "}" ++ local)
    else if Py.truthy uri
         then Py.eqb el (lit "{" ++ uri ++ lit "}" ++ local)
         else Py.eqb el local.
Proof.
  intros Hno Hp.
  change (lit "{" ++ uri ++ lit "}" ++ local)
    with (123%N :: uri ++ 125%N :: local).
  change (lit "}" ++ local) with (125%N :: local).
  unfold tag_selects, is_wildcard_tag.
  rewrite (clark_not_endswith_star uri local Hp). path_literals.
  pose proof (plain_not_star local Hp) as Hl.
  destruct uri as [|a [|b u]].
  - reflexivity.
  - assert (Ha : a <> 125%N) by (intros ->; apply Hno; left; reflexivity).
    cbn [Py.eqb Py.startswith app Py.truthy skipn Py.char_eqb N.eqb
         Pos.eqb andb orb].
    fold (Py.char_eqb a 125%N). fold (Py.char_eqb a 42%N).
    rewrite (char_eqb_neq a 125%N Ha).
    destruct (Py.char_eqb a 42%N) eqn:E;
      cbn [andb orb Py.eqb Py.startswith skipn]; [|reflexivity].
    fold (Py.eqb local [42%N]). rewrite Hl. reflexivity.
  - assert (Ha : a <> 125%N) by (intros ->; apply Hno; left; reflexivity).
    assert (Hb : b <> 125%N)
      by (intros ->; apply Hno; right; left; reflexivity).
    cbn [Py.eqb Py.startswith app Py.truthy skipn Py.char_eqb N.eqb
         Pos.eqb andb orb].
    fold (Py.char_eqb a 125%N). fold (Py.char_eqb a 42%N).
    fold (Py.char_eqb b 125%N).
    rewrite (char_eqb_neq a 125%N Ha), (char_eqb_neq b 125%N Hb).
    rewrite !andb_false_r. reflexivity.
Qed.

(** What the lookups of the module select under a name is what the
    statements call an element of that name. *)
Lemma has_tag_named (namespace : prefix_map) (local : str) (e : Element) :
  brace_free namespace -> plain local = true ->
  has_tag (qname namespace local) e = named namespace local e.
Proof.
  intros Hns Hp. unfold has_tag, named. destruct namespace as [uri|].
  - apply tag_selects_clark; assumption.
  - apply tag_selects_plain. exact Hp.
Qed.

Lemma filter_named (namespace : prefix_map) (local : str)
    (l : list Element) :
  brace_free namespace -> plain local = true ->
  filter (has_tag (qname namespace local)) l
  = filter (named namespace local) l.
Proof.
  intros Hns Hp. apply filter_ext. intros e. apply has_tag_named; assumption.
Qed.

Lemma find_char_firstn (c : Py.char) (s : str) (k : nat) :
  Py.find_char c s = Some k -> ~ In c (firstn k s).
Proof.
  revert k. induction s as [|a s IH]; intros k; simpl; [discriminate|].
  destruct (Py.char_eqb a c) eqn:E.
  - intros H. injection H as <-. simpl. tauto.
  - destruct (Py.find_char c s) as [k'|]; [|discriminate].
    intros H. injection H as <-. simpl. intros [H | H].
    + subst a. unfold Py.char_eqb in E. rewrite N.eqb_refl in E.
      discriminate.
    + exact (IH k' eq_refl H).
Qed.

Lemma find_char_none (c : Py.char) (s : str) :
  Py.find_char c s = None -> ~ In c s.
Proof.
  induction s as [|a s IH]; simpl; [tauto|].
  destruct (Py.char_eqb a c) eqn:E; [discriminate|].
  destruct (Py.find_char c s); [discriminate|].
  intros _ [H | H].
  - subst a. unfold Py.char_eqb in E. rewrite N.eqb_refl in E. discriminate.
  - exact (IH eq_refl H).
Qed.

Lemma in_firstn {A : Type} (x : A) (n : nat) (l : list A) :
  In x (firstn n l) -> In x l.
Proof.
  revert n. induction l as [|a l IH]; intros [|n]; simpl; try tauto.
  intros [H | H]; [auto | right; exact (IH n H)].
Qed.

(** The URI [_parse_fb2_content] cuts out of the root tag stops before
    the first closing brace. *)
Lemma root_namespace_brace_free (root : Element) :
  brace_free (root_namespace root).
Proof.
  unfold root_namespace, brace_free.
  destruct (Py.startswith (tag root) (lit "{")); [|exact I].
  destruct (tag root) as [|a s]; unfold Py.slice.
  - simpl. destruct (Py.find_char 125%N []); simpl; tauto.
  - destruct (Py.find_char 125%N (a :: s)) as [k|] eqn:E.
    + pose proof (find_char_firstn _ _ _ E) as H.
      destruct k as [|k]; [simpl; tauto|].
      simpl. rewrite Nat.sub_0_r. simpl in H. tauto.
    + pose proof (find_char_none _ _ E) as H. simpl skipn.
      intros Hin. apply H. right. eapply in_firstn. exact Hin.
Qed.

(** A descendant step, with or without the prefix. *)
Lemma findall_descendant (namespace : prefix_map) (e : Element) (local : str) :
  findall e (if_ns namespace (lit ".//fb:" ++ local) (lit ".//" ++ local))
    namespace
  = filter (has_tag (qname namespace local)) (flat_map iter (children e)).
Proof. destruct namespace; reflexivity. Qed.

Lemma findall_at_descendant (namespace : prefix_map) (e : Element)
    (local : str) :
  findall_at e (if_ns namespace (lit ".//fb:" ++ local) (lit ".//" ++ local))
    namespace
  = filter (fun pe => has_tag (qname namespace local) (snd pe))
      (tl (iter_at e)).
Proof. destruct namespace; reflexivity. Qed.

(** A child step written [./name]; the name does not start with a slash. *)
Lemma findall_child (namespace : prefix_map) (e : Element) (c : Py.char)
    (local : str) :
  c <> 47%N ->
  findall e
    (if_ns namespace (lit "./fb:" ++ c :: local) (lit "./" ++ c :: local))
    namespace
  = filter (has_tag (qname namespace (c :: local))) (children e).
Proof.
  intros Hc. destruct namespace; [reflexivity|].
  unfold findall, if_ns, split_step. simpl.
  destruct (Py.char_eqb c 47%N) eqn:E; [|reflexivity].
  apply char_eqb_eq in E. contradiction.
Qed.

Lemma findall_at_child (namespace : prefix_map) (e : Element) (c : Py.char)
    (local : str) :
  c <> 47%N ->
  findall_at e
    (if_ns namespace (lit "./fb:" ++ c :: local) (lit "./" ++ c :: local))
    namespace
  = filter (fun pe => has_tag (qname namespace (c :: local)) (snd pe))
      (children_at e).
Proof.
  intros Hc. destruct namespace; [reflexivity|].
  unfold findall_at, if_ns, split_step. simpl.
  destruct (Py.char_eqb c 47%N) eqn:E; [|reflexivity].
  apply char_eqb_eq in E. contradiction.
Qed.

(** The child step [find_text] and [find_all_text] build from a bare
    name. *)
Lemma findall_fb_path (namespace : prefix_map) (e : Element) (local : str) :
  In local [lit "book-title"; lit "lang"; lit "genre"; lit "first-name";
            lit "last-name"; lit "middle-name"] ->
  findall e (fb_path namespace local) namespace
  = filter (has_tag (qname namespace local)) (children e).
Proof.
  simpl. intros H.
  repeat (destruct H as [<- | H]; [destruct namespace; reflexivity|]).
  contradiction.
Qed.

(* ================================================================== *)
(** ** Positions and document order *)
(* ================================================================== *)

Lemma in_flat_mapi {A B : Type} (f : nat -> A -> list B) (k : nat)
    (l : list A) (y : B) :
  In y (flat_mapi f k l)
  <-> exists i x, nth_error l i = Some x /\ In y (f (k + i) x).
Proof.
  revert k. induction l as [|a l IH]; intros k; simpl.
  - split; [tauto|]. intros (i & x & H & _). destruct i; discriminate.
  - rewrite in_app_iff, IH. split.
    + intros [H | (i & x & Hn & Hy)].
      * exists 0, a. rewrite Nat.add_0_r. auto.
      * exists (S i), x. rewrite Nat.add_succ_r. auto.
    + intros (i & x & Hn & Hy). destruct i as [|i]; simpl in Hn.
      * injection Hn as ->. rewrite Nat.add_0_r in Hy. auto.
      * right. exists i, x. rewrite Nat.add_succ_r in Hy. auto.
Qed.

Lemma map_snd_filter {A B : Type} (f : B -> bool) (l : list (A * B)) :
  map snd (filter (fun ab => f (snd ab)) l) = filter f (map snd l).
Proof.
  induction l as [|ab l IH]; simpl; [reflexivity|].
  destruct (f (snd ab)); simpl; rewrite IH; reflexivity.
Qed.

Lemma map_snd_tl {A B : Type} (l : list (A * B)) :
  map snd (tl l) = tl (map snd l).
Proof. destruct l; reflexivity. Qed.

Lemma hd_error_map {A B : Type} (f : A -> B) (l : list A) :
  hd_error (map f l) = option_map f (hd_error l).
Proof. destruct l; reflexivity. Qed.

Lemma iter_children (e : Element) : tl (iter e) = flat_map iter (children e).
Proof. destruct e; reflexivity. Qed.

(** Forgetting the positions gives back what the source iterates over. *)
Lemma iter_at_erase (e : Element) : map snd (iter_at e) = iter e.
Proof.
  induction e as [t x tl cs IH] using Element_ind. simpl. f_equal.
  generalize 0 as k. induction IH as [|c cs Hc _ IHcs]; intros k; simpl;
    [reflexivity|].
  rewrite map_app, map_map, IHcs. f_equal.
  rewrite <- Hc. apply map_ext. intros [p y]. reflexivity.
Qed.

Lemma children_at_erase (e : Element) : map snd (children_at e) = children e.
Proof.
  unfold children_at. generalize 0 as k.
  induction (children e) as [|c cs IH]; intros k; simpl; [reflexivity|].
  rewrite IH. reflexivity.
Qed.

Lemma select_at_erase (ax : axis) (e : Element) :
  map snd (select_at ax e) = select ax e.
Proof.
  destruct ax; simpl.
  - apply children_at_erase.
  - rewrite map_snd_tl, iter_at_erase. apply iter_children.
Qed.

Lemma findall_at_erase (e : Element) (p : str) (namespace : prefix_map) :
  map snd (findall_at e p namespace) = findall e p namespace.
Proof.
  unfold findall_at, findall. destruct (split_step p) as [ax name].
  rewrite map_snd_filter, select_at_erase. reflexivity.
Qed.

Lemma find_at_erase (e : Element) (p : str) (namespace : prefix_map) :
  option_map snd (find_at e p namespace) = find e p namespace.
Proof.
  unfold find_at, find. rewrite <- findall_at_erase. symmetry.
  apply hd_error_map.
Qed.

(** [iter_at] lists exactly the nodes of the tree, each at its position. *)
Lemma in_iter_at (e : Element) (p : path) (x : Element) :
  In (p, x) (iter_at e) <-> subtree e p = Some x.
Proof.
  revert p x. induction e as [t tx tl cs IH] using Element_ind.
  intros p x. simpl. rewrite in_flat_mapi. rewrite Forall_forall in IH.
  split.
  - intros [H | (i & c & Hn & Hin)].
    + injection H as <- <-. reflexivity.
    + apply in_map_iff in Hin. destruct Hin as ([p' y] & Heq & Hin).
      injection Heq as <- <-. simpl. rewrite Hn.
      apply IH; [eapply nth_error_In; eassumption | exact Hin].
  - destruct p as [|i p']; simpl.
    + intros H. injection H as <-. left. reflexivity.
    + destruct (nth_error cs i) as [c|] eqn:Hn; [|discriminate].
      intros H. right. exists i, c. split; [exact Hn|].
      apply in_map_iff. exists (p', x). split; [reflexivity|].
      apply IH; [eapply nth_error_In; eassumption | exact H].
Qed.

Lemma in_children_at (e : Element) (p : path) (x : Element) :
  In (p, x) (children_at e)
  <-> exists i, p = [i] /\ nth_error (children e) i = Some x.
Proof.
  unfold children_at. rewrite in_flat_mapi. split.
  - intros (i & c & Hn & [H | []]). injection H as <- <-. eauto.
  - intros (i & -> & Hn). exists i, x. simpl. auto.
Qed.

Lemma in_tl_iter_at (e : Element) (p : path) (x : Element) :
  In (p, x) (tl (iter_at e)) <-> p <> [] /\ subtree e p = Some x.
Proof.
  destruct p as [|i p'].
  - split; [|intros [H _]; congruence].
    destruct e as [t tx tl cs]. simpl. rewrite in_flat_mapi.
    intros (i & c & _ & Hin). apply in_map_iff in Hin.
    destruct Hin as (y & Heq & _). discriminate.
  - rewrite <- in_iter_at. destruct e as [t tx tl cs]. simpl.
    split.
    + intros H. split; [discriminate | auto].
    + intros [_ [H | H]]; [discriminate | exact H].
Qed.

Lemma doc_lt_nil_cons (i : nat) (p : path) : doc_lt [] (i :: p).
Proof. reflexivity. Qed.

Lemma doc_lt_cons (i : nat) (p q : path) :
  doc_lt (i :: p) (i :: q) <-> doc_lt p q.
Proof.
  unfold doc_lt. simpl. rewrite Nat.ltb_irrefl, Nat.eqb_refl. tauto.
Qed.

Lemma doc_lt_head (i j : nat) (p q : path) :
  i < j -> doc_lt (i :: p) (j :: q).
Proof.
  intros H. unfold doc_lt. simpl.
  apply Nat.ltb_lt in H. rewrite H. reflexivity.
Qed.

Lemma doc_lt_irrefl (p : path) : ~ doc_lt p p.
Proof.
  induction p as [|i p IH]; [discriminate|].
  rewrite doc_lt_cons. exact IH.
Qed.

Lemma doc_lt_asym (p q : path) : doc_lt p q -> ~ doc_lt q p.
Proof.
  unfold doc_lt. revert q.
  induction p as [|i p IH]; intros [|j q]; simpl; try discriminate.
  rewrite !orb_true_iff, !andb_true_iff, !Nat.ltb_lt, !Nat.eqb_eq.
  intros [H | [-> H]] [H' | [E H']]; try lia.
  exact (IH q H H').
Qed.

Lemma doc_lt_trans (p q r : path) : doc_lt p q -> doc_lt q r -> doc_lt p r.
Proof.
  unfold doc_lt. revert q r.
  induction p as [|i p IH]; intros [|j q] [|k r]; simpl; try discriminate;
    try reflexivity.
  rewrite !orb_true_iff, !andb_true_iff, !Nat.ltb_lt, !Nat.eqb_eq.
  intros [H | [-> H]] [H' | [E H']]; try (left; lia).
  right. split; [lia | exact (IH q r H H')].
Qed.

(** A position comes before every position strictly below it. *)
Lemma doc_lt_below (p q : path) : below p q -> doc_lt p q.
Proof.
  intros (i & r & ->). induction p as [|j p IH]; simpl.
  - apply doc_lt_nil_cons.
  - apply doc_lt_cons. exact IH.
Qed.

Lemma doc_lt_app (p q r : path) : doc_lt (p ++ q) (p ++ r) <-> doc_lt q r.
Proof.
  induction p as [|i p IH]; simpl; [tauto|].
  rewrite doc_lt_cons. exact IH.
Qed.

Lemma sorted_app {A : Type} (R : A -> A -> Prop) (l1 l2 : list A) :
  StronglySorted R l1 -> StronglySorted R l2 ->
  (forall x y, In x l1 -> In y l2 -> R x y) ->
  StronglySorted R (l1 ++ l2).
Proof.
  intros H1 H2 Hx. induction H1 as [|a l1 Hs IH Ha]; simpl; [exact H2|].
  constructor.
  - apply IH. intros x y Hin. apply Hx. right. exact Hin.
  - apply Forall_app. split; [exact Ha|].
    apply Forall_forall. intros y Hy. apply Hx; [left; reflexivity | exact Hy].
Qed.

Lemma sorted_filter {A : Type} (R : A -> A -> Prop) (f : A -> bool)
    (l : list A) :
  StronglySorted R l -> StronglySorted R (filter f l).
Proof.
  induction 1 as [|a l Hs IH Ha]; simpl; [constructor|].
  destruct (f a); [|exact IH].
  constructor; [exact IH|].
  rewrite Forall_forall in *. intros y Hy.
  apply Ha. apply filter_In in Hy. tauto.
Qed.

Lemma sorted_map {A B : Type} (R : A -> A -> Prop) (S : B -> B -> Prop)
    (g : A -> B) (l : list A) :
  (forall x y, R x y -> S (g x) (g y)) ->
  StronglySorted R l -> StronglySorted S (map g l).
Proof.
  intros Hg. induction 1 as [|a l Hs IH Ha]; simpl; constructor;
    [exact IH|].
  rewrite Forall_forall in *. intros y Hy.
  apply in_map_iff in Hy. destruct Hy as (x & <- & Hx). auto.
Qed.

Lemma sorted_tl {A : Type} (R : A -> A -> Prop) (l : list A) :
  StronglySorted R l -> StronglySorted R (tl l).
Proof.
  destruct l; simpl; [auto|]. intros H. apply StronglySorted_inv in H. tauto.
Qed.

Lemma flat_mapi_sorted (f : nat -> Element -> list (path * Element))
    (k : nat) (l : list Element) :
  (forall i c, In c l -> StronglySorted pos_lt (f i c)) ->
  (forall i c pe, In pe (f i c) -> exists p, fst pe = i :: p) ->
  StronglySorted pos_lt (flat_mapi f k l).
Proof.
  intros Hs Hhd. revert k. induction l as [|c l IH]; intros k; simpl;
    [constructor|].
  apply sorted_app.
  - apply Hs. left. reflexivity.
  - apply IH. intros i d Hd. apply Hs. right. exact Hd.
  - intros x y Hx Hy. apply in_flat_mapi in Hy.
    destruct Hy as (i & d & _ & Hy).
    apply Hhd in Hx. apply Hhd in Hy.
    destruct Hx as (p & Hp), Hy as (q & Hq).
    unfold pos_lt. rewrite Hp, Hq. apply doc_lt_head. lia.
Qed.

(** [Element.iter] goes through the tree in document order. *)
Lemma iter_at_sorted (e : Element) : StronglySorted pos_lt (iter_at e).
Proof.
  induction e as [t tx tl cs IH] using Element_ind. simpl.
  rewrite Forall_forall in IH. constructor.
  - apply flat_mapi_sorted.
    + intros i c Hc. apply sorted_map with (R := pos_lt); [|auto].
      intros x y. unfold pos_lt, under. simpl. apply doc_lt_cons.
    + intros i c pe Hin. apply in_map_iff in Hin.
      destruct Hin as (y & <- & _). simpl. eauto.
  - apply Forall_forall. intros y Hy. apply in_flat_mapi in Hy.
    destruct Hy as (i & c & _ & Hin). apply in_map_iff in Hin.
    destruct Hin as (z & <- & _). apply doc_lt_nil_cons.
Qed.

Lemma children_at_sorted (e : Element) :
  StronglySorted pos_lt (children_at e).
Proof.
  apply flat_mapi_sorted.
  - intros i c _. repeat constructor.
  - intros i c pe [<- | []]. simpl. eauto.
Qed.

Lemma select_at_sorted (ax : axis) (e : Element) :
  StronglySorted pos_lt (select_at ax e).
Proof.
  destruct ax; simpl.
  - apply children_at_sorted.
  - apply sorted_tl, iter_at_sorted.
Qed.

Lemma findall_at_sorted (e : Element) (p : str) (namespace : prefix_map) :
  StronglySorted pos_lt (findall_at e p namespace).
Proof.
  unfold findall_at. destruct (split_step p).
  apply sorted_filter, select_at_sorted.
Qed.

(* ================================================================== *)
(** ** The section search *)
(* ================================================================== *)

Lemma child_sections_at (namespace : prefix_map) (body : Element) :
  findall_at body (if_ns namespace (lit "./fb:section") (lit "./section"))
    namespace
  = filter (fun pe => has_tag (qname namespace (lit "section")) (snd pe))
      (children_at body).
Proof.
  apply (findall_at_child namespace body 115%N (lit "ection")). discriminate.
Qed.

Lemma all_sections_at (namespace : prefix_map) (body : Element) :
  findall_at body (if_ns namespace (lit ".//fb:section") (lit ".//section"))
    namespace
  = filter (fun pe => has_tag (qname namespace (lit "section")) (snd pe))
      (tl (iter_at body)).
Proof. apply (findall_at_descendant namespace body (lit "section")). Qed.

Lemma candidate_sections_at_erase (namespace : prefix_map) (body : Element) :
  map snd (candidate_sections_at namespace body)
  = candidate_sections namespace body.
Proof.
  unfold candidate_sections_at, candidate_sections.
  rewrite <- !findall_at_erase.
  destruct (findall_at body _ namespace); reflexivity.
Qed.

Lemma candidate_sections_at_sorted (namespace : prefix_map) (body : Element) :
  StronglySorted pos_lt (candidate_sections_at namespace body).
Proof.
  unfold candidate_sections_at.
  pose proof (findall_at_sorted body
    (if_ns namespace (lit "./fb:section") (lit "./section")) namespace) as H.
  destruct (findall_at body _ namespace); [apply findall_at_sorted | exact H].
Qed.

Lemma subtree_child (e : Element) (i : nat) :
  subtree e [i] = nth_error (children e) i.
Proof. simpl. destruct (nth_error (children e) i); reflexivity. Qed.

(** With a section among the children of [body], the search returns the
    child sections and nothing else. *)
Lemma candidates_direct (namespace : prefix_map) (body : Element) :
  brace_free namespace ->
  (exists i s, nth_error (children body) i = Some s
               /\ named namespace (lit "section") s = true) ->
  forall p s,
    In (p, s) (candidate_sections_at namespace body)
    <-> (exists i, p = [i]) /\ subtree body p = Some s
        /\ named namespace (lit "section") s = true.
Proof.
  intros Hns (i0 & s0 & Hn0 & Ht0) p s.
  unfold candidate_sections_at. rewrite child_sections_at.
  set (keep := fun pe : path * Element =>
                 has_tag (qname namespace (lit "section")) (snd pe)).
  assert (Hkeep : forall q x, keep (q, x) = named namespace (lit "section") x)
    by (intros q x; apply has_tag_named; [exact Hns | reflexivity]).
  assert (Hin0 : In ([i0], s0) (filter keep (children_at body))).
  { apply filter_In. split.
    - apply in_children_at. eauto.
    - rewrite Hkeep. exact Ht0. }
  destruct (filter keep (children_at body)) as [|d D] eqn:E;
    [destruct Hin0|].
  rewrite <- E. rewrite filter_In, in_children_at, Hkeep. split.
  - intros ((i & -> & Hn) & Ht). rewrite subtree_child. eauto.
  - intros ((i & ->) & Hs & Ht). rewrite subtree_child in Hs. eauto.
Qed.

(** With no section among the children of [body], the search returns
    every section below [body], at any depth. *)
Lemma candidates_fallback (namespace : prefix_map) (body : Element) :
  brace_free namespace ->
  ~ (exists i s, nth_error (children body) i = Some s
                 /\ named namespace (lit "section") s = true) ->
  forall p s,
    In (p, s) (candidate_sections_at namespace body)
    <-> p <> [] /\ subtree body p = Some s
        /\ named namespace (lit "section") s = true.
Proof.
  intros Hns Hno p s.
  unfold candidate_sections_at. rewrite child_sections_at.
  set (keep := fun pe : path * Element =>
                 has_tag (qname namespace (lit "section")) (snd pe)).
  assert (Hkeep : forall q x, keep (q, x) = named namespace (lit "section") x)
    by (intros q x; apply has_tag_named; [exact Hns | reflexivity]).
  destruct (filter keep (children_at body)) as [|[q d] D] eqn:E.
  - rewrite all_sections_at. fold keep.
    rewrite filter_In, in_tl_iter_at, Hkeep. tauto.
  - exfalso. apply Hno.
    assert (Hin : In (q, d) (filter keep (children_at body)))
      by (rewrite E; left; reflexivity).
    apply filter_In in Hin. destruct Hin as [Hin Hk].
    apply in_children_at in Hin. destruct Hin as (i & _ & Hn).
    rewrite Hkeep in Hk. eauto.
Qed.

Lemma candidates_at_erase (namespace : prefix_map) (root : Element) :
  map snd (candidates_at namespace root) = candidates namespace root.
Proof.
  unfold candidates_at, candidates. rewrite <- find_at_erase.
  destruct (find_at root _ namespace) as [[pb body]|]; simpl; [|reflexivity].
  rewrite map_map. simpl. apply candidate_sections_at_erase.
Qed.

Lemma candidates_at_sorted (namespace : prefix_map) (root : Element) :
  StronglySorted pos_lt (candidates_at namespace root).
Proof.
  unfold candidates_at.
  destruct (find_at root _ namespace) as [[pb body]|]; [|constructor].
  apply sorted_map with (R := pos_lt);
    [|apply candidate_sections_at_sorted].
  intros x y. unfold pos_lt. simpl. apply doc_lt_app.
Qed.

Lemma extract_chapters_candidates (root : Element) (namespace : prefix_map) :
  _extract_fb2_chapters root namespace
  = process_sections namespace 1 (candidates namespace root).
Proof.
  unfold _extract_fb2_chapters, candidates.
  destruct (find root _ namespace); reflexivity.
Qed.

(* ================================================================== *)
(** ** The loop over the sections *)
(* ================================================================== *)

Lemma process_section_fields (section : Element) (namespace : prefix_map)
    (order : nat) (ch : chapter_data) :
  _process_fb2_section section namespace order = Some ch ->
  ch_order ch = order /\ ch_content ch = section_content namespace section.
Proof.
  unfold _process_fb2_section.
  destruct (Py.truthy (Py.strip (section_content namespace section)));
    [|discriminate].
  intros H. injection H as <-. auto.
Qed.

Lemma in_process_sections (namespace : prefix_map) (idx : nat)
    (sections : list Element) (ch : chapter_data) :
  In ch (process_sections namespace idx sections)
  <-> exists k section,
        nth_error sections k = Some section
        /\ _process_fb2_section section namespace (idx + k) = Some ch.
Proof.
  revert idx. induction sections as [|s rest IH]; intros idx; simpl.
  - split; [tauto|]. intros (k & x & H & _). destruct k; discriminate.
  - assert (Hrest :
      In ch (process_sections namespace (S idx) rest)
      <-> exists k section,
            nth_error rest k = Some section
            /\ _process_fb2_section section namespace (idx + S k) = Some ch).
    { rewrite IH. split; intros (k & x & Hn & Hp); exists k, x;
        rewrite Nat.add_succ_r in *; auto. }
    assert (Hsplit :
      (exists k section,
         nth_error (s :: rest) k = Some section
         /\ _process_fb2_section section namespace (idx + k) = Some ch)
      <-> _process_fb2_section s namespace idx = Some ch
          \/ exists k section,
               nth_error rest k = Some section
               /\ _process_fb2_section section namespace (idx + S k)
                  = Some ch).
    { split.
      - intros (k & x & Hn & Hp). destruct k as [|k]; simpl in Hn.
        + injection Hn as <-. rewrite Nat.add_0_r in Hp. auto.
        + right. eauto.
      - intros [Hp | (k & x & Hn & Hp)].
        + exists 0, s. rewrite Nat.add_0_r. auto.
        + exists (S k), x. auto. }
    rewrite Hsplit, <- Hrest.
    destruct (_process_fb2_section s namespace idx) as [c|]; simpl.
    + split; [intros [-> | H]; auto | intros [H | H]; [left; congruence | auto]].
    + split; [auto | intros [H | H]; [discriminate | auto]].
Qed.

Lemma process_sections_bounds (namespace : prefix_map) (idx : nat)
    (sections : list Element) :
  Forall (fun o => idx <= o < idx + length sections)
    (map ch_order (process_sections namespace idx sections)).
Proof.
  apply Forall_forall. intros o Ho. apply in_map_iff in Ho.
  destruct Ho as (ch & <- & Hin). apply in_process_sections in Hin.
  destruct Hin as (k & s & Hn & Hp).
  apply process_section_fields in Hp. destruct Hp as [-> _].
  assert (k < length sections) by (apply nth_error_Some; congruence).
  lia.
Qed.

(** The orders the loop hands out grow strictly along the list. *)
Lemma process_sections_increasing (namespace : prefix_map) (idx : nat)
    (sections : list Element) :
  StronglySorted lt (map ch_order (process_sections namespace idx sections)).
Proof.
  revert idx. induction sections as [|s rest IH]; intros idx; simpl;
    [constructor|].
  destruct (_process_fb2_section s namespace idx) as [c|] eqn:E;
    [|apply IH].
  simpl. constructor; [apply IH|].
  apply process_section_fields in E. destruct E as [-> _].
  eapply Forall_impl; [|apply process_sections_bounds].
  simpl. intros o Ho. lia.
Qed.

Lemma process_sections_length (namespace : prefix_map) (idx : nat)
    (sections : list Element) :
  length (process_sections namespace idx sections) <= length sections.
Proof.
  revert idx. induction sections as [|s rest IH]; intros idx; simpl; [lia|].
  specialize (IH (S idx)).
  destruct (_process_fb2_section s namespace idx); simpl; lia.
Qed.

(** When no section is dropped the orders are consecutive. *)
Lemma process_sections_all_kept (namespace : prefix_map) (idx : nat)
    (sections : list Element) :
  length (process_sections namespace idx sections) = length sections ->
  map ch_order (process_sections namespace idx sections)
  = seq idx (length sections).
Proof.
  revert idx. induction sections as [|s rest IH]; intros idx; simpl;
    [reflexivity|].
  pose proof (process_sections_length namespace (S idx) rest) as Hle.
  destruct (_process_fb2_section s namespace idx) as [c|] eqn:E; simpl.
  - intros H. apply process_section_fields in E. destruct E as [-> _].
    f_equal. apply IH. lia.
  - intros H. lia.
Qed.

(* ================================================================== *)
(** ** Lookups of the validator and the extractors *)
(* ================================================================== *)

Lemma hd_error_filter_none {A : Type} (f : A -> bool) (l : list A) :
  hd_error (filter f l) = None <-> forall x, In x l -> f x = false.
Proof.
  induction l as [|a l IH]; simpl; [tauto|].
  destruct (f a) eqn:E; simpl.
  - split; [discriminate|]. intros H.
    specialize (H a (or_introl eq_refl)). congruence.
  - rewrite IH. split; [intros H x [<- | Hx]; auto | auto].
Qed.

Lemma hd_error_filter_some {A : Type} (f : A -> bool) (l : list A) (c : A) :
  hd_error (filter f l) = Some c
  <-> exists pre post,
        l = pre ++ c :: post
        /\ (forall x, In x pre -> f x = false) /\ f c = true.
Proof.
  induction l as [|a l IH]; simpl.
  - split; [discriminate|]. intros (pre & post & H & _).
    destruct pre; discriminate.
  - destruct (f a) eqn:E; simpl.
    + split.
      * intros H. injection H as <-. exists [], l. simpl. tauto.
      * intros (pre & post & H & Hpre & Hc).
        destruct pre as [|x pre]; simpl in H; injection H as Ha Hl;
          [congruence|].
        specialize (Hpre x (or_introl eq_refl)). congruence.
    + rewrite IH. split.
      * intros (pre & post & -> & Hpre & Hc). exists (a :: pre), post.
        simpl. split; [reflexivity|]. split; [|exact Hc].
        intros x [<- | Hx]; auto.
      * intros (pre & post & H & Hpre & Hc).
        destruct pre as [|x pre]; simpl in H; injection H as Ha Hl;
          [congruence|].
        exists pre, post. split; [exact Hl|]. split; [|exact Hc].
        intros y Hy. apply Hpre. right. exact Hy.
Qed.

Lemma find_descendant_at (namespace : prefix_map) (root : Element)
    (local : str) :
  find_at root (if_ns namespace (lit ".//fb:" ++ local) (lit ".//" ++ local))
    namespace
  = hd_error
      (filter (fun pe => has_tag (qname namespace local) (snd pe))
         (tl (iter_at root))).
Proof. unfold find_at. rewrite findall_at_descendant. reflexivity. Qed.

(** A descendant lookup answers [None] exactly when no element of that
    name stands below the context element. *)
Lemma find_descendant_none (namespace : prefix_map) (root : Element)
    (local : str) :
  brace_free namespace -> plain local = true ->
  find root (if_ns namespace (lit ".//fb:" ++ local) (lit ".//" ++ local))
    namespace = None
  <-> lacks namespace root local.
Proof.
  intros Hns Hp.
  rewrite <- find_at_erase, find_descendant_at.
  set (l := filter _ _).
  assert (Hl : option_map snd (hd_error l) = None <-> hd_error l = None)
    by (destruct (hd_error l); simpl; split; congruence).
  rewrite Hl. unfold l. rewrite hd_error_filter_none. unfold lacks. split.
  - intros H p x Hne Hs.
    rewrite <- (has_tag_named namespace local x Hns Hp).
    apply (H (p, x)). apply in_tl_iter_at. auto.
  - intros H [p x] Hin. apply in_tl_iter_at in Hin. destruct Hin as [Hne Hs].
    cbn [snd]. rewrite (has_tag_named namespace local x Hns Hp).
    exact (H p x Hne Hs).
Qed.

Lemma title_info_none (namespace : prefix_map) (root : Element) :
  brace_free namespace ->
  title_info_of namespace root = None
  <-> lacks namespace root (lit "title-info").
Proof.
  intros Hns.
  apply (find_descendant_none namespace root (lit "title-info") Hns eq_refl).
Qed.

Lemma body_none (namespace : prefix_map) (root : Element) :
  brace_free namespace ->
  body_of namespace root = None <-> lacks namespace root (lit "body").
Proof.
  intros Hns.
  apply (find_descendant_none namespace root (lit "body") Hns eq_refl).
Qed.

Lemma find_fb_path (namespace : prefix_map) (e : Element) (local : str) :
  In local [lit "book-title"; lit "lang"; lit "genre"; lit "first-name";
            lit "last-name"; lit "middle-name"] ->
  find e (fb_path namespace local) namespace = first_child namespace e local.
Proof.
  intros H. unfold find, first_child. rewrite findall_fb_path by exact H.
  reflexivity.
Qed.

(** [find_text] on a bare child name. *)
Lemma find_text_child (namespace : prefix_map) (e : Element)
    (local default : str) :
  In local [lit "book-title"; lit "lang"; lit "genre"; lit "first-name";
            lit "last-name"; lit "middle-name"] ->
  find_text namespace e local default
  = match first_child namespace e local with
    | Some found =>
        match text found with
        | Some t => if Py.truthy t then Py.strip t else default
        | None => default
        end
    | None => default
    end.
Proof.
  intros H. unfold find_text. rewrite find_fb_path by exact H. reflexivity.
Qed.

(* ================================================================== *)
(** ** The orchestrator *)
(* ================================================================== *)

Lemma validate_cases (root : Element) (namespace : prefix_map) :
  _validate_fb2_structure root namespace
  = match title_info_of namespace root with
    | None => raise (ValueError (MSG_MISSING ++ lit "title-info"))
    | Some _ =>
        match body_of namespace root with
        | None => raise (ValueError (MSG_MISSING ++ lit "body"))
        | Some _ => ret tt
        end
    end.
Proof. reflexivity. Qed.

Lemma parse_tree_inr (root : Element) (bd : book_data) :
  parse_tree root = inr bd ->
  let namespace := root_namespace root in
  exists title_info body meta,
    title_info_of namespace root = Some title_info
    /\ body_of namespace root = Some body
    /\ _extract_fb2_metadata root namespace = inr meta
    /\ bd = {| title := title meta;
               description := description meta;
               additional := additional meta;
               chapters := Some (_extract_fb2_chapters root namespace) |}.
Proof.
  unfold parse_tree. rewrite validate_cases. simpl.
  destruct (title_info_of (root_namespace root) root) as [ti|] eqn:Eti;
    [|discriminate].
  destruct (body_of (root_namespace root) root) as [body|] eqn:Eb;
    [|discriminate].
  simpl.
  destruct (_extract_fb2_metadata root (root_namespace root)) as [e|meta]
    eqn:Em; simpl; [discriminate|].
  intros H. injection H as <-. exists ti, body, meta. auto.
Qed.

Lemma parse_content_inr (fromstring : list Byte.byte -> result Element)
    (file_content : list Byte.byte) (bd : book_data) :
  _parse_fb2_content fromstring file_content = inr bd ->
  exists root, fromstring file_content = inr root /\ parse_tree root = inr bd.
Proof.
  unfold _parse_fb2_content, try_except, bind.
  destruct (fromstring file_content) as [e|root]; [discriminate|].
  destruct (parse_tree root) as [e|bd'] eqn:E; [discriminate|].
  intros H. injection H as <-. eauto.
Qed.

Lemma metadata_fields (root : Element) (namespace : prefix_map)
    (title_info : Element) (meta : book_data) :
  title_info_of namespace root = Some title_info ->
  _extract_fb2_metadata root namespace = inr meta ->
  title meta = find_text namespace title_info (lit "book-title") UNTITLED
  /\ genres (additional meta)
     = find_all_text namespace title_info (lit "genre")
  /\ language (additional meta)
     = find_text namespace title_info (lit "lang") (lit "ru").
Proof.
  unfold title_info_of, _extract_fb2_metadata. intros ->.
  intros H. injection H as <-. simpl. auto.
Qed.

Lemma parse_chapters (fromstring : list Byte.byte -> result Element)
    (file_content : list Byte.byte) (bd : book_data)
    (chs : list chapter_data) :
  _parse_fb2_content fromstring file_content = inr bd ->
  chapters bd = Some chs ->
  exists root,
    fromstring file_content = inr root
    /\ chs = process_sections (root_namespace root) 1
               (map snd (candidates_at (root_namespace root) root)).
Proof.
  intros Hp Hc. apply parse_content_inr in Hp. destruct Hp as (root & Hf & Hp).
  apply parse_tree_inr in Hp. destruct Hp as (ti & body & meta & _ & _ & _ & ->).
  simpl in Hc. injection Hc as <-. exists root. split; [exact Hf|].
  rewrite candidates_at_erase. apply extract_chapters_candidates.
Qed.

(** Where the section has no [title] child, or the child yields the empty
    string, the title is generated from the number the loop passes. *)
Lemma generated_title (section : Element) (namespace : prefix_map)
    (order : nat) (ch : chapter_data) :
  _process_fb2_section section namespace order = Some ch ->
  match
    find section (if_ns namespace (lit "./fb:title") (lit "./title"))
      namespace
  with
  | Some title_elem => title_text namespace title_elem = []
  | None => True
  end ->
  ch_title ch = CHAPTER_PREFIX ++ Py.of_nat order.
Proof.
  unfold _process_fb2_section.
  destruct (Py.truthy (Py.strip (section_content namespace section)));
    [|discriminate].
  intros H. injection H as <-. simpl.
  destruct (find section _ namespace) as [te|]; [intros ->|]; reflexivity.
Qed.

(** A title that is not empty is kept as it is. *)
Lemma kept_title (section : Element) (namespace : prefix_map)
    (order : nat) (ch : chapter_data) (title_elem : Element) :
  _process_fb2_section section namespace order = Some ch ->
  find section (if_ns namespace (lit "./fb:title") (lit "./title")) namespace
  = Some title_elem ->
  title_text namespace title_elem <> [] ->
  ch_title ch = title_text namespace title_elem.
Proof.
  unfold _process_fb2_section.
  destruct (Py.truthy (Py.strip (section_content namespace section)));
    [|discriminate].
  intros H. injection H as <-. simpl. intros -> Hne.
  apply truthy_true_iff in Hne. rewrite Hne. reflexivity.
Qed.

(** The number in a generated title is the position of the section among
    all the candidates, the dropped ones included. *)
Lemma generated_title_numbering (root : Element) (namespace : prefix_map)
    (ch : chapter_data) :
  In ch (_extract_fb2_chapters root namespace) ->
  exists k section,
    nth_error (candidates namespace root) k = Some section
    /\ ch_order ch = S k
    /\ (match
          find section (if_ns namespace (lit "./fb:title") (lit "./title"))
            namespace
        with
        | Some title_elem => title_text namespace title_elem = []
        | None => True
        end ->
        ch_title ch = CHAPTER_PREFIX ++ Py.of_nat (S k)).
Proof.
  rewrite extract_chapters_candidates. intros Hin.
  apply in_process_sections in Hin. destruct Hin as (k & section & Hk & Hp).
  exists k, section. split; [exact Hk|]. split.
  - apply (process_section_fields _ _ _ _ Hp).
  - apply (generated_title _ _ _ _ Hp).
Qed.

Lemma parse_content_root (fromstring : list Byte.byte -> result Element)
    (file_content : list Byte.byte) (root : Element) :
  fromstring file_content = inr root ->
  _parse_fb2_content fromstring file_content
  = try_except (parse_tree root) reraise.
Proof. unfold _parse_fb2_content. intros ->. reflexivity. Qed.

Lemma parse_metadata (fromstring : list Byte.byte -> result Element)
    (file_content : list Byte.byte) (bd : book_data) :
  _parse_fb2_content fromstring file_content = inr bd ->
  exists root title_info,
    fromstring file_content = inr root
    /\ title_info_of (root_namespace root) root = Some title_info
    /\ title bd
       = find_text (root_namespace root) title_info (lit "book-title")
           UNTITLED
    /\ genres (additional bd)
       = find_all_text (root_namespace root) title_info (lit "genre")
    /\ language (additional bd)
       = find_text (root_namespace root) title_info (lit "lang") (lit "ru").
Proof.
  intros Hp. apply parse_content_inr in Hp. destruct Hp as (root & Hf & Hp).
  apply parse_tree_inr in Hp.
  destruct Hp as (ti & body & meta & Hti & _ & Hm & ->).
  exists root, ti. split; [exact Hf|]. split; [exact Hti|].
  simpl. apply (metadata_fields _ _ _ _ Hti Hm).
Qed.

Lemma first_child_none (namespace : prefix_map) (e : Element) (local : str) :
  brace_free namespace -> plain local = true ->
  first_child namespace e local = None <-> no_child_named namespace e local.
Proof.
  intros Hns Hp. unfold first_child, no_child_named.
  rewrite (filter_named _ _ _ Hns Hp), hd_error_filter_none, Forall_forall.
  tauto.
Qed.

Lemma first_child_some (namespace : prefix_map) (e : Element) (local : str)
    (c : Element) :
  brace_free namespace -> plain local = true ->
  first_child namespace e local = Some c <-> first_named namespace e local c.
Proof.
  intros Hns Hp. unfold first_child, first_named.
  rewrite (filter_named _ _ _ Hns Hp), hd_error_filter_some.
  split; intros (pre & post & Hl & Hpre & Hc); exists pre, post;
    (split; [exact Hl|]); (split; [|exact Hc]).
  - apply Forall_forall. exact Hpre.
  - rewrite Forall_forall in Hpre. exact Hpre.
Qed.

Lemma first_named_functional (namespace : prefix_map) (e : Element)
    (local : str) (c1 c2 : Element) :
  first_named namespace e local c1 -> first_named namespace e local c2 ->
  c1 = c2.
Proof.
  intros H1 H2.
  assert (H : forall c, first_named namespace e local c
                        -> hd_error (filter (named namespace local)
                                       (children e)) = Some c).
  { intros c (pre & post & Hl & Hpre & Hc). apply hd_error_filter_some.
    exists pre, post. rewrite Forall_forall in Hpre. auto. }
  apply H in H1, H2. congruence.
Qed.

(** The names [find_text] and [find_all_text] are called with. *)
Lemma child_names_plain (local : str) :
  In local [lit "book-title"; lit "lang"; lit "genre"; lit "first-name";
            lit "last-name"; lit "middle-name"] ->
  plain local = true.
Proof.
  simpl. intros H.
  repeat (destruct H as [<- | H]; [reflexivity|]). contradiction.
Qed.

(** The cases of [find_text] on a bare child name. *)
Lemma find_text_cases (namespace : prefix_map) (e : Element)
    (local default : str) :
  brace_free namespace ->
  In local [lit "book-title"; lit "lang"; lit "genre"; lit "first-name";
            lit "last-name"; lit "middle-name"] ->
  (no_child_named namespace e local ->
   find_text namespace e local default = default)
  /\ (forall found,
        first_named namespace e local found ->
        (text found = None \/ text found = Some []) ->
        find_text namespace e local default = default)
  /\ (forall found t,
        first_named namespace e local found ->
        text found = Some t -> t <> [] ->
        find_text namespace e local default = Py.strip t).
Proof.
  intros Hns Hl. pose proof (child_names_plain _ Hl) as Hp.
  rewrite (find_text_child _ _ _ _ Hl). split; [|split].
  - intros H. apply (first_child_none _ _ _ Hns Hp) in H. rewrite H.
    reflexivity.
  - intros found H. apply (first_child_some _ _ _ _ Hns Hp) in H. rewrite H.
    intros [-> | ->]; reflexivity.
  - intros found t H. apply (first_child_some _ _ _ _ Hns Hp) in H.
    rewrite H. intros -> Ht. apply truthy_true_iff in Ht. rewrite Ht.
    reflexivity.
Qed.

(** The book title: the default when [title-info] has no [book-title]
    child or the first one has no text, its trimmed text otherwise. *)
Lemma book_title_cases (fromstring : list Byte.byte -> result Element)
    (file_content : list Byte.byte) (bd : book_data) :
  _parse_fb2_content fromstring file_content = inr bd ->
  exists root title_info,
    fromstring file_content = inr root
    /\ title_info_of (root_namespace root) root = Some title_info
    /\ (no_child_named (root_namespace root) title_info (lit "book-title") ->
        title bd = UNTITLED)
    /\ (forall found,
          first_named (root_namespace root) title_info (lit "book-title")
            found ->
          (text found = None \/ text found = Some []) ->
          title bd = UNTITLED)
    /\ (forall found t,
          first_named (root_namespace root) title_info (lit "book-title")
            found ->
          text found = Some t -> t <> [] ->
          title bd = Py.strip t).
Proof.
  intros Hp. destruct (parse_metadata _ _ _ Hp)
    as (root & ti & Hf & Hti & -> & _ & _).
  exists root, ti. split; [exact Hf|]. split; [exact Hti|].
  apply find_text_cases; [apply root_namespace_brace_free | simpl; auto].
Qed.

(* ================================================================== *)
(** ** One body *)
(* ================================================================== *)

Lemma sorted_after {A : Type} (R : A -> A -> Prop) (l1 l2 : list A) (a : A) :
  StronglySorted R (l1 ++ a :: l2) -> Forall (R a) l2.
Proof.
  induction l1 as [|x l1 IH]; simpl; intros H;
    apply StronglySorted_inv in H; destruct H as [Hs Hf]; auto.
Qed.

Lemma subtree_app (e : Element) (p q : path) (x : Element) :
  subtree e p = Some x -> subtree e (p ++ q) = subtree x q.
Proof.
  revert e. induction p as [|i p IH]; simpl; intros e H.
  - injection H as <-. reflexivity.
  - destruct (nth_error (children e) i) as [c|]; [|discriminate].
    apply IH. exact H.
Qed.

(** Two positions above a common one lie on one branch. *)
Lemma within_comparable (p q a b : path) :
  p ++ a = q ++ b -> within p q \/ within q p.
Proof.
  revert q. induction p as [|i p IH]; intros q H.
  - left. exists q. reflexivity.
  - destruct q as [|j q].
    + right. exists (i :: p). reflexivity.
    + simpl in H. injection H as -> H.
      destruct (IH q H) as [(c & ->) | (c & ->)].
      * left. exists c. reflexivity.
      * right. exists c. reflexivity.
Qed.

(** Every section the search returns lies strictly below [body]. *)
Lemma candidate_sections_at_below (namespace : prefix_map) (body : Element)
    (r : path) (s : Element) :
  In (r, s) (candidate_sections_at namespace body) ->
  r <> [] /\ subtree body r = Some s
  /\ has_tag (qname namespace (lit "section")) s = true.
Proof.
  unfold candidate_sections_at.
  rewrite child_sections_at, all_sections_at.
  set (keep := fun pe : path * Element =>
                 has_tag (qname namespace (lit "section")) (snd pe)).
  destruct (filter keep (children_at body)) as [|d D] eqn:E.
  - rewrite filter_In, in_tl_iter_at. unfold keep. cbn [snd]. tauto.
  - rewrite <- E, filter_In, in_children_at. unfold keep. cbn [snd].
    intros ((i & -> & Hn) & Ht).
    rewrite subtree_child. split; [discriminate | auto].
Qed.

(** What the lookup of [body] answers is the first [body] below the
    root, in document order. *)
Lemma find_at_first (namespace : prefix_map) (root : Element) (local : str)
    (pb : path) (body : Element) :
  find_at root (if_ns namespace (lit ".//fb:" ++ local) (lit ".//" ++ local))
    namespace = Some (pb, body) ->
  pb <> [] /\ subtree root pb = Some body
  /\ has_tag (qname namespace local) body = true
  /\ forall q b2,
       q <> [] -> subtree root q = Some b2 ->
       has_tag (qname namespace local) b2 = true ->
       q = pb \/ doc_lt pb q.
Proof.
  rewrite find_descendant_at. intros H.
  apply hd_error_filter_some in H.
  destruct H as (pre & post & Hl & Hpre & Hk). cbn [snd] in Hk.
  assert (Hin : In (pb, body) (tl (iter_at root)))
    by (rewrite Hl; apply in_elt).
  apply in_tl_iter_at in Hin. destruct Hin as [Hne Hs].
  split; [exact Hne|]. split; [exact Hs|]. split; [exact Hk|].
  intros q b2 Hq Hs2 Ht2.
  assert (Hin2 : In (q, b2) (tl (iter_at root)))
    by (apply in_tl_iter_at; auto).
  rewrite Hl in Hin2. apply in_app_or in Hin2.
  destruct Hin2 as [Hin2 | [Heq | Hin2]].
  - specialize (Hpre _ Hin2). cbn [snd] in Hpre. congruence.
  - injection Heq as -> _. left. reflexivity.
  - right.
    pose proof (sorted_tl _ _ (iter_at_sorted root)) as Hsorted.
    rewrite Hl in Hsorted. apply sorted_after in Hsorted.
    rewrite Forall_forall in Hsorted. exact (Hsorted _ Hin2).
Qed.

Lemma candidates_at_below (namespace : prefix_map) (root : Element)
    (pb : path) (body : Element) (r : path) (s : Element) :
  find_at root (if_ns namespace (lit ".//fb:body") (lit ".//body")) namespace
  = Some (pb, body) ->
  In (r, s) (candidates_at namespace root) ->
  below pb r /\ subtree root r = Some s
  /\ has_tag (qname namespace (lit "section")) s = true.
Proof.
  intros Hfind. unfold candidates_at. rewrite Hfind.
  intros Hin. apply in_map_iff in Hin.
  destruct Hin as ([r' s'] & Heq & Hin). simpl in Heq.
  injection Heq as <- <-.
  apply candidate_sections_at_below in Hin.
  destruct Hin as (Hne & Hs & Ht).
  destruct (find_at_first namespace root (lit "body") pb body Hfind)
    as (_ & Hb & _).
  split; [|split; [|exact Ht]].
  - destruct r' as [|i r'']; [congruence|]. exists i, r''. reflexivity.
  - rewrite (subtree_app _ _ _ _ Hb). exact Hs.
Qed.

(* ================================================================== *)
(** ** Trimming *)
(* ================================================================== *)

Lemma lstrip_split (s : str) :
  exists pre, s = pre ++ Py.lstrip s /\ all_space pre = true.
Proof.
  induction s as [|c s (pre & IH & Hpre)]; simpl.
  - exists []. auto.
  - destruct (Py.isspace c) eqn:E.
    + exists (c :: pre). simpl. rewrite <- IH, E. auto.
    + exists []. auto.
Qed.

Lemma lstrip_suffix (s : str) : exists pre, s = pre ++ Py.lstrip s.
Proof. destruct (lstrip_split s) as (pre & H & _). eauto. Qed.

Lemma starts_clean_lstrip (s : str) : starts_clean s -> Py.lstrip s = s.
Proof. destruct s as [|c r]; simpl; [tauto|]. intros ->. reflexivity. Qed.

Lemma lstrip_starts_clean (s : str) :
  Py.lstrip s <> [] -> starts_clean (Py.lstrip s).
Proof.
  intros H. destruct (lstrip_shape s) as [E | (c & r & E & Hc)];
    [contradiction|].
  rewrite E. exact Hc.
Qed.

Lemma starts_clean_app (s t : str) : starts_clean s -> starts_clean (s ++ t).
Proof. destruct s; simpl; tauto. Qed.

Lemma starts_clean_prefix (s t : str) :
  s <> [] -> starts_clean (s ++ t) -> starts_clean s.
Proof. destruct s; simpl; tauto. Qed.

Lemma clean_edges_strip (s : str) : clean_edges s -> Py.strip s = s.
Proof.
  intros [Hl Hr]. unfold Py.strip, Py.rstrip.
  rewrite (starts_clean_lstrip _ Hr), rev_involutive.
  apply starts_clean_lstrip. exact Hl.
Qed.

(** What [strip] leaves, when it leaves anything, has clean edges. *)
Lemma strip_clean_edges (s : str) :
  Py.strip s <> [] -> clean_edges (Py.strip s).
Proof.
  unfold Py.strip, Py.rstrip. set (y := Py.lstrip (rev s)). intros H.
  split; [apply lstrip_starts_clean; exact H|].
  assert (Hy : y <> []).
  { intros E. apply H. rewrite E. reflexivity. }
  destruct (lstrip_suffix (rev y)) as (pre & Hpre).
  assert (E : y = rev (Py.lstrip (rev y)) ++ rev pre).
  { rewrite <- rev_app_distr, <- Hpre, rev_involutive. reflexivity. }
  apply starts_clean_prefix with (t := rev pre).
  - intros E'. apply H. apply (f_equal (@rev Py.char)) in E'.
    rewrite rev_involutive in E'. exact E'.
  - rewrite <- E. apply lstrip_starts_clean. exact Hy.
Qed.

Lemma clean_edges_app (s sep t : str) :
  clean_edges s -> clean_edges t -> clean_edges (s ++ sep ++ t).
Proof.
  intros [Hs _] [_ Ht]. split.
  - apply starts_clean_app. exact Hs.
  - rewrite !rev_app_distr, <- app_assoc. apply starts_clean_app. exact Ht.
Qed.

Lemma clean_edges_join (sep : str) (parts : list str) :
  parts <> [] -> Forall clean_edges parts ->
  clean_edges (Py.join sep parts).
Proof.
  intros Hne Hall. induction Hall as [|p rest Hp Hrest IH]; [congruence|].
  destruct rest as [|q rest]; [exact Hp|].
  change (Py.join sep (p :: q :: rest))
    with (p ++ sep ++ Py.join sep (q :: rest)).
  apply clean_edges_app; [exact Hp|]. apply IH. discriminate.
Qed.

Lemma kept_pieces_clean (texts : list str) :
  Forall clean_edges (filter Py.truthy (map Py.strip texts)).
Proof.
  apply Forall_forall. intros p Hp. apply filter_In in Hp.
  destruct Hp as [Hin Ht]. apply in_map_iff in Hin.
  destruct Hin as (t & <- & _). apply strip_clean_edges.
  apply truthy_true_iff. exact Ht.
Qed.

(** The content of a chapter is what [strip] would leave of it. *)
Lemma section_content_clean (namespace : prefix_map) (section : Element) :
  Py.strip (section_content namespace section) <> [] ->
  clean_edges (section_content namespace section).
Proof.
  unfold section_content. rewrite <- (map_map full_text Py.strip). intros H.
  apply clean_edges_join; [|apply kept_pieces_clean].
  intros E. rewrite E in H. apply H. reflexivity.
Qed.

Lemma process_section_title (section : Element) (namespace : prefix_map)
    (order : nat) (ch : chapter_data) :
  _process_fb2_section section namespace order = Some ch -> ch_title ch <> [].
Proof.
  unfold _process_fb2_section.
  destruct (Py.truthy (Py.strip (section_content namespace section)));
    [|discriminate].
  intros H. injection H as <-. simpl.
  destruct (Py.truthy _) eqn:E; simpl.
  - apply truthy_true_iff. exact E.
  - discriminate.
Qed.

(** [s.strip()] is [s] trimmed. *)
Lemma strip_trimmed (t : str) : trimmed_of t (Py.strip t).
Proof.
  destruct (lstrip_split (rev t)) as (post & Hpost & Hsp).
  destruct (lstrip_split (Py.rstrip t)) as (pre & Hpre & Hsq).
  exists pre, (rev post). split; [|split; [exact Hsq|split]].
  - fold (Py.strip t) in Hpre. rewrite app_assoc, <- Hpre.
    unfold Py.rstrip. rewrite <- rev_app_distr, <- Hpost.
    symmetry. apply rev_involutive.
  - rewrite all_space_rev. exact Hsp.
  - destruct (Py.strip t) as [|c r] eqn:E; [left; reflexivity|].
    right. rewrite <- E. apply strip_clean_edges. rewrite E. discriminate.
Qed.

(* ================================================================== *)
(** ** The scenarios of the specification *)
(* ================================================================== *)

(** The tag test on the forms a resolved name can take. *)
Example tag_tests :
  tag_selects (lit "{*}title-info") (lit "{urn:x}title-info") = true
  /\ tag_selects (lit "{*}title-info") (lit "title-info") = true
  /\ tag_selects (lit "{*}title-info") (lit "subtitle-info") = false
  /\ tag_selects (lit "{}b") (lit "b") = true
  /\ tag_selects (lit "{}b") (lit "{u}b") = false
  /\ tag_selects (lit "{u}*") (lit "{u}c") = true
  /\ tag_selects (lit "{u}*") (lit "b") = false
  /\ tag_selects (lit "{*x}b") (lit "b") = false
  /\ tag_selects (lit "{u}b") (lit "{u}b") = true
  /\ tag_selects (lit "{u}b") (lit "b") = false.
Proof. repeat split; reflexivity. Qed.

(** The rewriting of [find_text] on the names the module passes. *)
Example fb_path_book_title (uri : str) :
  fb_path (Some uri) (lit "book-title") = lit "fb:book-title"
  /\ fb_path None (lit "book-title") = lit "book-title".
Proof. split; reflexivity. Qed.

(** Scenario 1: a namespaced book with one titled section. *)
Example scenario_titled_section :
  exists bd,
    _parse_fb2_content (parser_of sample_book) [] = inr bd
    /\ root_namespace sample_book = Some FB2_NS
    /\ title bd = lit "Sample"
    /\ chapters bd
       = Some [ {| ch_title := lit "Intro";
                   ch_content := lit "Hello world.";
                   ch_order := 1 |} ].
Proof. eexists. repeat split; reflexivity. Qed.

(** Scenario 2: a section without [title] gets the generated title. *)
Example scenario_untitled_section :
  _extract_fb2_chapters blank_book_title None
  = [ {| ch_title := CHAPTER_PREFIX ++ lit "1";
         ch_content := lit "Hello";
         ch_order := 1 |} ].
Proof. reflexivity. Qed.

(** Scenario 3: sections two levels below [body] are found by the
    fallback and numbered 1 and 2. *)
Example scenario_nested_sections :
  map ch_order (process_sections None 1 (candidate_sections None deep_body))
  = [1; 2]
  /\ map ch_content
       (process_sections None 1 (candidate_sections None deep_body))
     = [lit "One"; lit "Two"].
Proof. split; reflexivity. Qed.

(** Scenario 6: the description from paragraphs, and from bare text. *)
Example scenario_annotation :
  (exists bd,
     _parse_fb2_content (parser_of (annotated_book annotation_paragraphs)) []
     = inr bd
     /\ description bd = lit "A" ++ NL ++ lit "B" ++ NL ++ lit "C")
  /\ (exists bd,
        _parse_fb2_content (parser_of (annotated_book annotation_bare)) []
        = inr bd
        /\ description bd = lit "Summary text").
Proof. split; eexists; split; reflexivity. Qed.

(** A root that declares the namespace [*]: every prefixed name becomes a
    wildcard, and the lookups take [title-info], [lang] and [section] in
    other namespaces, [book-title] and [body] in none. *)
Example scenario_star_namespace :
  exists bd,
    _parse_fb2_content (parser_of star_book) [] = inr bd
    /\ root_namespace star_book = Some (lit "*")
    /\ title bd = lit "Sample"
    /\ language (additional bd) = lit "de"
    /\ chapters bd
       = Some [ {| ch_title := CHAPTER_PREFIX ++ lit "1";
                   ch_content := lit "Hello";
                   ch_order := 1 |} ].
Proof. eexists. repeat split; reflexivity. Qed.

(* ================================================================== *)
(** ** Emission of chapters *)
(* ================================================================== *)

(** C4 at [sup_book].  The only candidate section has a single child,
    a [sup] element; none of its children is a [p], so its content in the
    words of the specification is empty.  The loop of
    [_process_fb2_section] keeps the child all the same, because its tag
    ends with the letter p, and the parse returns a chapter made of its
    text. *)
Theorem non_paragraph_child_is_emitted :
  exists bd ch,
    _parse_fb2_content (parser_of sup_book) [] = inr bd
    /\ root_namespace sup_book = None
    /\ candidates None sup_book = [sup_section]
    /\ children sup_section = [leaf (lit "sup") (lit "x")]
    /\ filter (named None (lit "p")) (children sup_section) = []
    /\ spec_content None sup_section = []
    /\ is_paragraph None (leaf (lit "sup") (lit "x")) = true
    /\ chapters bd = Some [ch]
    /\ ch_order ch = 1
    /\ ch_content ch = lit "x".
Proof. eexists. eexists. repeat split; reflexivity. Qed.

(* ================================================================== *)
(** ** The two-tier section search *)
(* ================================================================== *)

(** C5.  [_extract_fb2_chapters] runs its loop over the sections found
    in the [body] it looks up, numbered from 1 in the order found: when
    [body] has a section among its children these are exactly the child
    sections, and otherwise exactly the sections at any depth below
    [body]; in both cases they come in document order, as a flat list,
    and every chapter returned is the chapter of one of them. *)
Theorem two_tier_section_search (root body : Element) :
  let namespace := root_namespace root in
  body_of namespace root = Some body ->
  let found := candidate_sections_at namespace body in
  let is_section s := named namespace (lit "section") s = true in
  let has_child_section :=
    exists i s, nth_error (children body) i = Some s /\ is_section s in
  _extract_fb2_chapters root namespace
  = process_sections namespace 1 (map snd found)
  /\ (forall ch,
        In ch (_extract_fb2_chapters root namespace)
        <-> exists k p s,
              nth_error found k = Some (p, s)
              /\ _process_fb2_section s namespace (S k) = Some ch)
  /\ StronglySorted pos_lt found
  /\ (has_child_section ->
      forall p s,
        In (p, s) found
        <-> (exists i, p = [i]) /\ subtree body p = Some s /\ is_section s)
  /\ (~ has_child_section ->
      forall p s,
        In (p, s) found
        <-> p <> [] /\ subtree body p = Some s /\ is_section s).
Proof.
  cbv zeta. intros Hbody.
  pose proof (root_namespace_brace_free root) as Hns.
  set (namespace := root_namespace root) in *.
  assert (Hex : _extract_fb2_chapters root namespace
                = process_sections namespace 1
                    (map snd (candidate_sections_at namespace body))).
  { unfold _extract_fb2_chapters. unfold body_of in Hbody. rewrite Hbody.
    rewrite candidate_sections_at_erase. reflexivity. }
  split; [exact Hex|]. split.
  - intros ch. rewrite Hex, in_process_sections. split.
    + intros (k & s & Hk & Hp). rewrite nth_error_map in Hk.
      destruct (nth_error (candidate_sections_at namespace body) k)
        as [[p s']|] eqn:E; [|discriminate].
      simpl in Hk. injection Hk as ->. exists k, p, s. auto.
    + intros (k & p & s & Hk & Hp). exists k, s.
      rewrite nth_error_map, Hk. auto.
  - split; [apply candidate_sections_at_sorted|].
    split; [apply candidates_direct | apply candidates_fallback]; exact Hns.
Qed.

(** In [deep_book] no child of the body is a section, and the section
    two levels down, second in document order, is found. *)
Lemma two_tier_section_search_witness :
  In ([0; 1], node (lit "section") [leaf (lit "p") (lit "Two")])
    (candidate_sections_at None deep_body).
Proof.
  apply (proj2 (proj2 (proj2 (proj2
           (two_tier_section_search deep_book deep_body eq_refl))))).
  - intros (i & s & Hn & Ht).
    destruct i as [|[|i]]; simpl in Hn; try discriminate.
    injection Hn as <-. discriminate.
  - split; [discriminate|]. split; reflexivity.
Defined.

(* ================================================================== *)
(** ** Chapter numbers *)
(* ================================================================== *)

(** C1, as stated, fails: at [gap_book] the parse succeeds with one
    chapter, and its order is 2. *)
Lemma orders_not_contiguous_at_gap_book :
  exists bd chs,
    _parse_fb2_content (parser_of gap_book) [] = inr bd
    /\ chapters bd = Some chs
    /\ map ch_order chs = [2]
    /\ map ch_order chs <> seq 1 (length chs).
Proof.
  eexists. eexists. split; [reflexivity|]. split; [reflexivity|].
  split; [reflexivity | discriminate].
Qed.

(** C1, amended.  When the parse succeeds, the order of every chapter is
    the 1-based position of its section among all the candidate sections,
    which are listed in document order; the orders of the chapters are
    strictly increasing; and when no candidate section was dropped they
    are exactly 1..N. *)
Theorem orders_are_candidate_positions
    (fromstring : list Byte.byte -> result Element)
    (file_content : list Byte.byte) (bd : book_data)
    (chs : list chapter_data) :
  _parse_fb2_content fromstring file_content = inr bd ->
  chapters bd = Some chs ->
  exists root,
    fromstring file_content = inr root
    /\ let namespace := root_namespace root in
       let found := candidates_at namespace root in
       StronglySorted pos_lt found
       /\ StronglySorted lt (map ch_order chs)
       /\ (forall ch, In ch chs ->
             exists p section,
               1 <= ch_order ch
               /\ nth_error found (ch_order ch - 1) = Some (p, section)
               /\ _process_fb2_section section namespace (ch_order ch)
                  = Some ch)
       /\ (length chs = length found -> map ch_order chs = seq 1 (length chs)).
Proof.
  intros Hp Hc. destruct (parse_chapters _ _ _ _ Hp Hc) as (root & Hf & ->).
  exists root. split; [exact Hf|]. cbv zeta.
  set (namespace := root_namespace root).
  set (found := candidates_at namespace root).
  split; [apply candidates_at_sorted|].
  split; [apply process_sections_increasing|]. split.
  - intros ch Hin. apply in_process_sections in Hin.
    destruct Hin as (k & section & Hk & Hproc).
    pose proof (process_section_fields _ _ _ _ Hproc) as [Ho _].
    rewrite nth_error_map in Hk.
    destruct (nth_error found k) as [[p s]|] eqn:E; [|discriminate].
    simpl in Hk. injection Hk as ->.
    exists p, section. rewrite Ho.
    replace (1 + k - 1) with k by lia. split; [lia | auto].
  - intros Hlen.
    assert (Hl : length (process_sections namespace 1 (map snd found))
                 = length (map snd found))
      by (rewrite length_map; exact Hlen).
    rewrite (process_sections_all_kept _ _ _ Hl), Hl. reflexivity.
Qed.

(** At [sample_book] the only chapter has order 1. *)
Lemma orders_are_candidate_positions_witness :
  exists root,
    parser_of sample_book [] = inr root
    /\ let namespace := root_namespace root in
       let found := candidates_at namespace root in
       StronglySorted pos_lt found
       /\ StronglySorted lt [1]
       /\ (forall ch,
             In ch [ {| ch_title := lit "Intro";
                        ch_content := lit "Hello world.";
                        ch_order := 1 |} ] ->
             exists p section,
               1 <= ch_order ch
               /\ nth_error found (ch_order ch - 1) = Some (p, section)
               /\ _process_fb2_section section namespace (ch_order ch)
                  = Some ch)
       /\ (1 = length found -> [1] = seq 1 1).
Proof.
  exact (orders_are_candidate_positions (parser_of sample_book) []
           _ _ eq_refl eq_refl).
Defined.

(* ================================================================== *)
(** ** Generated titles *)
(* ================================================================== *)

(** C2 at [blank_title_book].  The only candidate section has a [title]
    child whose text is empty after trimming, yet the parse returns its
    chapter with the one-space title instead of the generated one. *)
Theorem blank_title_is_kept :
  exists bd title_elem ch,
    _parse_fb2_content (parser_of blank_title_book) [] = inr bd
    /\ candidates None blank_title_book = [blank_title_section]
    /\ find blank_title_section (lit "./title") None = Some title_elem
    /\ Py.strip (title_text None title_elem) = []
    /\ chapters bd = Some [ch]
    /\ ch_order ch = 1
    /\ ch_title ch = lit " "
    /\ ch_title ch <> CHAPTER_PREFIX ++ Py.of_nat 1.
Proof.
  eexists. eexists. eexists. repeat (split; [reflexivity|]). discriminate.
Qed.

(* ================================================================== *)
(** ** Validation *)
(* ================================================================== *)

(** C3.  When no [title-info] element, or no [body] element, stands
    below the root of a well-formed document, [_parse_fb2_content] raises
    a [ValueError] whose text ends with the name of an element that is
    missing ([title-info] when that one is missing, [body] otherwise).
    The exception is the validator's, so it is raised before either
    extractor runs, and the outcome is the exception, never a record. *)
Theorem missing_element_aborts_parse
    (fromstring : list Byte.byte -> result Element)
    (file_content : list Byte.byte) (root : Element) :
  fromstring file_content = inr root ->
  let namespace := root_namespace root in
  let outcome := _parse_fb2_content fromstring file_content in
  let failure name := inl (ValueError (MSG_PARSING ++ MSG_MISSING ++ name)) in
  (lacks namespace root (lit "title-info") ->
   outcome = failure (lit "title-info"))
  /\ (~ lacks namespace root (lit "title-info") ->
      lacks namespace root (lit "body") ->
      outcome = failure (lit "body"))
  /\ (lacks namespace root (lit "title-info")
      \/ lacks namespace root (lit "body") ->
      exists name,
        (name = lit "title-info" \/ name = lit "body")
        /\ lacks namespace root name
        /\ _validate_fb2_structure root namespace
           = inl (ValueError (MSG_MISSING ++ name))
        /\ outcome = failure name
        /\ forall bd, outcome <> inr bd).
Proof.
  intros Hf. cbv zeta. rewrite (parse_content_root _ _ _ Hf).
  pose proof (root_namespace_brace_free root) as Hns.
  set (namespace := root_namespace root) in *.
  assert (Hti : lacks namespace root (lit "title-info") ->
                try_except (parse_tree root) reraise
                = inl (ValueError (MSG_PARSING ++ MSG_MISSING
                                   ++ lit "title-info"))).
  { intros H. apply (title_info_none _ _ Hns) in H.
    unfold parse_tree. fold namespace. rewrite validate_cases, H.
    reflexivity. }
  assert (Hb : ~ lacks namespace root (lit "title-info") ->
               lacks namespace root (lit "body") ->
               try_except (parse_tree root) reraise
               = inl (ValueError (MSG_PARSING ++ MSG_MISSING ++ lit "body"))).
  { intros Hn H. apply (body_none _ _ Hns) in H.
    unfold parse_tree. fold namespace. rewrite validate_cases, H.
    destruct (title_info_of namespace root) eqn:E; [reflexivity|].
    apply (title_info_none _ _ Hns) in E. contradiction. }
  split; [exact Hti|]. split; [exact Hb|].
  intros Hor.
  destruct (title_info_of namespace root) as [ti|] eqn:E.
  - assert (Hn : ~ lacks namespace root (lit "title-info")).
    { intros H. apply (title_info_none _ _ Hns) in H. congruence. }
    destruct Hor as [H | H]; [contradiction|].
    exists (lit "body"). split; [auto|]. split; [exact H|].
    split.
    + rewrite validate_cases, E. apply (body_none _ _ Hns) in H. rewrite H.
      reflexivity.
    + rewrite (Hb Hn H). split; [reflexivity | discriminate].
  - exists (lit "title-info"). split; [auto|].
    split; [apply (title_info_none _ _ Hns); exact E|].
    split.
    + rewrite validate_cases, E. reflexivity.
    + apply (title_info_none _ _ Hns) in E.
      rewrite (Hti E). split; [reflexivity | discriminate].
Qed.

(** [no_title_info_book] has a body and no title-info: the parse fails
    and names [title-info]. *)
Lemma missing_element_aborts_parse_witness :
  _parse_fb2_content (parser_of no_title_info_book) []
  = inl (ValueError (MSG_PARSING ++ MSG_MISSING ++ lit "title-info")).
Proof.
  apply (proj1 (missing_element_aborts_parse (parser_of no_title_info_book)
                  [] no_title_info_book eq_refl)).
  apply (title_info_none None no_title_info_book I). reflexivity.
Defined.

(* ================================================================== *)
(** ** Metadata *)
(* ================================================================== *)

(** C6 at [blank_book_title].  The [book-title] child holds two spaces,
    so its text is empty after trimming; the parse returns the empty
    title, not the default one. *)
Theorem blank_book_title_is_returned :
  exists bd title_info found t,
    _parse_fb2_content (parser_of blank_book_title) [] = inr bd
    /\ title_info_of None blank_book_title = Some title_info
    /\ first_child None title_info (lit "book-title") = Some found
    /\ text found = Some t
    /\ Py.strip t = []
    /\ title bd = []
    /\ title bd <> UNTITLED.
Proof.
  eexists. eexists. eexists. eexists.
  repeat (split; [reflexivity|]). discriminate.
Qed.

(** C7, as stated, fails: in [two_lang_book] the [title-info] has a
    [lang] child with the text ["en"], but an empty [lang] stands before
    it; the language is ["ru"], not ["en"]. *)
Lemma later_lang_is_ignored :
  exists bd c t,
    _parse_fb2_content (parser_of two_lang_book) [] = inr bd
    /\ root_namespace two_lang_book = None
    /\ title_info_of None two_lang_book = Some two_lang_title_info
    /\ In c (children two_lang_title_info)
    /\ named None (lit "lang") c = true
    /\ text c = Some t
    /\ t <> []
    /\ Py.strip t = lit "en"
    /\ language (additional bd) = lit "ru"
    /\ language (additional bd) <> Py.strip t.
Proof.
  eexists. exists (leaf (lit "lang") (lit "en")). eexists.
  split; [reflexivity|]. split; [reflexivity|]. split; [reflexivity|].
  split; [right; right; left; reflexivity|].
  split; [reflexivity|]. split; [reflexivity|]. split; [discriminate|].
  split; [reflexivity|]. split; [reflexivity | discriminate].
Qed.

(** C7, amended.  When the parse succeeds, the language is decided by
    the first [lang] child of [title-info] alone: it is ["ru"] if there
    is no [lang] child, or if the first one has no text; and if the first
    one has a text that is not empty, the language is that text without
    the whitespace at its two ends, whatever [lang] children follow. *)
Theorem language_of_first_lang
    (fromstring : list Byte.byte -> result Element)
    (file_content : list Byte.byte) (bd : book_data) :
  _parse_fb2_content fromstring file_content = inr bd ->
  exists root title_info,
    fromstring file_content = inr root
    /\ let namespace := root_namespace root in
       title_info_of namespace root = Some title_info
       /\ (no_child_named namespace title_info (lit "lang") ->
           language (additional bd) = lit "ru")
       /\ (forall c,
             first_named namespace title_info (lit "lang") c ->
             (text c = None \/ text c = Some []) ->
             language (additional bd) = lit "ru")
       /\ (forall c t,
             first_named namespace title_info (lit "lang") c ->
             text c = Some t -> t <> [] ->
             language (additional bd) = Py.strip t
             /\ trimmed_of t (language (additional bd))).
Proof.
  intros Hp. destruct (parse_metadata _ _ _ Hp)
    as (root & ti & Hf & Hti & _ & _ & ->).
  exists root, ti. split; [exact Hf|]. cbv zeta. split; [exact Hti|].
  assert (Hl : In (lit "lang")
                 [lit "book-title"; lit "lang"; lit "genre"; lit "first-name";
                  lit "last-name"; lit "middle-name"]) by (simpl; auto).
  destruct (find_text_cases (root_namespace root) ti (lit "lang") (lit "ru")
              (root_namespace_brace_free root) Hl)
    as (Hnone & Hempty & Hsome).
  split; [exact Hnone|]. split; [exact Hempty|].
  intros c t Hc Htext Hne. rewrite (Hsome c t Hc Htext Hne).
  split; [reflexivity | apply strip_trimmed].
Qed.

(** [gap_book] has no [lang] child and gets ["ru"]; in [sample_book]
    the first [lang] child holds ["en "] and the language is ["en"]. *)
Lemma language_of_first_lang_witness :
  (exists bd,
     _parse_fb2_content (parser_of gap_book) [] = inr bd
     /\ language (additional bd) = lit "ru")
  /\ (exists bd,
        _parse_fb2_content (parser_of sample_book) [] = inr bd
        /\ language (additional bd) = lit "en"
        /\ trimmed_of (lit "en ") (language (additional bd))).
Proof.
  split.
  - eexists. split; [reflexivity|].
    destruct (language_of_first_lang (parser_of gap_book) [] _ eq_refl)
      as (root & ti & Hf & Hti & Hnone & _).
    injection Hf as <-. vm_compute in Hti. injection Hti as <-.
    apply Hnone. repeat constructor.
  - eexists. split; [reflexivity|]. split; [reflexivity|].
    destruct (language_of_first_lang (parser_of sample_book) [] _ eq_refl)
      as (root & ti & Hf & Hti & _ & _ & Hsome).
    injection Hf as <-. vm_compute in Hti. injection Hti as <-.
    apply (Hsome (leaf (fb (lit "lang")) (lit "en ")) (lit "en ")).
    + exists [ leaf (fb (lit "genre")) (lit "sf");
               leaf (fb (lit "genre")) (lit " sf ");
               leaf (fb (lit "book-title")) (lit " Sample ") ], [].
      split; [reflexivity|]. split; [repeat constructor | reflexivity].
    + reflexivity.
    + discriminate.
Defined.

(** C8, as stated, fails: at [nested_genre_book] a [genre] sits one level
    below a child of [title-info]; the specification's reading gives
    ["sf deep"], the parse gives ["sf"]. *)
Lemma nested_genre_is_skipped :
  exists bd,
    _parse_fb2_content (parser_of nested_genre_book) [] = inr bd
    /\ title_info_of None nested_genre_book = Some nested_genre_title_info
    /\ spec_genres None nested_genre_title_info = lit "sf deep"
    /\ genres (additional bd) = lit "sf"
    /\ genres (additional bd) <> spec_genres None nested_genre_title_info.
Proof.
  eexists. repeat (split; [reflexivity|]). discriminate.
Qed.

(** C8, amended.  When the parse succeeds, the genres are the trimmed
    texts of the [genre] elements that are children of [title-info] and
    have text, in document order, duplicates kept, joined by single
    spaces. *)
Theorem genres_of_child_elements
    (fromstring : list Byte.byte -> result Element)
    (file_content : list Byte.byte) (bd : book_data) :
  _parse_fb2_content fromstring file_content = inr bd ->
  exists root title_info,
    fromstring file_content = inr root
    /\ let namespace := root_namespace root in
       title_info_of namespace root = Some title_info
       /\ genres (additional bd)
          = Py.join (lit " ")
              (stripped_texts
                 (filter (named namespace (lit "genre"))
                    (children title_info))).
Proof.
  intros Hp. destruct (parse_metadata _ _ _ Hp)
    as (root & ti & Hf & Hti & _ & -> & _).
  exists root, ti. split; [exact Hf|]. cbv zeta. split; [exact Hti|].
  unfold find_all_text. rewrite findall_fb_path by (simpl; auto).
  rewrite (filter_named _ (lit "genre") _ (root_namespace_brace_free root)
             eq_refl).
  reflexivity.
Qed.

(** At [sample_book] the two [genre] children give ["sf sf"]. *)
Lemma genres_of_child_elements_witness :
  exists root title_info,
    parser_of sample_book [] = inr root
    /\ let namespace := root_namespace root in
       title_info_of namespace root = Some title_info
       /\ lit "sf sf"
          = Py.join (lit " ")
              (stripped_texts
                 (filter (named namespace (lit "genre"))
                    (children title_info))).
Proof.
  exact (genres_of_child_elements (parser_of sample_book) [] _ eq_refl).
Defined.

(* ================================================================== *)
(** ** Several bodies *)
(* ================================================================== *)

(** C10, as stated, fails: in [nested_body_book] the second [body] in
    document order lies inside the first, which has no child section; the
    section inside the second [body] is a candidate and becomes a
    chapter. *)
Lemma nested_body_section_is_emitted :
  exists first second s,
    find_at nested_body_book (lit ".//body") None = Some ([1], first)
    /\ subtree nested_body_book [1; 0] = Some second
    /\ tag second = lit "body"
    /\ doc_lt [1] [1; 0]
    /\ within [1; 0] [1; 0; 0]
    /\ subtree nested_body_book [1; 0; 0] = Some s
    /\ tag s = lit "section"
    /\ In ([1; 0; 0], s) (candidates_at None nested_body_book)
    /\ _extract_fb2_chapters nested_body_book None
       = [ {| ch_title := CHAPTER_PREFIX ++ Py.of_nat 1;
              ch_content := lit "Notes";
              ch_order := 1 |} ].
Proof.
  eexists. eexists. eexists.
  repeat (split; [reflexivity|]).
  split; [exists [0]; reflexivity|].
  repeat (split; [reflexivity|]).
  split; [left; reflexivity | reflexivity].
Qed.

(** C10, amended.  The [body] looked up is the first one below the root
    in document order; every candidate section lies strictly below it;
    so for a later [body] that does not itself lie inside the first one,
    no section inside it is a candidate, and the chapters come from the
    candidates only. *)
Theorem only_first_body_contributes (root : Element) (pb : path)
    (first : Element) :
  let namespace := root_namespace root in
  find_at root (if_ns namespace (lit ".//fb:body") (lit ".//body")) namespace
  = Some (pb, first) ->
  let is_body e := named namespace (lit "body") e = true in
  let found := candidates_at namespace root in
  (subtree root pb = Some first
   /\ is_body first
   /\ forall q other,
        q <> [] -> subtree root q = Some other -> is_body other ->
        q = pb \/ doc_lt pb q)
  /\ _extract_fb2_chapters root namespace
     = process_sections namespace 1 (map snd found)
  /\ (forall r s, In (r, s) found -> below pb r /\ subtree root r = Some s)
  /\ (forall q other,
        subtree root q = Some other -> is_body other ->
        doc_lt pb q -> ~ within pb q ->
        forall r s, within q r -> ~ In (r, s) found).
Proof.
  cbv zeta. intros Hfind.
  pose proof (root_namespace_brace_free root) as Hns.
  set (namespace := root_namespace root) in *.
  assert (Hbody : forall e, has_tag (qname namespace (lit "body")) e
                            = named namespace (lit "body") e)
    by (intros e; apply has_tag_named; [exact Hns | reflexivity]).
  destruct (find_at_first namespace root (lit "body") pb first Hfind)
    as (_ & Hsub & Htag & Hfirst).
  split.
  - split; [exact Hsub|]. split; [rewrite <- Hbody; exact Htag|].
    intros q other Hq Hs Hb. apply (Hfirst q other Hq Hs).
    rewrite Hbody. exact Hb.
  - split; [rewrite candidates_at_erase; apply extract_chapters_candidates|].
    split.
    + intros r s Hin.
      destruct (candidates_at_below _ _ _ _ _ _ Hfind Hin) as (Hb & Hs & _).
      auto.
    + intros q other _ _ Hlt Hout r s (t & ->) Hin.
      destruct (candidates_at_below _ _ _ _ _ _ Hfind Hin)
        as ((i & r' & Heq) & _).
      symmetry in Heq.
      destruct (within_comparable _ _ _ _ Heq) as [Hw | (c & ->)].
      * exact (Hout Hw).
      * destruct c as [|j c].
        -- rewrite app_nil_r in Hlt. exact (doc_lt_irrefl _ Hlt).
        -- apply (doc_lt_asym _ _ Hlt). apply doc_lt_below.
           exists j, c. reflexivity.
Qed.

(** In [two_body_book] the section of the notes body, at position
    [[2; 0]], is not a candidate. *)
Lemma only_first_body_contributes_witness :
  ~ In ([2; 0], node (lit "section") [leaf (lit "p") (lit "Notes")])
      (candidates_at None two_body_book).
Proof.
  refine (proj2 (proj2 (proj2
            (only_first_body_contributes two_body_book [1] _ eq_refl)))
            [2] _ eq_refl eq_refl eq_refl _ [2; 0] _ _).
  - intros (c & Hc). discriminate.
  - exists [0]. reflexivity.
Defined.

(* ================================================================== *)
(** ** Chapters as returned *)
(* ================================================================== *)

(** X1.  Every chapter a successful parse returns has a title that is
    not empty and a content that is not empty and neither starts nor
    ends with whitespace, so trimming it again changes nothing. *)
Theorem chapters_are_trimmed
    (fromstring : list Byte.byte -> result Element)
    (file_content : list Byte.byte) (bd : book_data)
    (chs : list chapter_data) (ch : chapter_data) :
  _parse_fb2_content fromstring file_content = inr bd ->
  chapters bd = Some chs ->
  In ch chs ->
  ch_title ch <> []
  /\ clean_edges (ch_content ch)
  /\ Py.strip (ch_content ch) = ch_content ch.
Proof.
  intros Hp Hc Hin.
  destruct (parse_chapters _ _ _ _ Hp Hc) as (root & _ & ->).
  apply in_process_sections in Hin. destruct Hin as (k & s & _ & Hproc).
  split; [apply (process_section_title _ _ _ _ Hproc)|].
  pose proof (process_section_fields _ _ _ _ Hproc) as [_ ->].
  assert (Hclean : clean_edges (section_content (root_namespace root) s)).
  { apply section_content_clean. apply process_some_iff with (order := 1 + k).
    eauto. }
  split; [exact Hclean | apply clean_edges_strip; exact Hclean].
Qed.

(** The chapter of [sample_book]. *)
Lemma chapters_are_trimmed_witness :
  lit "Intro" <> []
  /\ clean_edges (lit "Hello world.")
  /\ Py.strip (lit "Hello world.") = lit "Hello world.".
Proof.
  exact (chapters_are_trimmed (parser_of sample_book) [] _ _
           {| ch_title := lit "Intro";
              ch_content := lit "Hello world.";
              ch_order := 1 |}
           eq_refl eq_refl (or_introl eq_refl)).
Defined.

Lemma sorted_lt_nodup (l : list nat) : StronglySorted lt l -> NoDup l.
Proof.
  induction 1 as [|a l Hs IH Ha]; constructor; [|exact IH].
  intros Hin. rewrite Forall_forall in Ha. specialize (Ha a Hin). lia.
Qed.

(** X2.  In the chapters of a successful parse no order occurs twice: the
    orders are pairwise distinct, two chapters with the same order are
    the same chapter, and there are no more chapters than candidate
    sections. *)
Theorem order_identifies_chapter
    (fromstring : list Byte.byte -> result Element)
    (file_content : list Byte.byte) (bd : book_data)
    (chs : list chapter_data) :
  _parse_fb2_content fromstring file_content = inr bd ->
  chapters bd = Some chs ->
  NoDup (map ch_order chs)
  /\ (forall c1 c2,
        In c1 chs -> In c2 chs -> ch_order c1 = ch_order c2 -> c1 = c2)
  /\ exists root,
       fromstring file_content = inr root
       /\ length chs <= length (candidates (root_namespace root) root).
Proof.
  intros Hp Hc.
  destruct (parse_chapters _ _ _ _ Hp Hc) as (root & Hf & ->).
  split; [apply sorted_lt_nodup, process_sections_increasing|]. split.
  - intros c1 c2 H1 H2 Ho.
    apply in_process_sections in H1, H2.
    destruct H1 as (k1 & s1 & Hk1 & Hp1), H2 as (k2 & s2 & Hk2 & Hp2).
    pose proof (process_section_fields _ _ _ _ Hp1) as [Ho1 _].
    pose proof (process_section_fields _ _ _ _ Hp2) as [Ho2 _].
    assert (k1 = k2) by lia. subst k2.
    assert (s1 = s2) by congruence. subst s2. congruence.
  - exists root. split; [exact Hf|].
    rewrite <- candidates_at_erase. apply process_sections_length.
Qed.

(** The orders of [gap_book]: one chapter, numbered 2. *)
Lemma order_identifies_chapter_witness : NoDup [2].
Proof.
  exact (proj1 (order_identifies_chapter (parser_of gap_book) [] _ _
                  eq_refl eq_refl)).
Defined.

(* ================================================================== *)
(** ** Outcomes of the parser and of the upload *)
(* ================================================================== *)

Lemma parse_failure_value_error
    (fromstring : list Byte.byte -> result Element)
    (file_content : list Byte.byte) (e : exn) :
  _parse_fb2_content fromstring file_content = inl e ->
  exists cause,
    e = reraise cause
    /\ (e = ValueError (MSG_XML ++ exn_str cause)
        \/ e = ValueError (MSG_PARSING ++ exn_str cause)).
Proof.
  unfold _parse_fb2_content, try_except.
  destruct (bind _ _) as [cause|bd]; [|discriminate].
  intros H. injection H as <-. exists cause. split; [reflexivity|].
  destruct cause; simpl; auto.
Qed.

(** X3.  The parse succeeds exactly when the XML parser returns a tree
    that has a [title-info] element and a [body] element below its root;
    once the validator has passed, the metadata extractor cannot fail.
    When the parse fails the exception is a [ValueError], whatever was
    raised inside. *)
Theorem parse_succeeds_iff
    (fromstring : list Byte.byte -> result Element)
    (file_content : list Byte.byte) :
  ((exists bd, _parse_fb2_content fromstring file_content = inr bd)
   <-> exists root,
         fromstring file_content = inr root
         /\ ~ lacks (root_namespace root) root (lit "title-info")
         /\ ~ lacks (root_namespace root) root (lit "body"))
  /\ (forall e,
        _parse_fb2_content fromstring file_content = inl e ->
        exists m, e = ValueError m).
Proof.
  split.
  - split.
    + intros (bd & Hp). apply parse_content_inr in Hp.
      destruct Hp as (root & Hf & Hp). apply parse_tree_inr in Hp.
      destruct Hp as (ti & body & meta & Hti & Hb & _).
      pose proof (root_namespace_brace_free root) as Hns.
      exists root. split; [exact Hf|]. split; intros H.
      * apply (title_info_none _ _ Hns) in H. congruence.
      * apply (body_none _ _ Hns) in H. congruence.
    + intros (root & Hf & Hti & Hb).
      pose proof (root_namespace_brace_free root) as Hns.
      rewrite (parse_content_root _ _ _ Hf).
      unfold parse_tree. rewrite validate_cases.
      destruct (title_info_of (root_namespace root) root) as [ti|] eqn:Eti;
        [|apply (title_info_none _ _ Hns) in Eti; contradiction].
      destruct (body_of (root_namespace root) root) as [body|] eqn:Eb;
        [|apply (body_none _ _ Hns) in Eb; contradiction].
      unfold _extract_fb2_metadata. unfold title_info_of in Eti.
      rewrite Eti. simpl. eauto.
  - intros e He. apply parse_failure_value_error in He.
    destruct He as (cause & _ & [-> | ->]); eauto.
Qed.

(** [sample_book] has both elements and is parsed. *)
Lemma parse_succeeds_iff_witness :
  exists bd, _parse_fb2_content (parser_of sample_book) [] = inr bd.
Proof.
  apply (proj1 (parse_succeeds_iff (parser_of sample_book) [])).
  exists sample_book. split; [reflexivity|].
  pose proof (root_namespace_brace_free sample_book) as Hns.
  split; intros H.
  - apply (title_info_none _ _ Hns) in H. discriminate.
  - apply (body_none _ _ Hns) in H. discriminate.
Defined.

(** X4.  An upload either reaches the storing part, and then with a file
    whose lower-cased name ends in [.fb2], the bytes read from it and the
    record parsed from them; or it leaves the database as it was and is
    answered with 400 or 500.  The answer is 500 exactly when reading
    [request.FILES] or the file raised something other than a
    [ValueError]; a failure of the parser is always answered with 400
    and its message. *)
Theorem upload_stores_or_rejects
    (fromstring : list Byte.byte -> result Element) (lower : str -> str)
    (DB : Type)
    (store : uploaded_file -> list Byte.byte -> book_data -> DB
             -> response * DB)
    (files : result (option uploaded_file)) (db : DB) :
  let answer := upload_fb2 fromstring lower store files db in
  let accepted uploaded :=
    files = inr (Some uploaded)
    /\ Py.endswith (lower (upload_name uploaded)) (lit ".fb2") = true in
  let raised e :=
    files = inl e
    \/ exists uploaded, accepted uploaded /\ upload_read uploaded = inl e in
  (exists uploaded file_content bd,
     accepted uploaded
     /\ upload_read uploaded = inr file_content
     /\ _parse_fb2_content fromstring file_content = inr bd
     /\ answer = store uploaded file_content bd db)
  \/ (snd answer = db
      /\ (status (fst answer) = 400 \/ status (fst answer) = 500)
      /\ (status (fst answer) = 500
          <-> exists e, raised e /\ is_value_error e = false)
      /\ forall uploaded file_content e,
           accepted uploaded ->
           upload_read uploaded = inr file_content ->
           _parse_fb2_content fromstring file_content = inl e ->
           status (fst answer) = 400
           /\ error (fst answer) = Some (MSG_FORMAT ++ exn_str e)).
Proof.
  cbv zeta. unfold upload_fb2.
  destruct files as [e|[u|]].
  - right. split; [reflexivity|]. split; [destruct e; simpl; auto|]. split.
    + split.
      * intros H. exists e. split; [left; reflexivity|].
        destruct e; [discriminate H | reflexivity | reflexivity].
      * intros (e' & [He | (u & (Hu & _) & _)] & Hv); [|discriminate].
        injection He as <-. destruct e; [discriminate | reflexivity ..].
    + intros u c e' (Hu & _). discriminate.
  - destruct (Py.endswith (lower (upload_name u)) (lit ".fb2")) eqn:Eext;
      cbn [negb].
    + destruct (upload_read u) as [e|content] eqn:Er.
      * right. split; [reflexivity|].
        split; [destruct e; simpl; auto|]. split.
        -- split.
           ++ intros H. exists e. split.
              ** right. exists u. auto.
              ** destruct e; [discriminate H | reflexivity | reflexivity].
           ++ intros (e' & [He | (u' & (Hu & _) & Hr)] & Hv);
                [discriminate|].
              injection Hu as <-. rewrite Er in Hr. injection Hr as <-.
              destruct e; [discriminate | reflexivity ..].
        -- intros u' c e' (Hu & _) Hr. injection Hu as <-.
           rewrite Er in Hr. discriminate.
      * destruct (_parse_fb2_content fromstring content) as [e|bd] eqn:Ep.
        -- right. split; [reflexivity|].
           destruct (parse_failure_value_error _ _ _ Ep)
             as (cause & _ & Hcause).
           assert (Hv : exists m, e = ValueError m)
             by (destruct Hcause as [-> | ->]; eauto).
           destruct Hv as (m & ->). cbn [answer_exception fst status error].
           split; [auto|]. split.
           ++ split; [discriminate|].
              intros (e' & [He | (u' & (Hu & _) & Hr)] & _); [discriminate|].
              injection Hu as <-. rewrite Er in Hr. discriminate.
           ++ intros u' c e' (Hu & _) Hr He. injection Hu as <-.
              rewrite Er in Hr. injection Hr as <-.
              rewrite Ep in He. injection He as <-. auto.
        -- left. exists u, content, bd. auto.
    + right. split; [reflexivity|]. split; [simpl; auto|]. split.
      * split; [discriminate|].
        intros (e' & [He | (u' & (Hu & Hext) & _)] & _); [discriminate|].
        injection Hu as <-. congruence.
      * intros u' c e' (Hu & Hext). injection Hu as <-. congruence.
  - right. split; [reflexivity|]. split; [simpl; auto|]. split.
    + split; [discriminate|].
      intros (e' & [He | (u' & (Hu & _) & _)] & _); discriminate.
    + intros u' c e' (Hu & _). discriminate.
Qed.

(** The file [book.fb2] with the bytes of [no_body_book] is answered with
    400 and the parser's message, and nothing is stored. *)
Lemma upload_stores_or_rejects_witness :
  status
    (fst (upload_fb2 (parser_of no_body_book) (fun s => s) count_stored
            (inr (Some (mkUpload (lit "book.fb2") (inr [])))) 0)) = 400.
Proof.
  destruct (upload_stores_or_rejects (parser_of no_body_book) (fun s => s)
              nat count_stored
              (inr (Some (mkUpload (lit "book.fb2") (inr [])))) 0)
    as [(u & c & bd & (Hu & _) & Hr & Hp & _) | (_ & _ & _ & H)].
  - exfalso. injection Hu as <-. injection Hr as <-. discriminate Hp.
  - apply (H (mkUpload (lit "book.fb2") (inr [])) []
             (ValueError (MSG_PARSING ++ MSG_MISSING ++ lit "body"))).
    + split; reflexivity.
    + reflexivity.
    + reflexivity.
Defined.

(* ================================================================== *)
(** ** The namespace of the root *)
(* ================================================================== *)

Lemma find_char_app (c : Py.char) (pre post : str) :
  ~ In c pre -> Py.find_char c (pre ++ c :: post) = Some (length pre).
Proof.
  induction pre as [|a pre IH]; simpl; intros H.
  - unfold Py.char_eqb. rewrite N.eqb_refl. reflexivity.
  - destruct (Py.char_eqb a c) eqn:E.
    + apply char_eqb_eq in E. tauto.
    + rewrite IH by tauto. reflexivity.
Qed.

Lemma root_namespace_clark (uri local : str) (x tl : option str)
    (cs : list Element) :
  ~ In 125%N uri ->
  root_namespace (mkElement (qname (Some uri) local) x tl cs) = Some uri.
Proof.
  intros Hno. unfold root_namespace. simpl.
  rewrite (find_char_app 125%N uri local Hno). simpl.
  unfold Py.slice. simpl. rewrite Nat.sub_0_r.
  rewrite firstn_app, Nat.sub_diag, firstn_all. simpl.
  rewrite app_nil_r. reflexivity.
Qed.

(** X5.  For a root whose tag is the Clark name [{uri}local], with no
    closing brace inside [uri], the namespace resolved from the tag is
    [uri], and names qualified with it get their Clark form back; a root
    whose tag does not start with a brace gives the empty dictionary. *)
Theorem root_namespace_of_clark_name (uri local : str) (x tl : option str)
    (cs : list Element) :
  ~ In 125%N uri ->
  root_namespace (mkElement (qname (Some uri) local) x tl cs) = Some uri
  /\ (forall name,
        qname (root_namespace (mkElement (qname (Some uri) local) x tl cs))
          name
        = lit "{" ++ uri ++ lit "}" ++ name)
  /\ (forall t,
        Py.startswith t (lit "{") = false ->
        root_namespace (mkElement t x tl cs) = None).
Proof.
  intros Hno.
  pose proof (root_namespace_clark uri local x tl cs Hno) as H.
  split; [exact H|]. split.
  - intros name. rewrite H. reflexivity.
  - intros t Ht. unfold root_namespace. cbn [tag]. rewrite Ht. reflexivity.
Qed.

(** The root of [sample_book]. *)
Lemma root_namespace_of_clark_name_witness :
  root_namespace sample_book = Some FB2_NS.
Proof.
  apply (root_namespace_of_clark_name FB2_NS (lit "FictionBook")).
  vm_compute. intuition discriminate.
Defined.

(* ================================================================== *)
(** ** A document and its namespaced twin *)
(* ================================================================== *)

Lemma qualify_tag (uri : str) (e : Element) :
  tag (qualify uri e) = qname (Some uri) (tag e).
Proof. destruct e; reflexivity. Qed.

Lemma qualify_text (uri : str) (e : Element) : text (qualify uri e) = text e.
Proof. destruct e; reflexivity. Qed.

Lemma qualify_tail (uri : str) (e : Element) : tail (qualify uri e) = tail e.
Proof. destruct e; reflexivity. Qed.

Lemma qualify_children (uri : str) (e : Element) :
  children (qualify uri e) = map (qualify uri) (children e).
Proof. destruct e; reflexivity. Qed.

Lemma flat_map_map {A B C : Type} (g : A -> B) (f : B -> list C)
    (l : list A) :
  flat_map f (map g l) = flat_map (fun a => f (g a)) l.
Proof. induction l as [|a l IH]; simpl; [|rewrite IH]; reflexivity. Qed.

Lemma map_flat_map {A B C : Type} (f : A -> list B) (g : B -> C)
    (l : list A) :
  map g (flat_map f l) = flat_map (fun a => map g (f a)) l.
Proof.
  induction l as [|a l IH]; simpl; [|rewrite map_app, IH]; reflexivity.
Qed.

Lemma flat_map_ext_in {A B : Type} (f g : A -> list B) (l : list A) :
  Forall (fun a => f a = g a) l -> flat_map f l = flat_map g l.
Proof.
  induction 1 as [|a l Ha _ IH]; simpl; [|rewrite Ha, IH]; reflexivity.
Qed.

Lemma iter_qualify (uri : str) (e : Element) :
  iter (qualify uri e) = map (qualify uri) (iter e).
Proof.
  induction e as [t x tl cs IH] using Element_ind. simpl. f_equal.
  rewrite flat_map_map, map_flat_map. apply flat_map_ext_in. exact IH.
Qed.

Lemma itertext_qualify (uri : str) (e : Element) :
  itertext (qualify uri e) = itertext e.
Proof.
  induction e as [t x tl cs IH] using Element_ind. simpl. f_equal.
  rewrite flat_map_map. apply flat_map_ext_in.
  eapply Forall_impl; [|exact IH]. simpl. intros c Hc.
  rewrite Hc, qualify_tail. reflexivity.
Qed.

Lemma full_text_qualify (uri : str) (e : Element) :
  full_text (qualify uri e) = full_text e.
Proof. unfold full_text. rewrite itertext_qualify. reflexivity. Qed.

Lemma eqb_app (pre s t : str) : Py.eqb (pre ++ s) (pre ++ t) = Py.eqb s t.
Proof.
  induction pre as [|a pre IH]; simpl; [reflexivity|].
  unfold Py.char_eqb. rewrite N.eqb_refl. exact IH.
Qed.

Lemma endswith_app_char (s : str) (c : Py.char) :
  Py.endswith (s ++ [c]) [c] = true.
Proof.
  unfold Py.endswith. rewrite rev_app_distr. simpl.
  unfold Py.char_eqb. rewrite N.eqb_refl. reflexivity.
Qed.

Lemma endswith_prefixed (pre t : str) (a c : Py.char) :
  a <> c ->
  Py.endswith ((pre ++ [a]) ++ t) [c] = Py.endswith t [c].
Proof.
  intros Hac. unfold Py.endswith. rewrite !rev_app_distr. simpl.
  destruct (rev t) as [|b r]; simpl; [|reflexivity].
  destruct (Py.char_eqb a c) eqn:E; simpl; [|reflexivity].
  apply char_eqb_eq in E. contradiction.
Qed.

(** The second clause of the paragraph test never decides: a child is
    kept exactly when its tag ends with the letter p. *)
Lemma is_paragraph_endswith (namespace : prefix_map) (child : Element) :
  is_paragraph namespace child = Py.endswith (tag child) (lit "p").
Proof.
  unfold is_paragraph.
  destruct (Py.endswith (tag child) (lit "p")) eqn:E; [reflexivity|].
  destruct namespace as [uri|]; [|reflexivity].
  cbn [orb].
  destruct (Py.eqb (tag child) (lit "{" ++ uri ++ lit "}p")) eqn:Et;
    [|reflexivity].
  apply eqb_eq in Et. rewrite Et in E.
  assert (X : lit "{" ++ uri ++ lit "}p"
              = (lit "{" ++ uri ++ lit "}") ++ [112%N])
    by (simpl; rewrite <- app_assoc; reflexivity).
  rewrite X, endswith_app_char in E. discriminate.
Qed.

Lemma is_paragraph_qualify (uri : str) (c : Element) :
  is_paragraph (Some uri) (qualify uri c) = is_paragraph None c.
Proof.
  rewrite !is_paragraph_endswith, qualify_tag. unfold qname.
  change (lit "{" ++ uri ++ lit "}" ++ tag c)
    with (123%N :: uri ++ 125%N :: tag c).
  replace (123%N :: uri ++ 125%N :: tag c)
    with (((123%N :: uri) ++ [125%N]) ++ tag c)
    by (simpl; rewrite <- app_assoc; reflexivity).
  apply endswith_prefixed. discriminate.
Qed.

Section Twin.

(** A namespace URI as a document can declare it: no closing brace
    inside, not empty, not the wildcard. *)
Variable uri : str.
Hypothesis uri_brace_free : ~ In 125%N uri.
Hypothesis uri_not_empty : uri <> [].
Hypothesis uri_not_star : uri <> lit "*".

Lemma has_tag_qualify (name : str) (e : Element) :
  plain name = true ->
  has_tag (qname (Some uri) name) (qualify uri e) = has_tag name e.
Proof.
  intros Hp.
  rewrite (has_tag_named (Some uri) name _ uri_brace_free Hp).
  unfold named, has_tag. rewrite (tag_selects_plain _ _ Hp).
  destruct (Py.eqb uri (lit "*")) eqn:E;
    [apply eqb_eq in E; contradiction|].
  destruct uri as [|a u] eqn:Eu; [contradiction|]. cbn [Py.truthy].
  rewrite qualify_tag. unfold qname.
  rewrite !app_assoc. apply eqb_app.
Qed.

Lemma select_qualify (ax : axis) (e : Element) :
  select ax (qualify uri e) = map (qualify uri) (select ax e).
Proof.
  destruct ax; simpl; rewrite qualify_children; [reflexivity|].
  rewrite flat_map_map, map_flat_map. apply flat_map_ext.
  intros c. apply iter_qualify.
Qed.

Lemma filter_qualify (name : str) (l : list Element) :
  plain name = true ->
  filter (has_tag (qname (Some uri) name)) (map (qualify uri) l)
  = map (qualify uri) (filter (has_tag name) l).
Proof.
  intros Hp. rewrite filter_map_swap. f_equal. apply filter_ext.
  intros c. apply has_tag_qualify. exact Hp.
Qed.

(** A descendant step finds the twins of what it finds in the bare
    document. *)
Lemma findall_descendant_qualify (e : Element) (local : str) :
  plain local = true ->
  findall (qualify uri e)
    (if_ns (Some uri) (lit ".//fb:" ++ local) (lit ".//" ++ local)) (Some uri)
  = map (qualify uri)
      (findall e (if_ns None (lit ".//fb:" ++ local) (lit ".//" ++ local))
         None).
Proof.
  intros Hp. rewrite !findall_descendant.
  change (flat_map iter (children (qualify uri e)))
    with (select Descendant (qualify uri e)).
  rewrite select_qualify. apply filter_qualify. exact Hp.
Qed.

Lemma findall_child_qualify (e : Element) (c : Py.char) (local : str) :
  c <> 47%N -> plain (c :: local) = true ->
  findall (qualify uri e)
    (if_ns (Some uri) (lit "./fb:" ++ c :: local) (lit "./" ++ c :: local))
    (Some uri)
  = map (qualify uri)
      (findall e
         (if_ns None (lit "./fb:" ++ c :: local) (lit "./" ++ c :: local))
         None).
Proof.
  intros Hc Hp. rewrite !findall_child by exact Hc.
  rewrite qualify_children. apply filter_qualify. exact Hp.
Qed.

Lemma findall_fb_path_qualify (e : Element) (local : str) :
  In local [lit "book-title"; lit "lang"; lit "genre"; lit "first-name";
            lit "last-name"; lit "middle-name"] ->
  findall (qualify uri e) (fb_path (Some uri) local) (Some uri)
  = map (qualify uri) (findall e (fb_path None local) None).
Proof.
  intros H. rewrite !findall_fb_path by exact H.
  rewrite qualify_children. apply filter_qualify.
  apply child_names_plain. exact H.
Qed.

Lemma stripped_texts_qualify (l : list Element) :
  stripped_texts (map (qualify uri) l) = stripped_texts l.
Proof.
  unfold stripped_texts. rewrite flat_map_map. apply flat_map_ext.
  intros p. rewrite qualify_text. reflexivity.
Qed.

Lemma find_text_qualify (e : Element) (local default : str) :
  In local [lit "book-title"; lit "lang"; lit "genre"; lit "first-name";
            lit "last-name"; lit "middle-name"] ->
  find_text (Some uri) (qualify uri e) local default
  = find_text None e local default.
Proof.
  intros H. unfold find_text, find.
  rewrite (findall_fb_path_qualify e local H), hd_error_map.
  destruct (hd_error (findall e (fb_path None local) None)) as [found|];
    simpl; [|reflexivity].
  rewrite qualify_text. reflexivity.
Qed.

Lemma find_all_text_qualify (e : Element) :
  find_all_text (Some uri) (qualify uri e) (lit "genre")
  = find_all_text None e (lit "genre").
Proof.
  unfold find_all_text.
  rewrite (findall_fb_path_qualify e (lit "genre")) by (simpl; auto).
  rewrite stripped_texts_qualify. reflexivity.
Qed.

Lemma author_name_qualify (a : Element) :
  author_name (Some uri) (qualify uri a) = author_name None a.
Proof.
  unfold author_name.
  rewrite !find_text_qualify by (simpl; auto 10). reflexivity.
Qed.

Lemma annotation_text_qualify (ti : Element) :
  annotation_text (Some uri) (qualify uri ti) = annotation_text None ti.
Proof.
  unfold annotation_text, find.
  assert (Ha : findall (qualify uri ti)
                 (if_ns (Some uri) (lit ".//fb:annotation")
                    (lit ".//annotation")) (Some uri)
               = map (qualify uri)
                   (findall ti
                      (if_ns None (lit ".//fb:annotation")
                         (lit ".//annotation")) None))
    by exact (findall_descendant_qualify ti (lit "annotation") eq_refl).
  rewrite Ha, hd_error_map.
  destruct (hd_error (findall ti _ None)) as [ann|]; cbn [option_map]; [|reflexivity].
  assert (Hp : findall (qualify uri ann)
                 (if_ns (Some uri) (lit ".//fb:p") (lit ".//p")) (Some uri)
               = map (qualify uri)
                   (findall ann (if_ns None (lit ".//fb:p") (lit ".//p"))
                      None))
    by exact (findall_descendant_qualify ann (lit "p") eq_refl).
  rewrite Hp.
  destruct (findall ann _ None) as [|p ps] eqn:E; cbn [map].
  - rewrite full_text_qualify. reflexivity.
  - change (qualify uri p :: map (qualify uri) ps)
      with (map (qualify uri) (p :: ps)).
    rewrite stripped_texts_qualify. reflexivity.
Qed.

Lemma title_text_qualify (te : Element) :
  title_text (Some uri) (qualify uri te) = title_text None te.
Proof.
  unfold title_text.
  assert (Hp : findall (qualify uri te)
                 (if_ns (Some uri) (lit ".//fb:p") (lit ".//p")) (Some uri)
               = map (qualify uri)
                   (findall te (if_ns None (lit ".//fb:p") (lit ".//p"))
                      None))
    by exact (findall_descendant_qualify te (lit "p") eq_refl).
  rewrite Hp.
  destruct (findall te _ None) as [|p ps] eqn:E; cbn [map].
  - rewrite full_text_qualify. reflexivity.
  - change (qualify uri p :: map (qualify uri) ps)
      with (map (qualify uri) (p :: ps)).
    rewrite stripped_texts_qualify. reflexivity.
Qed.

Lemma section_content_qualify (s : Element) :
  section_content (Some uri) (qualify uri s) = section_content None s.
Proof.
  unfold section_content. rewrite qualify_children.
  rewrite (filter_map_swap (is_paragraph (Some uri)) (qualify uri)), map_map.
  f_equal. f_equal.
  rewrite (filter_ext _ (is_paragraph None) (is_paragraph_qualify uri)).
  apply map_ext. intros p. rewrite full_text_qualify. reflexivity.
Qed.

Lemma process_section_qualify (s : Element) (order : nat) :
  _process_fb2_section (qualify uri s) (Some uri) order
  = _process_fb2_section s None order.
Proof.
  unfold _process_fb2_section, find.
  assert (Ht : findall (qualify uri s)
                 (if_ns (Some uri) (lit "./fb:title") (lit "./title"))
                 (Some uri)
               = map (qualify uri)
                   (findall s (if_ns None (lit "./fb:title") (lit "./title"))
                      None)).
  { apply (findall_child_qualify s 116%N (lit "itle"));
      [discriminate | reflexivity]. }
  rewrite Ht, hd_error_map, section_content_qualify.
  destruct (hd_error (findall s _ None)) as [te|]; cbn [option_map]; [|reflexivity].
  rewrite title_text_qualify. reflexivity.
Qed.

Lemma process_sections_qualify (idx : nat) (l : list Element) :
  process_sections (Some uri) idx (map (qualify uri) l)
  = process_sections None idx l.
Proof.
  revert idx. induction l as [|s l IH]; intros idx; simpl; [reflexivity|].
  rewrite process_section_qualify, IH. reflexivity.
Qed.

Lemma candidate_sections_qualify (body : Element) :
  candidate_sections (Some uri) (qualify uri body)
  = map (qualify uri) (candidate_sections None body).
Proof.
  unfold candidate_sections.
  assert (Hc : findall (qualify uri body)
                 (if_ns (Some uri) (lit "./fb:section") (lit "./section"))
                 (Some uri)
               = map (qualify uri)
                   (findall body
                      (if_ns None (lit "./fb:section") (lit "./section"))
                      None)).
  { apply (findall_child_qualify body 115%N (lit "ection"));
      [discriminate | reflexivity]. }
  assert (Hd : findall (qualify uri body)
                 (if_ns (Some uri) (lit ".//fb:section") (lit ".//section"))
                 (Some uri)
               = map (qualify uri)
                   (findall body
                      (if_ns None (lit ".//fb:section") (lit ".//section"))
                      None))
    by exact (findall_descendant_qualify body (lit "section") eq_refl).
  rewrite Hc, Hd.
  destruct (findall body
              (if_ns None (lit "./fb:section") (lit "./section")) None);
    reflexivity.
Qed.

Lemma find_root_qualify (root : Element) (local : str) :
  plain local = true ->
  find (qualify uri root)
    (if_ns (Some uri) (lit ".//fb:" ++ local) (lit ".//" ++ local)) (Some uri)
  = option_map (qualify uri)
      (find root (if_ns None (lit ".//fb:" ++ local) (lit ".//" ++ local))
         None).
Proof.
  intros Hp. unfold find. rewrite (findall_descendant_qualify _ _ Hp).
  apply hd_error_map.
Qed.

Lemma extract_chapters_qualify (root : Element) :
  _extract_fb2_chapters (qualify uri root) (Some uri)
  = _extract_fb2_chapters root None.
Proof.
  unfold _extract_fb2_chapters.
  assert (Hb : find (qualify uri root)
                 (if_ns (Some uri) (lit ".//fb:body") (lit ".//body"))
                 (Some uri)
               = option_map (qualify uri)
                   (find root
                      (if_ns None (lit ".//fb:body") (lit ".//body")) None))
    by exact (find_root_qualify root (lit "body") eq_refl).
  rewrite Hb. destruct (find root _ None) as [body|]; cbn [option_map]; [|reflexivity].
  rewrite candidate_sections_qualify. apply process_sections_qualify.
Qed.

Lemma validate_qualify (root : Element) :
  _validate_fb2_structure (qualify uri root) (Some uri)
  = _validate_fb2_structure root None.
Proof.
  rewrite !validate_cases. unfold title_info_of, body_of.
  assert (Ht : find (qualify uri root)
                 (if_ns (Some uri) (lit ".//fb:title-info")
                    (lit ".//title-info")) (Some uri)
               = option_map (qualify uri)
                   (find root
                      (if_ns None (lit ".//fb:title-info")
                         (lit ".//title-info")) None))
    by exact (find_root_qualify root (lit "title-info") eq_refl).
  assert (Hb : find (qualify uri root)
                 (if_ns (Some uri) (lit ".//fb:body") (lit ".//body"))
                 (Some uri)
               = option_map (qualify uri)
                   (find root
                      (if_ns None (lit ".//fb:body") (lit ".//body")) None))
    by exact (find_root_qualify root (lit "body") eq_refl).
  rewrite Ht, Hb.
  destruct (find root
              (if_ns None (lit ".//fb:title-info") (lit ".//title-info"))
              None); cbn [option_map]; [|reflexivity].
  destruct (find root (if_ns None (lit ".//fb:body") (lit ".//body")) None);
    reflexivity.
Qed.

Lemma metadata_qualify (root : Element) :
  _extract_fb2_metadata (qualify uri root) (Some uri)
  = _extract_fb2_metadata root None.
Proof.
  unfold _extract_fb2_metadata.
  assert (Ht : find (qualify uri root)
                 (if_ns (Some uri) (lit ".//fb:title-info")
                    (lit ".//title-info")) (Some uri)
               = option_map (qualify uri)
                   (find root
                      (if_ns None (lit ".//fb:title-info")
                         (lit ".//title-info")) None))
    by exact (find_root_qualify root (lit "title-info") eq_refl).
  rewrite Ht.
  destruct (find root _ None) as [ti|]; cbn [option_map]; [|reflexivity].
  assert (Ha : findall (qualify uri ti)
                 (if_ns (Some uri) (lit ".//fb:author") (lit ".//author"))
                 (Some uri)
               = map (qualify uri)
                   (findall ti
                      (if_ns None (lit ".//fb:author") (lit ".//author"))
                      None))
    by exact (findall_descendant_qualify ti (lit "author") eq_refl).
  rewrite Ha, map_map.
  rewrite (map_ext _ _ author_name_qualify).
  rewrite !find_text_qualify by (simpl; auto).
  rewrite find_all_text_qualify, annotation_text_qualify.
  reflexivity.
Qed.

End Twin.

(** X6.  A document without namespace and its twin in a namespace [uri]
    are parsed to the same outcome: the same record with the same
    chapters, or the same exception.  The URI holds no closing brace; it
    is neither empty nor [*], which ElementPath would read as wildcards. *)
Theorem namespace_transparency (uri : str) (root : Element) :
  ~ In 125%N uri -> uri <> [] -> uri <> lit "*" ->
  Py.startswith (tag root) (lit "{") = false ->
  parse_tree (qualify uri root) = parse_tree root
  /\ forall (f1 f2 : list Byte.byte -> result Element) b1 b2,
       f1 b1 = inr (qualify uri root) -> f2 b2 = inr root ->
       _parse_fb2_content f1 b1 = _parse_fb2_content f2 b2.
Proof.
  intros Hno Hne Hstar Hbare.
  assert (Hns : root_namespace (qualify uri root) = Some uri).
  { destruct root as [t x tl cs]. apply root_namespace_clark. exact Hno. }
  assert (Hnone : root_namespace root = None).
  { unfold root_namespace. rewrite Hbare. reflexivity. }
  assert (Htree : parse_tree (qualify uri root) = parse_tree root).
  { unfold parse_tree. rewrite Hns, Hnone.
    rewrite (validate_qualify uri Hno Hne Hstar),
      (metadata_qualify uri Hno Hne Hstar),
      (extract_chapters_qualify uri Hno Hne Hstar).
    reflexivity. }
  split; [exact Htree|].
  intros f1 f2 b1 b2 H1 H2.
  rewrite (parse_content_root _ _ _ H1), (parse_content_root _ _ _ H2), Htree.
  reflexivity.
Qed.

(** [sample_book] is the twin of [bare_sample_book]. *)
Lemma namespace_transparency_witness :
  parse_tree sample_book = parse_tree bare_sample_book.
Proof.
  change sample_book with (qualify FB2_NS bare_sample_book).
  apply (namespace_transparency FB2_NS bare_sample_book).
  - vm_compute. intuition discriminate.
  - discriminate.
  - discriminate.
  - reflexivity.
Defined.

(* ================================================================== *)
(** ** Authors *)
(* ================================================================== *)

Lemma clean_edges_not_nil (s : str) : clean_edges s -> s <> [].
Proof. intros [H _] E. rewrite E in H. exact H. Qed.

Lemma in_findall_descendant (namespace : prefix_map) (e : Element)
    (local : str) (a : Element) :
  brace_free namespace -> plain local = true ->
  In a (findall e
          (if_ns namespace (lit ".//fb:" ++ local) (lit ".//" ++ local))
          namespace)
  <-> exists p, p <> [] /\ subtree e p = Some a
                /\ named namespace local a = true.
Proof.
  intros Hns Hpl.
  rewrite <- findall_at_erase, findall_at_descendant, in_map_iff. split.
  - intros ([p x] & Hx & Hin). simpl in Hx. subst x.
    apply filter_In in Hin. destruct Hin as [Hin Ht].
    apply in_tl_iter_at in Hin. cbn [snd] in Ht.
    rewrite (has_tag_named _ _ _ Hns Hpl) in Ht.
    exists p. tauto.
  - intros (p & Hp & Hs & Ht). exists (p, a). split; [reflexivity|].
    apply filter_In. split.
    + apply in_tl_iter_at. auto.
    + cbn [snd]. rewrite (has_tag_named _ _ _ Hns Hpl). exact Ht.
Qed.

Lemma find_text_blank_default (namespace : prefix_map) (e : Element)
    (local : str) :
  brace_free namespace ->
  In local [lit "book-title"; lit "lang"; lit "genre"; lit "first-name";
            lit "last-name"; lit "middle-name"] ->
  (find_text namespace e local [] <> []
   <-> exists found t,
         first_named namespace e local found
         /\ text found = Some t /\ all_space t = false)
  /\ (find_text namespace e local [] <> [] ->
      clean_edges (find_text namespace e local [])).
Proof.
  intros Hns Hl. pose proof (child_names_plain _ Hl) as Hpl.
  rewrite (find_text_child _ _ _ _ Hl).
  assert (Hsome : forall c,
            first_named namespace e local c
            <-> first_child namespace e local = Some c)
    by (intros c; symmetry; apply first_child_some; assumption).
  destruct (first_child namespace e local) as [found|].
  - assert (Hsame : forall f, first_named namespace e local f -> f = found)
      by (intros f Hf; apply Hsome in Hf; congruence).
    assert (Hfound : first_named namespace e local found)
      by (apply Hsome; reflexivity).
    destruct (text found) as [t|] eqn:Etx.
    + destruct (Py.truthy t) eqn:Et.
      * split.
        -- split.
           ++ intros H. exists found, t.
              split; [exact Hfound|]. split; [exact Etx|].
              destruct (all_space t) eqn:Ea; [|reflexivity].
              apply strip_nil_iff in Ea. contradiction.
           ++ intros (f & t' & Hf & Ht & Ha). apply Hsame in Hf. subst f.
              rewrite Etx in Ht. injection Ht as <-.
              intros E. apply strip_nil_iff in E. congruence.
        -- apply strip_clean_edges.
      * apply truthy_false_iff in Et. subst t. split; [|congruence].
        split; [congruence|].
        intros (f & t' & Hf & Ht & Ha). apply Hsame in Hf. subst f.
        rewrite Etx in Ht. injection Ht as <-. discriminate.
    + split; [|congruence]. split; [congruence|].
      intros (f & t' & Hf & Ht & _). apply Hsame in Hf. subst f.
      rewrite Etx in Ht. discriminate.
  - split; [|congruence]. split; [congruence|].
    intros (f & t' & Hf & _). apply Hsome in Hf. discriminate.
Qed.

Lemma truthy_join_pieces (sep : str) (parts : list str) :
  (forall p, In p parts -> p <> [] -> clean_edges p) ->
  (Py.join sep (filter Py.truthy parts) <> []
   <-> exists p, In p parts /\ p <> [])
  /\ (Py.join sep (filter Py.truthy parts) <> [] ->
      clean_edges (Py.join sep (filter Py.truthy parts))).
Proof.
  intros Hclean.
  assert (Hall : Forall clean_edges (filter Py.truthy parts)).
  { apply Forall_forall. intros p Hp. apply filter_In in Hp.
    destruct Hp as [Hin Ht]. apply Hclean; [exact Hin|].
    apply truthy_true_iff. exact Ht. }
  assert (Hj : filter Py.truthy parts <> [] ->
               clean_edges (Py.join sep (filter Py.truthy parts)))
    by (intros Hne; apply clean_edges_join; assumption).
  split.
  - split.
    + intros H. destruct (filter Py.truthy parts) as [|p rest] eqn:E;
        [contradiction H; reflexivity|].
      assert (Hin : In p (filter Py.truthy parts)) by (rewrite E; left; auto).
      apply filter_In in Hin. destruct Hin as [Hin Ht].
      exists p. split; [exact Hin | apply truthy_true_iff; exact Ht].
    + intros (p & Hin & Hp). apply clean_edges_not_nil, Hj.
      intros E.
      assert (Hf : In p (filter Py.truthy parts)).
      { apply filter_In. split; [exact Hin | apply truthy_true_iff; exact Hp]. }
      rewrite E in Hf. exact Hf.
  - intros H. apply Hj. intros E. rewrite E in H. apply H. reflexivity.
Qed.

Lemma author_name_not_nil (namespace : prefix_map) (author : Element) :
  brace_free namespace ->
  (author_name namespace author <> [] <-> has_name_part namespace author)
  /\ (author_name namespace author <> [] ->
      clean_edges (author_name namespace author)).
Proof.
  intros Hns. unfold author_name.
  set (first_name := find_text namespace author (lit "first-name") []).
  set (last_name := find_text namespace author (lit "last-name") []).
  set (middle_name := find_text namespace author (lit "middle-name") []).
  destruct (find_text_blank_default namespace author (lit "first-name") Hns)
    as [Hf Hfc]; [simpl; auto 10|].
  destruct (find_text_blank_default namespace author (lit "middle-name") Hns)
    as [Hm Hmc]; [simpl; auto 10|].
  destruct (find_text_blank_default namespace author (lit "last-name") Hns)
    as [Hl Hlc]; [simpl; auto 10|].
  fold first_name in Hf, Hfc. fold middle_name in Hm, Hmc.
  fold last_name in Hl, Hlc.
  destruct (truthy_join_pieces (lit " ") [first_name; middle_name; last_name])
    as [Hiff Hc].
  { intros p [<- | [<- | [<- | []]]]; assumption. }
  split; [|exact Hc]. rewrite Hiff. unfold has_name_part. split.
  - intros (p & [<- | [<- | [<- | []]]] & Hp).
    + apply Hf in Hp. destruct Hp as (found & t & H1 & H2 & H3).
      exists (lit "first-name"), found, t. simpl. auto.
    + apply Hm in Hp. destruct Hp as (found & t & H1 & H2 & H3).
      exists (lit "middle-name"), found, t. simpl. auto.
    + apply Hl in Hp. destruct Hp as (found & t & H1 & H2 & H3).
      exists (lit "last-name"), found, t. simpl. auto 6.
  - intros (local & found & t & [<- | [<- | [<- | []]]] & H1 & H2 & H3).
    + exists first_name. split; [simpl; auto|]. apply Hf. eauto.
    + exists middle_name. split; [simpl; auto|]. apply Hm. eauto.
    + exists last_name. split; [simpl; auto|]. apply Hl. eauto.
Qed.

Lemma parse_authors (fromstring : list Byte.byte -> result Element)
    (file_content : list Byte.byte) (bd : book_data) :
  _parse_fb2_content fromstring file_content = inr bd ->
  exists root title_info,
    fromstring file_content = inr root
    /\ title_info_of (root_namespace root) root = Some title_info
    /\ authors (additional bd)
       = match
           filter Py.truthy
             (map (author_name (root_namespace root))
                (findall title_info
                   (if_ns (root_namespace root) (lit ".//fb:author")
                      (lit ".//author")) (root_namespace root)))
         with
         | [] => []
         | n :: names => Py.join (lit ", ") (n :: names)
         end.
Proof.
  intros Hp. apply parse_content_inr in Hp. destruct Hp as (root & Hf & Hp).
  apply parse_tree_inr in Hp.
  destruct Hp as (ti & body & meta & Hti & _ & Hm & ->).
  exists root, ti. split; [exact Hf|]. split; [exact Hti|].
  unfold _extract_fb2_metadata in Hm. unfold title_info_of in Hti.
  rewrite Hti in Hm. injection Hm as <-. simpl.
  destruct (filter Py.truthy _); reflexivity.
Qed.

(** X7.  When the parse succeeds, the authors field is not empty exactly
    when some [author] element below [title-info], at any depth, has a
    first, middle or last name with text in it; and then the field
    neither starts nor ends with whitespace. *)
Theorem authors_present_iff_named
    (fromstring : list Byte.byte -> result Element)
    (file_content : list Byte.byte) (bd : book_data) :
  _parse_fb2_content fromstring file_content = inr bd ->
  exists root title_info,
    fromstring file_content = inr root
    /\ let namespace := root_namespace root in
       title_info_of namespace root = Some title_info
       /\ (authors (additional bd) <> []
           <-> exists p author,
                 p <> [] /\ subtree title_info p = Some author
                 /\ named namespace (lit "author") author = true
                 /\ has_name_part namespace author)
       /\ (authors (additional bd) <> [] ->
           clean_edges (authors (additional bd))).
Proof.
  intros Hp. destruct (parse_authors _ _ _ Hp) as (root & ti & Hf & Hti & ->).
  exists root, ti. split; [exact Hf|]. cbv zeta. split; [exact Hti|].
  pose proof (root_namespace_brace_free root) as Hns.
  set (namespace := root_namespace root) in *.
  set (elements := findall ti _ namespace).
  assert (Hel : forall a,
            In a elements
            <-> exists p, p <> [] /\ subtree ti p = Some a
                          /\ named namespace (lit "author") a = true)
    by (intros a;
        apply (in_findall_descendant namespace ti (lit "author") a Hns
                 eq_refl)).
  destruct (truthy_join_pieces (lit ", ") (map (author_name namespace) elements))
    as [Hiff Hclean].
  { intros n Hn Hne. apply in_map_iff in Hn. destruct Hn as (a & <- & _).
    apply author_name_not_nil; assumption. }
  revert Hiff Hclean.
  destruct (filter Py.truthy (map (author_name namespace) elements))
    as [|n names]; intros Hiff Hclean.
  all: split; [|exact Hclean].
  all: rewrite Hiff; split.
  all: try (intros (n' & Hn & Hne); apply in_map_iff in Hn;
            destruct Hn as (a & <- & Ha); apply Hel in Ha;
            destruct Ha as (p & Hp1 & Hp2 & Hp3);
            exists p, a; repeat split; try assumption;
            apply author_name_not_nil; assumption).
  all: intros (p & a & Hp1 & Hp2 & Hp3 & Hname);
       exists (author_name namespace a); split;
       [apply in_map; apply Hel; eauto
       | apply author_name_not_nil; assumption].
Qed.

(** [authors_book]: the first author has a name, the field is
    ["Leo Tolstoy"]. *)
Lemma authors_present_iff_named_witness :
  exists bd,
    _parse_fb2_content (parser_of authors_book) [] = inr bd
    /\ authors (additional bd) = lit "Leo Tolstoy"
    /\ clean_edges (authors (additional bd)).
Proof.
  eexists. split; [reflexivity|]. split; [reflexivity|].
  destruct (authors_present_iff_named (parser_of authors_book) [] _ eq_refl)
    as (root & ti & _ & _ & _ & Hclean).
  apply Hclean. discriminate.
Defined.

(* ================================================================== *)
(** ** Titles *)
(* ================================================================== *)

Lemma find_title_child (namespace : prefix_map) (section : Element) :
  find section (if_ns namespace (lit "./fb:title") (lit "./title")) namespace
  = first_child namespace section (lit "title").
Proof.
  unfold find, first_child. f_equal.
  apply (findall_child namespace section 116%N (lit "itle")). discriminate.
Qed.

(** X8.  Each chapter of a successful parse comes from the candidate
    section at the index its order names.  If that section has no
    [title] child, or the first one yields the empty string, the title is
    the word for "Chapter" followed by the order in decimal; if it yields
    anything else, that text is the title. *)
Theorem chapter_title_source
    (fromstring : list Byte.byte -> result Element)
    (file_content : list Byte.byte) (bd : book_data)
    (chs : list chapter_data) (ch : chapter_data) :
  _parse_fb2_content fromstring file_content = inr bd ->
  chapters bd = Some chs ->
  In ch chs ->
  exists root k section,
    fromstring file_content = inr root
    /\ let namespace := root_namespace root in
       nth_error (candidates namespace root) k = Some section
       /\ ch_order ch = S k
       /\ (no_child_named namespace section (lit "title") ->
           ch_title ch = CHAPTER_PREFIX ++ Py.of_nat (S k))
       /\ (forall title_elem,
             first_named namespace section (lit "title") title_elem ->
             ch_title ch
             = match title_text namespace title_elem with
               | [] => CHAPTER_PREFIX ++ Py.of_nat (S k)
               | c :: r => c :: r
               end).
Proof.
  intros Hp Hc Hin.
  destruct (parse_chapters _ _ _ _ Hp Hc) as (root & Hf & ->).
  rewrite candidates_at_erase in Hin.
  apply in_process_sections in Hin. destruct Hin as (k & section & Hk & Hproc).
  exists root, k, section. split; [exact Hf|]. cbv zeta.
  pose proof (root_namespace_brace_free root) as Hns.
  split; [exact Hk|].
  split; [apply (process_section_fields _ _ _ _ Hproc)|].
  change (1 + k) with (S k) in Hproc.
  split.
  - intros Hnone.
    apply (first_child_none _ section (lit "title") Hns eq_refl) in Hnone.
    apply (generated_title _ _ _ _ Hproc).
    rewrite find_title_child, Hnone. exact I.
  - intros te Hte.
    apply (first_child_some _ section (lit "title") te Hns eq_refl) in Hte.
    destruct (title_text (root_namespace root) te) as [|c r] eqn:E.
    + apply (generated_title _ _ _ _ Hproc).
      rewrite find_title_child, Hte. exact E.
    + rewrite <- E. apply (kept_title _ _ _ _ te Hproc).
      * rewrite find_title_child. exact Hte.
      * rewrite E. discriminate.
Qed.

(** In [gap_book] the chapter comes from the second candidate, which has
    no title: its title is "Chapter 2" in Russian. *)
Lemma chapter_title_source_witness :
  exists ch,
    _extract_fb2_chapters gap_book None = [ch]
    /\ ch_title ch = CHAPTER_PREFIX ++ lit "2".
Proof.
  eexists. split; [reflexivity|].
  destruct (chapter_title_source (parser_of gap_book) [] _ _ _
              eq_refl eq_refl (or_introl eq_refl))
    as (root & k & section & Hf & Hk & Ho & Hnone & _).
  injection Hf as <-. simpl in Ho. injection Ho as <-.
  vm_compute in Hk. injection Hk as <-.
  apply Hnone. repeat constructor.
Defined.

Lemma untitled_not_nil : UNTITLED <> [].
Proof. discriminate. Qed.

(** X9.  When the parse succeeds, the book title is either the default
    or the trimmed text of the first [book-title] child of [title-info];
    it is the empty string exactly when that child has a text that is not
    empty and holds whitespace only. *)
Theorem book_title_empty_iff_blank_text
    (fromstring : list Byte.byte -> result Element)
    (file_content : list Byte.byte) (bd : book_data) :
  _parse_fb2_content fromstring file_content = inr bd ->
  exists root title_info,
    fromstring file_content = inr root
    /\ let namespace := root_namespace root in
       let first found :=
         first_named namespace title_info (lit "book-title") found in
       title_info_of namespace root = Some title_info
       /\ (title bd = UNTITLED
           \/ exists found t,
                first found /\ text found = Some t /\ t <> []
                /\ title bd = Py.strip t /\ trimmed_of t (title bd))
       /\ (title bd = []
           <-> exists found t,
                 first found /\ text found = Some t /\ t <> []
                 /\ all_space t = true).
Proof.
  intros Hp. destruct (parse_metadata _ _ _ Hp)
    as (root & ti & Hf & Hti & -> & _ & _).
  exists root, ti. split; [exact Hf|]. cbv zeta. split; [exact Hti|].
  pose proof (root_namespace_brace_free root) as Hns.
  rewrite find_text_child by (simpl; auto).
  assert (Hsome : forall c,
            first_named (root_namespace root) ti (lit "book-title") c
            <-> first_child (root_namespace root) ti (lit "book-title")
                = Some c)
    by (intros c; symmetry; apply first_child_some; [exact Hns | reflexivity]).
  destruct (first_child (root_namespace root) ti (lit "book-title"))
    as [found|].
  - assert (Hsame : forall f,
              first_named (root_namespace root) ti (lit "book-title") f ->
              f = found)
      by (intros f Hfd; apply Hsome in Hfd; congruence).
    assert (Hfound :
              first_named (root_namespace root) ti (lit "book-title") found)
      by (apply Hsome; reflexivity).
    destruct (text found) as [t|] eqn:Et.
    + destruct (Py.truthy t) eqn:Etr.
      * apply truthy_true_iff in Etr. split.
        -- right. exists found, t.
           repeat (split; [auto; fail|]). apply strip_trimmed.
        -- rewrite strip_nil_iff. split.
           ++ intros H. exists found, t. auto.
           ++ intros (f & t' & Hfd & Ht & _ & Ha). apply Hsame in Hfd.
              subst f. rewrite Et in Ht. injection Ht as <-. exact Ha.
      * apply truthy_false_iff in Etr. split; [left; reflexivity|].
        split; [intros H; destruct (untitled_not_nil H)|].
        intros (f & t' & Hfd & Ht & Hne & _). apply Hsame in Hfd. subst f.
        rewrite Et in Ht. injection Ht as <-. contradiction.
    + split; [left; reflexivity|].
      split; [intros H; destruct (untitled_not_nil H)|].
      intros (f & t' & Hfd & Ht & _). apply Hsame in Hfd. subst f.
      rewrite Et in Ht. discriminate.
  - split; [left; reflexivity|].
    split; [intros H; destruct (untitled_not_nil H)|].
    intros (f & t' & Hfd & _). apply Hsome in Hfd. discriminate.
Qed.

(** [gap_book] has the title ["Sample"], which is not empty. *)
Lemma book_title_empty_iff_blank_text_witness :
  exists bd,
    _parse_fb2_content (parser_of gap_book) [] = inr bd
    /\ (title bd = UNTITLED
        \/ exists t, t <> [] /\ title bd = Py.strip t).
Proof.
  eexists. split; [reflexivity|].
  destruct (book_title_empty_iff_blank_text (parser_of gap_book) [] _ eq_refl)
    as (root & ti & _ & _ & [H | (found & t & _ & _ & Hne & H & _)] & _).
  - left. exact H.
  - right. exists t. auto.
Defined.

(* ================================================================== *)
(** ** The paragraph test *)
(* ================================================================== *)

Lemma endswith_char_iff (s : str) (c : Py.char) :
  Py.endswith s [c] = true <-> exists pre, s = pre ++ [c].
Proof.
  split.
  - unfold Py.endswith. simpl. destruct (rev s) as [|a r] eqn:E;
      [discriminate|].
    simpl. rewrite andb_true_r. intros H. apply char_eqb_eq in H. subst a.
    exists (rev r). apply (f_equal (@rev Py.char)) in E.
    rewrite rev_involutive in E. simpl in E. exact E.
  - intros (pre & ->). apply endswith_app_char.
Qed.

(** X10.  The loop that collects the content of a section keeps a child
    exactly when its tag ends with the letter p, with or without a
    namespace: the comparison with the Clark name of [p] never decides.
    So every [p] of the document's namespace is kept, and so is any
    other element whose name ends in p; and the content is the same
    whichever namespace dictionary is passed. *)
Theorem paragraph_test_is_suffix_test (namespace : prefix_map) :
  (forall child,
     is_paragraph namespace child = true
     <-> exists pre, tag child = pre ++ lit "p")
  /\ (forall child,
        tag child = qname namespace (lit "p") ->
        is_paragraph namespace child = true)
  /\ (forall section,
        section_content namespace section = section_content None section).
Proof.
  assert (H : forall child,
            is_paragraph namespace child = true
            <-> exists pre, tag child = pre ++ lit "p").
  { intros child. rewrite is_paragraph_endswith.
    apply (endswith_char_iff (tag child) 112%N). }
  split; [exact H|]. split.
  - intros child Ht. apply H. rewrite Ht.
    destruct namespace as [uri|].
    + exists (lit "{" ++ uri ++ lit "}"). simpl.
      rewrite <- app_assoc. reflexivity.
    + exists []. reflexivity.
  - intros section. unfold section_content.
    rewrite (filter_ext (is_paragraph namespace) (is_paragraph None)).
    + reflexivity.
    + intros c. rewrite !is_paragraph_endswith. reflexivity.
Qed.

(** A section holding only a [stamp] element gives a chapter with the
    text of the stamp. *)
Lemma paragraph_test_is_suffix_test_witness :
  is_paragraph None (leaf (lit "stamp") (lit "Received")) = true
  /\ section_content None stamp_section = lit "Received".
Proof.
  split; [|reflexivity].
  apply (proj1 (paragraph_test_is_suffix_test None)).
  exists (lit "stam"). reflexivity.
Defined.

(* ================================================================== *)
(** ** Reading order *)
(* ================================================================== *)

Lemma sorted_nth {A : Type} (R : A -> A -> Prop) (l : list A) (i j : nat)
    (a b : A) :
  StronglySorted R l -> i < j ->
  nth_error l i = Some a -> nth_error l j = Some b -> R a b.
Proof.
  intros Hs. revert i j. induction Hs as [|x l Hs IH Hx]; intros i j Hij Ha Hb.
  - destruct i; discriminate.
  - destruct j as [|j]; [lia|]. simpl in Hb. destruct i as [|i]; simpl in Ha.
    + injection Ha as <-. rewrite Forall_forall in Hx. apply Hx.
      eapply nth_error_In. exact Hb.
    + apply (IH i j); [lia | exact Ha | exact Hb].
Qed.

(** X11.  The chapters of a successful parse are numbered in reading
    order: of two chapters, the one with the smaller order comes from the
    section that stands earlier in the document. *)
Theorem smaller_order_is_earlier_section
    (fromstring : list Byte.byte -> result Element)
    (file_content : list Byte.byte) (bd : book_data)
    (chs : list chapter_data) (c1 c2 : chapter_data) :
  _parse_fb2_content fromstring file_content = inr bd ->
  chapters bd = Some chs ->
  In c1 chs -> In c2 chs ->
  ch_order c1 < ch_order c2 ->
  exists root p1 s1 p2 s2,
    fromstring file_content = inr root
    /\ let namespace := root_namespace root in
       subtree root p1 = Some s1
       /\ subtree root p2 = Some s2
       /\ _process_fb2_section s1 namespace (ch_order c1) = Some c1
       /\ _process_fb2_section s2 namespace (ch_order c2) = Some c2
       /\ doc_lt p1 p2.
Proof.
  intros Hp Hc H1 H2 Hlt.
  destruct (parse_chapters _ _ _ _ Hp Hc) as (root & Hf & ->).
  set (namespace := root_namespace root) in *.
  apply in_process_sections in H1, H2.
  destruct H1 as (k1 & s1 & Hk1 & Hp1), H2 as (k2 & s2 & Hk2 & Hp2).
  pose proof (process_section_fields _ _ _ _ Hp1) as [Ho1 _].
  pose proof (process_section_fields _ _ _ _ Hp2) as [Ho2 _].
  rewrite nth_error_map in Hk1, Hk2.
  destruct (nth_error (candidates_at namespace root) k1) as [[p1 x1]|] eqn:E1;
    [|discriminate].
  destruct (nth_error (candidates_at namespace root) k2) as [[p2 x2]|] eqn:E2;
    [|discriminate].
  simpl in Hk1, Hk2. injection Hk1 as ->. injection Hk2 as ->.
  exists root, p1, s1, p2, s2. split; [exact Hf|]. cbv zeta.
  assert (Hsub : forall p s, In (p, s) (candidates_at namespace root) ->
                             subtree root p = Some s).
  { intros p s Hin. unfold candidates_at in Hin.
    destruct (find_at root _ namespace) as [[pb body]|] eqn:Eb;
      [|destruct Hin].
    assert (Hin' : In (p, s) (candidates_at namespace root))
      by (unfold candidates_at; rewrite Eb; exact Hin).
    apply (candidates_at_below _ _ _ _ _ _ Eb Hin'). }
  split; [apply Hsub; eapply nth_error_In; exact E1|].
  split; [apply Hsub; eapply nth_error_In; exact E2|].
  rewrite Ho1, Ho2. split; [exact Hp1|]. split; [exact Hp2|].
  apply (sorted_nth pos_lt (candidates_at namespace root) k1 k2
           (p1, s1) (p2, s2)); [apply candidates_at_sorted | lia | auto | auto].
Qed.

(** The two chapters of [two_section_book]. *)
Lemma smaller_order_is_earlier_section_witness :
  exists root p1 s1 p2 s2,
    parser_of two_section_book [] = inr root
    /\ let namespace := root_namespace root in
       subtree root p1 = Some s1
       /\ subtree root p2 = Some s2
       /\ _process_fb2_section s1 namespace 1 = Some chapter_one
       /\ _process_fb2_section s2 namespace 2 = Some chapter_two
       /\ doc_lt p1 p2.
Proof.
  exact (smaller_order_is_earlier_section (parser_of two_section_book) []
           _ _ chapter_one chapter_two eq_refl eq_refl
           (or_introl eq_refl) (or_intror (or_introl eq_refl)) (le_n 2)).
Defined.

(* ================================================================== *)
(** ** The number of chapters *)
(* ================================================================== *)

Lemma kept_all_blank (keep : Element -> bool) (l : list Element) :
  forallb all_space (map full_text (filter keep l))
  = negb (existsb (fun c => keep c && negb (all_space (full_text c))) l).
Proof.
  induction l as [|c l IH]; simpl; [reflexivity|].
  destruct (keep c); simpl; [|exact IH].
  rewrite IH. destruct (all_space (full_text c)); reflexivity.
Qed.

Lemma existsb_ext {A : Type} (f g : A -> bool) (l : list A) :
  (forall a, f a = g a) -> existsb f l = existsb g l.
Proof.
  intros H. induction l as [|a l IH]; simpl; [|rewrite H, IH]; reflexivity.
Qed.

Lemma process_some_has_content (section : Element) (namespace : prefix_map)
    (order : nat) :
  (exists ch, _process_fb2_section section namespace order = Some ch)
  <-> has_content section = true.
Proof.
  rewrite process_some_iff, section_content_blank_iff, kept_all_blank.
  unfold has_content.
  rewrite (existsb_ext _
             (fun c => Py.endswith (tag c) (lit "p")
                       && negb (all_space (full_text c))))
    by (intros c; rewrite is_paragraph_endswith; reflexivity).
  destruct (existsb _ (children section)); simpl; split; congruence.
Qed.

Lemma process_sections_count (namespace : prefix_map) (idx : nat)
    (sections : list Element) :
  length (process_sections namespace idx sections)
  = length (filter has_content sections).
Proof.
  revert idx. induction sections as [|s rest IH]; intros idx; simpl;
    [reflexivity|].
  pose proof (process_some_has_content s namespace idx) as H.
  destruct (_process_fb2_section s namespace idx) as [ch|] eqn:E.
  - rewrite (proj1 H) by eauto. simpl. rewrite IH. reflexivity.
  - destruct (has_content s); [|apply IH].
    destruct (proj2 H eq_refl) as (ch & Hch). discriminate.
Qed.

(** X14.  A successful parse returns as many chapters as there are
    candidate sections with a direct child whose tag ends with the letter
    p and whose text, its descendants' included, is not all
    whitespace. *)
Theorem chapter_count
    (fromstring : list Byte.byte -> result Element)
    (file_content : list Byte.byte) (bd : book_data)
    (chs : list chapter_data) :
  _parse_fb2_content fromstring file_content = inr bd ->
  chapters bd = Some chs ->
  exists root,
    fromstring file_content = inr root
    /\ length chs
       = length (filter has_content (candidates (root_namespace root) root)).
Proof.
  intros Hp Hc. destruct (parse_chapters _ _ _ _ Hp Hc) as (root & Hf & ->).
  exists root. split; [exact Hf|].
  rewrite candidates_at_erase. apply process_sections_count.
Qed.

(** [gap_book]: two candidate sections, one with content, one chapter. *)
Lemma chapter_count_witness :
  exists root,
    parser_of gap_book [] = inr root
    /\ 1 = length (filter has_content (candidates (root_namespace root) root)).
Proof.
  exact (chapter_count (parser_of gap_book) [] _ _ eq_refl eq_refl).
Defined.

Lemma endswith_cons (c : Py.char) (s suffix : str) :
  Py.endswith s suffix = true -> Py.endswith (c :: s) suffix = true.
Proof.
  unfold Py.endswith. cbn [rev]. generalize (rev s) as r.
  induction (rev suffix) as [|b q IH]; intros r; [reflexivity|].
  destruct r as [|a r]; simpl; [discriminate|].
  intros H. apply andb_true_iff in H. destruct H as [-> H].
  rewrite (IH r H). reflexivity.
Qed.

Lemma endswith_app (pre s suffix : str) :
  Py.endswith s suffix = true -> Py.endswith (pre ++ s) suffix = true.
Proof.
  intros H. induction pre as [|c pre IH]; [exact H|].
  simpl. apply endswith_cons. exact IH.
Qed.

Lemma endswith_trans (s mid c : str) :
  Py.endswith s mid = true -> Py.endswith mid c = true ->
  Py.endswith s c = true.
Proof.
  unfold Py.endswith. generalize (rev s) as r. generalize (rev mid) as m.
  induction (rev c) as [|x q IH]; intros m r; [reflexivity|].
  destruct m as [|y m]; simpl; [discriminate|].
  destruct r as [|z r]; simpl; [discriminate|].
  intros H1 H2. apply andb_true_iff in H1, H2.
  destruct H1 as [H1 H1'], H2 as [H2 H2'].
  apply char_eqb_eq in H1, H2. subst. unfold Py.char_eqb.
  rewrite N.eqb_refl. simpl. exact (IH m r H1' H2').
Qed.

(** A [p] element is kept by the paragraph test. *)
Lemma named_p_is_paragraph (namespace : prefix_map) (c : Element) :
  named namespace (lit "p") c = true -> is_paragraph namespace c = true.
Proof.
  rewrite is_paragraph_endswith. unfold named.
  destruct namespace as [u|].
  - destruct (Py.eqb u (lit "*")).
    + intros H. apply orb_true_iff in H. destruct H as [H | H].
      * apply eqb_eq in H. rewrite H. reflexivity.
      * apply (endswith_trans _ _ _ H). reflexivity.
    + destruct (Py.truthy u); intros H; apply eqb_eq in H; rewrite H;
        [|reflexivity].
      unfold qname. rewrite !app_assoc. apply endswith_app. reflexivity.
  - intros H. apply eqb_eq in H. rewrite H. reflexivity.
Qed.

(** X15.  In a section where the only direct children whose tag ends
    with the letter p are [p] elements, as in every section the FB2
    schema allows, a chapter is produced exactly when the content in
    the words of the specification (the full text of the direct [p]
    children joined by a blank line, then trimmed) is not empty. *)
Theorem regular_section_emitted_iff_content (namespace : prefix_map)
    (section : Element) (order : nat) :
  regular namespace section ->
  ((exists ch, _process_fb2_section section namespace order = Some ch)
   <-> spec_content namespace section <> []).
Proof.
  intros Hreg.
  assert (Hsame : filter (is_paragraph namespace) (children section)
                  = filter (named namespace (lit "p")) (children section)).
  { apply filter_ext_in. intros c Hc.
    destruct (named namespace (lit "p") c) eqn:En.
    - apply named_p_is_paragraph. exact En.
    - destruct (is_paragraph namespace c) eqn:Ep; [|reflexivity].
      rewrite is_paragraph_endswith in Ep.
      rewrite (Hreg c Hc Ep) in En. discriminate. }
  rewrite process_some_iff, section_content_blank_iff, Hsame.
  unfold spec_content.
  rewrite strip_nil_iff, all_space_join by reflexivity. tauto.
Qed.

(** The second section of [gap_book] has one [p] child with text. *)
Lemma regular_section_emitted_iff_content_witness :
  exists ch,
    _process_fb2_section (node (lit "section") [leaf (lit "p") (lit "Hello")])
      None 2 = Some ch.
Proof.
  apply (regular_section_emitted_iff_content None
           (node (lit "section") [leaf (lit "p") (lit "Hello")]) 2).
  - intros c [<- | []] _. reflexivity.
  - discriminate.
Defined.

(* ================================================================== *)
(** ** Flash cards *)
(* ================================================================== *)

Section Review_facts.

Variables (float time : Type).
Variable scaled : Z -> float -> result Z.
Variable eased : float -> Z -> float.
Variable above_two : float -> bool.
Variable after_days : time -> Z -> result time.
Variable save : FlashCard.card float time -> result unit.

Let card := FlashCard.card float time.
Let update :=
  FlashCard.update_review_data float time scaled eased above_two after_days
    save.
Let submit :=
  FlashCard.submit_answer float time scaled eased above_two after_days save.
Let submit_all :=
  FlashCard.submit_all float time scaled eased above_two after_days save.

Lemma update_counters (now1 now2 : time) (c c' : card) (quality : Z) :
  update now1 now2 c quality = inr c' ->
  ((quality < 3)%Z
   /\ FlashCard.repetitions c' = 0%Z
   /\ FlashCard.interval c' = 1%Z
   /\ FlashCard.status c' = FlashCard.STATUS_TO_LEARN)
  \/ ((3 <= quality)%Z
      /\ FlashCard.repetitions c' = (FlashCard.repetitions c + 1)%Z
      /\ (FlashCard.repetitions c' = 1%Z -> FlashCard.interval c' = 1%Z)
      /\ (FlashCard.repetitions c' = 2%Z -> FlashCard.interval c' = 6%Z)
      /\ (FlashCard.status c' = FlashCard.STATUS_LEARNED ->
          (5 <= FlashCard.repetitions c')%Z
          \/ FlashCard.status c = FlashCard.STATUS_LEARNED
             /\ (FlashCard.repetitions c' < 2)%Z)
      /\ (FlashCard.status c' = FlashCard.STATUS_KNOWN ->
          (2 <= FlashCard.repetitions c')%Z
          \/ FlashCard.status c = FlashCard.STATUS_KNOWN
             /\ (FlashCard.repetitions c' < 2)%Z)).
Proof.
  unfold update, FlashCard.update_review_data.
  destruct (quality <? 3)%Z eqn:Eq.
  - apply Z.ltb_lt in Eq. unfold bind.
    destruct (after_days now2 1) as [e|next]; [discriminate|].
    destruct (save _) as [e|[]]; [discriminate|].
    intros H. injection H as <-. left. simpl. auto.
  - apply Z.ltb_ge in Eq. unfold bind.
    set (r := (FlashCard.repetitions c + 1)%Z).
    destruct (if (r =? 1)%Z then ret 1%Z
              else if (r =? 2)%Z then ret 6%Z
              else scaled (FlashCard.interval c) (FlashCard.ease_factor c))
      as [e|i] eqn:Ei; [discriminate|].
    destruct (after_days now2 i) as [e|next]; [discriminate|].
    destruct (save _) as [e|[]]; [discriminate|].
    intros H. injection H as <-. right. simpl.
    split; [exact Eq|]. split; [reflexivity|].
    split.
    { intros Hr. rewrite Hr in Ei. simpl in Ei. injection Ei as <-.
      reflexivity. }
    split.
    { intros Hr. rewrite Hr in Ei. simpl in Ei. injection Ei as <-.
      reflexivity. }
    destruct (5 <=? r)%Z eqn:E5; destruct (2 <=? r)%Z eqn:E2;
      destruct (above_two _); simpl;
      try apply Z.leb_le in E5; try apply Z.leb_le in E2;
      try apply Z.leb_gt in E5; try apply Z.leb_gt in E2;
      split; intros Hs; try discriminate; auto.
Qed.

Lemma submit_cases (now1 now2 : time) (c : card) (quality : Z)
    (code : nat) (c' : card) :
  submit now1 now2 c quality = inr (code, c') ->
  (FlashCard.accepted (now1, now2, quality) = false
   /\ code = 400 /\ c' = c)
  \/ (FlashCard.accepted (now1, now2, quality) = true
      /\ code = 200 /\ update now1 now2 c quality = inr c').
Proof.
  unfold submit, FlashCard.submit_answer, FlashCard.accepted. simpl.
  destruct (quality =? 0)%Z eqn:E0; simpl.
  - apply Z.eqb_eq in E0. subst quality. intros H. injection H as <- <-.
    left. auto.
  - apply Z.eqb_neq in E0.
    destruct (quality =? 1)%Z eqn:E1; simpl;
      [|destruct (quality =? 2)%Z eqn:E2; simpl;
        [|destruct (quality =? 3)%Z eqn:E3; simpl;
          [|destruct (quality =? 4)%Z eqn:E4; simpl]]].
    5: { apply Z.eqb_neq in E1, E2, E3, E4.
         intros H. injection H as <- <-. left. split; [|auto].
         destruct (1 <=? quality)%Z eqn:L1; [|reflexivity].
         destruct (quality <=? 4)%Z eqn:L4; [|reflexivity].
         apply Z.leb_le in L1, L4. lia. }
    all: fold (update now1 now2 c quality); unfold bind;
      destruct (update now1 now2 c quality) as [e|c1] eqn:Eu;
      [discriminate|]; intros H; injection H as <- <-; right;
      split; [|auto].
    + apply Z.eqb_eq in E1. subst. reflexivity.
    + apply Z.eqb_eq in E2. subst. reflexivity.
    + apply Z.eqb_eq in E3. subst. reflexivity.
    + apply Z.eqb_eq in E4. subst. reflexivity.
Qed.

Lemma update_keeps_counted (now1 now2 : time) (c c' : card) (quality : Z) :
  FlashCard.counted c ->
  update now1 now2 c quality = inr c' ->
  FlashCard.counted c'.
Proof.
  intros (H0 & HL & HK) Hu. apply update_counters in Hu.
  unfold FlashCard.counted.
  destruct Hu as [(_ & -> & _ & ->) | (_ & Hr & _ & _ & HL' & HK')].
  - split; [lia|]. split; discriminate.
  - split; [lia|]. split; intros Hs.
    + destruct (HL' Hs) as [H | [H1 H2]]; [exact H|].
      specialize (HL H1). lia.
    + destruct (HK' Hs) as [H | [H1 H2]]; [exact H|].
      specialize (HK H1). lia.
Qed.

(** X12.  Whatever answers are submitted, those outside 1..4 that the
    view turns down included, a card that starts with counters matching
    its status keeps them matching: a stored card marked learned has at
    least five repetitions, one marked known at least two, and the
    repetitions are never negative. *)
Theorem status_matches_counters (answers : list (time * time * Z))
    (c c' : card) :
  FlashCard.counted c ->
  submit_all answers c = inr c' ->
  FlashCard.counted c'.
Proof.
  revert c. induction answers as [|[[now1 now2] quality] rest IH];
    intros c Hc Hs.
  - injection Hs as <-. exact Hc.
  - unfold submit_all in Hs. simpl in Hs.
    fold (submit now1 now2 c quality) in Hs. unfold bind in Hs.
    destruct (submit now1 now2 c quality) as [e|[code c1]] eqn:E1;
      [discriminate|].
    simpl in Hs. apply (IH c1); [|exact Hs].
    destruct (submit_cases _ _ _ _ _ _ E1) as [(_ & _ & ->) | (_ & _ & Hu)];
      [exact Hc|].
    exact (update_keeps_counted _ _ _ _ _ Hc Hu).
Qed.

Lemma leading_all {A : Type} (f : A -> bool) (l : list A) :
  forallb f l = true -> FlashCard.leading f l = l.
Proof.
  induction l as [|x l IH]; simpl; [reflexivity|].
  destruct (f x); simpl; [|discriminate]. intros H. rewrite IH by exact H.
  reflexivity.
Qed.

Lemma leading_app_one {A : Type} (f : A -> bool) (l : list A) (x : A) :
  FlashCard.leading f (l ++ [x])
  = if forallb f l then l ++ (if f x then [x] else [])
    else FlashCard.leading f l.
Proof.
  induction l as [|y l IH]; simpl.
  - destruct (f x); reflexivity.
  - destruct (f y); simpl; [|reflexivity]. rewrite IH.
    destruct (forallb f l); reflexivity.
Qed.

Lemma forallb_rev {A : Type} (f : A -> bool) (l : list A) :
  forallb f (rev l) = forallb f l.
Proof.
  induction l as [|x l IH]; simpl; [reflexivity|].
  rewrite forallb_app, IH. simpl. rewrite andb_true_r. apply andb_comm.
Qed.

Lemma streak_cons (a : time * time * Z) (rest : list (time * time * Z)) :
  FlashCard.streak (a :: rest)
  = (if FlashCard.accepted a
        && forallb FlashCard.good (filter FlashCard.accepted rest)
        && FlashCard.good a
     then FlashCard.streak rest + 1
     else FlashCard.streak rest)%Z.
Proof.
  unfold FlashCard.streak. simpl.
  destruct (FlashCard.accepted a); simpl; [|reflexivity].
  set (f := filter FlashCard.accepted rest).
  rewrite leading_app_one, forallb_rev.
  destruct (forallb FlashCard.good f) eqn:Ef; simpl; [|reflexivity].
  rewrite leading_all by (rewrite forallb_rev; exact Ef).
  destruct (FlashCard.good a).
  - rewrite length_app. simpl. lia.
  - rewrite app_nil_r. reflexivity.
Qed.

(** X13.  After any answers the repetitions of the stored card count the
    good and easy answers given since the last answer rated again or
    hard; if there was none, they are the repetitions the card started
    with plus the good and easy answers.  Answers outside 1..4 do not
    count either way. *)
Theorem repetitions_count_streak (answers : list (time * time * Z))
    (c c' : card) :
  submit_all answers c = inr c' ->
  FlashCard.repetitions c'
  = ((if forallb FlashCard.good (filter FlashCard.accepted answers)
      then FlashCard.repetitions c else 0)
     + FlashCard.streak answers)%Z.
Proof.
  revert c. induction answers as [|[[now1 now2] quality] rest IH];
    intros c Hs.
  - injection Hs as <-. unfold FlashCard.streak. simpl. lia.
  - unfold submit_all in Hs. simpl in Hs.
    fold (submit now1 now2 c quality) in Hs. unfold bind in Hs.
    destruct (submit now1 now2 c quality) as [e|[code c1]] eqn:E1;
      [discriminate|].
    simpl in Hs. fold submit_all in Hs. rewrite (IH c1 Hs), streak_cons.
    cbn [filter].
    destruct (submit_cases _ _ _ _ _ _ E1)
      as [(Hacc & _ & ->) | (Hacc & _ & Hu)]; rewrite Hacc; simpl.
    + reflexivity.
    + apply update_counters in Hu.
      assert (Hg : FlashCard.good (now1, now2, quality) = (3 <=? quality)%Z)
        by reflexivity.
      rewrite Hg.
      destruct Hu as [(Hq & Hr & _) | (Hq & Hr & _)].
      * apply Z.leb_gt in Hq. rewrite Hq, Hr, andb_false_r. simpl.
        destruct (forallb FlashCard.good (filter FlashCard.accepted rest));
          reflexivity.
      * apply Z.leb_le in Hq. rewrite Hq, Hr, andb_true_r. simpl.
        destruct (forallb FlashCard.good (filter FlashCard.accepted rest));
          lia.
Qed.

End Review_facts.

(** A fresh card after good, easy, again, a rejected 7 and good: one
    repetition, and the counters match the status. *)
Lemma status_matches_counters_witness :
  exists c',
    review sample_answers fresh_card = inr c'
    /\ FlashCard.counted c'.
Proof.
  eexists. split; [reflexivity|].
  apply (status_matches_counters unit Z
           (fun i _ => inr (2 * i)%Z) (fun f _ => f) (fun _ => true)
           (fun t d => inr (t + d)%Z) (fun _ => inr tt)
           sample_answers fresh_card).
  - unfold FlashCard.counted. simpl. split; [lia|]. split; discriminate.
  - reflexivity.
Defined.

Lemma repetitions_count_streak_witness :
  exists c',
    review sample_answers fresh_card = inr c'
    /\ FlashCard.repetitions c' = 1%Z.
Proof.
  eexists. split; [reflexivity|].
  exact (repetitions_count_streak unit Z
           (fun i _ => inr (2 * i)%Z) (fun f _ => f) (fun _ => true)
           (fun t d => inr (t + d)%Z) (fun _ => inr tt)
           sample_answers fresh_card _ eq_refl).
Defined.
